(** * The PagerDuty access-request bridge (access/pagerduty)

    A shallow embedding of [app.go] and of the bot of the same package.
    Both files talk to two remote services, the Teleport auth server
    (through [access.Client]) and the PagerDuty REST API (through
    [pd.Client]).  Every remote call, and every log line, is a node of a
    program tree; the services themselves are an arbitrary state machine
    that answers the calls.  The theorems on the two event handlers
    quantify over that state machine, so they hold whatever the services
    answer.  The idempotence of the provisioning is a statement on the
    state of the incident service, and is proved against a reference
    model of it.

    The start of the application ([App.run]) is a program tree of the
    same kind over the operations of the process around it, and so are
    the functions of the vendored client profiles over the file
    system. *)

From Stdlib Require Import ZArith Lia Ascii.
From stdpp Require Import base option strings list gmap pretty.

Local Open Scope Z_scope.

(** ** The data of package access *)

(** Modelled from the spec: [access.State], the lifecycle state of a
    request ("Pending, Approved, Denied, Expired/Deleted").  The source
    only names [StatePending], [StateApproved] and [StateDenied];
    [StateNone] is the zero value carried by a deletion event. *)
Inductive State := StateNone | StatePending | StateApproved | StateDenied.

Global Instance State_eq_dec : EqDecision State.
Proof. solve_decision. Defined.

Definition State_IsPending (s : State) : bool :=
  bool_decide (s = StatePending).

(** [time.Time] is kept as an instant, in nanoseconds since the epoch. *)
Definition Time := Z.

(** Modelled from the spec: [access.Request], "identity (opaque ID),
    requesting principal, requested role set, creation timestamp,
    lifecycle state". *)
Module Request.
Record t := mk {
  ID : string;
  User : string;
  Roles : list string;
  Created : Time;
  State : State;
}.
End Request.

(** Modelled from the spec: the watcher delivers "{type: put|delete,
    request}" events; any other operation reaches the default branch of
    the handler. *)
Inductive Op := OpPut | OpDelete | OpOther (name : string).

Module Event.
Record t := mk {
  Type_ : Op;
  Request : Request.t;
}.
End Event.

(** ** Errors (package trace) *)

Inductive ErrorKind :=
  | KindNotFound
  | KindBadParameter
  | KindNotImplemented
  | KindOther.

(** What a format string is applied to. *)
Inductive Arg :=
  | AString (s : string)
  | ARequest (r : Request.t)
  | AOp (o : Op).

Record error := Error {
  err_kind : ErrorKind;
  err_format : string;
  err_args : list Arg;
}.

Definition trace_NotFound (msg : string) : error := Error KindNotFound msg [].
Definition trace_BadParameter (fmt : string) (args : list Arg) : error :=
  Error KindBadParameter fmt args.
Definition trace_Errorf (fmt : string) (args : list Arg) : error :=
  Error KindOther fmt args.

(** [trace.Wrap] attaches the caller's stack frame to an error; the kind
    and the message of the error, which is all the model keeps of it, are
    unchanged. *)
Definition trace_Wrap (e : error) : error := e.

Definition trace_IsNotFound (e : error) : bool :=
  match err_kind e with KindNotFound => true | _ => false end.

(** A Go [error] result is [None] for [nil]; a [(T, error)] result is a
    sum with the error on the left. *)
Abbreviation result T := (error + T)%type.

(** [access.PluginData] is Go's [map[string]string]. *)
Abbreviation PluginDataMap := (gmap string string).

(** ** The data of this package *)

Module RequestData.
Record t := mk {
  User : string;
  Roles : list string;
  Created : Time;
}.
End RequestData.

Module PagerdutyData.
Record t := mk { ID : string }.
End PagerdutyData.

Module PluginData.
Record t := mk {
  RequestData : RequestData.t;
  PagerdutyData : PagerdutyData.t;
}.
End PluginData.

(** Modelled from the spec: the webhook action callback, "{event-type,
    incident-key, incident-id, action-name, correlation/message
    identifiers}". *)
Module WebhookAction.
Record t := mk {
  HTTPRequestID : string;
  MessageID : string;
  Event : string;
  Name : string;
  IncidentID : string;
  IncidentKey : string;
}.
End WebhookAction.

(** ** The data of the PagerDuty client (package pd) *)

Module APIObject.
Record t := mk {
  ID : string;
  Type_ : string;
  Summary : string;
}.
End APIObject.

Module APIReference.
Record t := mk {
  ID : string;
  Type_ : string;
}.
End APIReference.

Module APIListObject.
Record t := mk {
  Limit : Z;
  Offset : Z;
  More : bool;
}.
End APIListObject.

Module ExtensionSchema.
Record t := mk {
  ID : string;
  Key : string;
}.
End ExtensionSchema.

Module ListExtensionSchemaResponse.
Record t := mk {
  List_ : APIListObject.t;
  ExtensionSchemas : list ExtensionSchema.t;
}.
Definition More (r : t) : bool := APIListObject.More (List_ r).
End ListExtensionSchemaResponse.

Module Extension.
Record t := mk {
  ID : string;
  Name : string;
  EndpointURL : string;
  ExtensionSchema : APIObject.t;
  ExtensionObjects : list APIObject.t;
}.
End Extension.

Module ListExtensionOptions.
Record t := mk {
  List_ : APIListObject.t;
  ExtensionObjectID : string;
  ExtensionSchemaID : string;
}.
End ListExtensionOptions.

Module ListExtensionResponse.
Record t := mk {
  List_ : APIListObject.t;
  Extensions : list Extension.t;
}.
Definition More (r : t) : bool := APIListObject.More (List_ r).
End ListExtensionResponse.

Module APIDetails.
Record t := mk {
  Type_ : string;
  Details : string;
}.
End APIDetails.

Module CreateIncidentOptions.
Record t := mk {
  Title : string;
  IncidentKey : string;
  Service : APIReference.t;
  Body : APIDetails.t;
}.
End CreateIncidentOptions.

Module Incident.
Record t := mk {
  Id : string;
  IncidentKey : string;
  Status : string;
}.
End Incident.

Module IncidentNote.
Record t := mk {
  User : APIObject.t;
  Content : string;
}.
End IncidentNote.

Module ManageIncidentsOptions.
Record t := mk {
  ID : string;
  Type_ : string;
  Status : string;
}.
End ManageIncidentsOptions.

(** ** Remote calls *)

(** One constructor per method of [access.Client] and of [pd.Client] that
    the package calls, with the arguments of the call. *)
Inductive Call :=
  | GetRequest (reqID : string)
  | SetRequestState (reqID : string) (state : State)
  | GetPluginData (reqID : string)
  | UpdatePluginData (reqID : string) (set : PluginDataMap)
      (expect : option PluginDataMap)
  | ListExtensionSchemas (o : APIListObject.t)
  | ListExtensions (o : ListExtensionOptions.t)
  | CreateExtension (e : Extension.t)
  | UpdateExtension (id : string) (e : Extension.t)
  | CreateIncident (from : string) (o : CreateIncidentOptions.t)
  | CreateIncidentNote (id : string) (note : IncidentNote.t)
  | ManageIncidents (from : string) (opts : list ManageIncidentsOptions.t).

(** What each call answers. *)
Definition Resp (c : Call) : Type :=
  match c with
  | GetRequest _ => result Request.t
  | SetRequestState _ _ => option error
  | GetPluginData _ => result PluginDataMap
  | UpdatePluginData _ _ _ => option error
  | ListExtensionSchemas _ => result ListExtensionSchemaResponse.t
  | ListExtensions _ => result ListExtensionResponse.t
  | CreateExtension _ => result Extension.t
  | UpdateExtension _ _ => result Extension.t
  | CreateIncident _ _ => result Incident.t
  | CreateIncidentNote _ _ => option error
  | ManageIncidents _ _ => result (list Incident.t)
  end.

(** ** Log lines (package logrus) *)

Inductive Level := DebugLevel | InfoLevel | WarnLevel | ErrorLevel.

Inductive FieldValue :=
  | FString (s : string)
  | FError (e : error)
  | FEvent (e : Event.t)
  | FDebugReport (e : error).

Record LogEntry := Entry {
  log_fields : list (string * FieldValue);
  log_level : Level;
  log_format : string;
  log_args : list FieldValue;
}.

(** ** Programs *)

(** A method of the package is a tree: it returns, or issues a call and
    goes on with the answer, or writes a log line and goes on. *)
Inductive Prog (A : Type) : Type :=
  | Ret (a : A)
  | Do (c : Call) (k : Resp c → Prog A)
  | Emit (l : LogEntry) (k : Prog A).
Arguments Ret {A} a.
Arguments Do {A} c k.
Arguments Emit {A} l k.

Fixpoint Prog_bind {A B} (f : A → Prog B) (p : Prog A) : Prog B :=
  match p with
  | Ret a => f a
  | Do c k => Do c (λ r, Prog_bind f (k r))
  | Emit l k => Emit l (Prog_bind f k)
  end.

Global Instance Prog_mret : MRet Prog := @Ret.
Global Instance Prog_mbind : MBind Prog := @Prog_bind.

Definition call (c : Call) : Prog (Resp c) := Do c Ret.
Definition log (l : LogEntry) : Prog unit := Emit l (Ret tt).

(** What a run leaves behind: the calls with their answers and the log
    lines, in the order in which they happened. *)
Inductive Step :=
  | Called (c : Call) (r : Resp c)
  | Logged (l : LogEntry).

Definition calls (tr : list Step) : list Call :=
  omap (λ s, match s with Called c _ => Some c | Logged _ => None end) tr.

(** The services: their state and the reply to each call in a state. *)
Record Services := {
  world : Type;
  reply : ∀ c : Call, world → Resp c * world;
}.

Fixpoint run (S : Services) {A} (p : Prog A) (w : world S)
  : A * world S * list Step :=
  match p with
  | Ret a => (a, w, [])
  | Do c k =>
      let '(r, w1) := reply S c w in
      let '(a, w2, tr) := run S (k r) w1 in
      (a, w2, Called c r :: tr)
  | Emit l k =>
      let '(a, w1, tr) := run S k w in
      (a, w1, Logged l :: tr)
  end.

(** ** Code of other files *)

(** The package calls three functions that the two files do not define:
    [time.Time.Format] of the standard library, and the encoder and the
    decoder of the plugin data, which live next to the [PluginData]
    type.  They are parameters of the development. *)
Class Externals := {
  Time_Format : Time → string → string;
  EncodePluginData : PluginData.t → PluginDataMap;
  DecodePluginData : PluginDataMap → PluginData.t;
}.

Definition time_RFC822 : string := "02 Jan 06 15:04 MST".

(** [strings.Split(s, sep)] for a separator of one byte, the only way the
    package calls it: the pieces of [s] between the separators, in order;
    a string without separator is its own single piece. *)
Fixpoint strings_Split (s : string) (sep : ascii) : list string :=
  match s with
  | EmptyString => [EmptyString]
  | String c rest =>
      if decide (c = sep) then EmptyString :: strings_Split rest sep
      else
        match strings_Split rest sep with
        | piece :: pieces => String c piece :: pieces
        | [] => [String c EmptyString]
        end
  end.

(** [strings.Join]. *)
Fixpoint strings_Join (elems : list string) (sep : string) : string :=
  match elems with
  | [] => EmptyString
  | [e] => e
  | e :: rest => e +:+ sep +:+ strings_Join rest sep
  end.

(** Go's [uint] is 64 bits wide on the platforms the plugin is built for;
    its addition wraps. *)
Definition uint_add (x y : Z) : Z := (x + y) mod 2 ^ 64.

(** ** Constants of the bot *)

Definition pdListLimit : Z := 60.
Definition pdIncidentKeyPrefix : string := "teleport-access-request".
Definition pdApproveAction : string := "approve".
Definition pdApproveActionLabel : string := "Approve Request".
Definition pdDenyAction : string := "deny".
Definition pdDenyActionLabel : string := "Deny Request".

(** The webhook server is used for one thing here, the URL it serves an
    action under. *)
Module WebhookServer.
Record t := mk { ActionURL : string → string }.
End WebhookServer.

(** ** The bot *)

Module Bot.
Record t := mk {
  apiEndpoint : string;
  apiKey : string;
  server : WebhookServer.t;
  from : string;
  serviceID : string;
  clusterName : string;
}.

(** The template of the incident body, executed on the request data
    with the layout [time.RFC822]; the execution writes to a string
    builder and has no failing action, so the error result is [nil]. *)
Definition buildIncidentBody `{!Externals} (b : t) (reqID : string)
    (reqData : RequestData.t) : result string :=
  inr (RequestData.User reqData
       +:+ " requested permissions for roles "
       +:+ strings_Join (RequestData.Roles reqData) ", "
       +:+ " on Teleport at "
       +:+ Time_Format (RequestData.Created reqData) time_RFC822
       +:+ ". To approve or deny the request, please use Special Actions on this incident."
       +:+ String "010" EmptyString).

Definition CreateIncident `{!Externals} (b : t) (reqID : string)
    (reqData : RequestData.t) : Prog (result PagerdutyData.t) :=
  match buildIncidentBody b reqID reqData with
  | inl err => mret (inl (trace_Wrap err))
  | inr body =>
      incident ← call (CreateIncident (from b) {|
        CreateIncidentOptions.Title :=
          "Access request from " +:+ RequestData.User reqData;
        CreateIncidentOptions.IncidentKey :=
          pdIncidentKeyPrefix +:+ "/" +:+ reqID;
        CreateIncidentOptions.Service := {|
        APIReference.Type_ := "service_reference";
        APIReference.ID := serviceID b |};
        CreateIncidentOptions.Body := {|
          APIDetails.Type_ := "incident_body";
          APIDetails.Details := body |} |});
      match incident with
      | inl err => mret (inl (trace_Wrap err))
      | inr incident =>
          mret (inr {| PagerdutyData.ID := Incident.Id incident |})
      end
  end.

Definition ResolveIncident (b : t) (reqID : string)
    (pdData : PagerdutyData.t) (status : string) : Prog (option error) :=
  err ← call (CreateIncidentNote (PagerdutyData.ID pdData) {|
    IncidentNote.User := {|
      APIObject.ID := EmptyString;
      APIObject.Type_ := EmptyString;
      APIObject.Summary := from b |};
    IncidentNote.Content := "Access request has been " +:+ status |});
  match err with
  | Some err => mret (Some (trace_Wrap err))
  | None =>
      r ← call (ManageIncidents (from b) [ {|
        ManageIncidentsOptions.ID := PagerdutyData.ID pdData;
        ManageIncidentsOptions.Type_ := "incident_reference";
        ManageIncidentsOptions.Status := "resolved" |} ]);
      match r with
      | inl err => mret (Some (trace_Wrap err))
      | inr _ => mret None
      end
  end.

Definition setupCustomAction (b : t)
    (extensionID schemaID actionName actionLabel : string)
    : Prog (option error) :=
  let actionURL := WebhookServer.ActionURL (server b) actionName in
  let ext := {|
    Extension.ID := EmptyString;
    Extension.Name := actionLabel;
    Extension.EndpointURL := actionURL;
    Extension.ExtensionSchema := {|
      APIObject.ID := schemaID;
      APIObject.Type_ := "extension_schema_reference";
      APIObject.Summary := EmptyString |};
    Extension.ExtensionObjects := [ {|
      APIObject.ID := serviceID b;
      APIObject.Type_ := "service_reference";
      APIObject.Summary := EmptyString |} ] |} in
  if bool_decide (extensionID = EmptyString) then
    r ← call (CreateExtension ext);
    match r with
    | inl err => mret (Some (trace_Wrap err))
    | inr _ => mret None
    end
  else
    r ← call (UpdateExtension extensionID ext);
    match r with
    | inl err => mret (Some (trace_Wrap err))
    | inr _ => mret None
    end.

(** The body of the range loop over one page of schemas. *)
Definition scanSchemas (schemas : list ExtensionSchema.t)
    (webhookSchemaID : string) : string :=
  foldl (λ id schema,
           if bool_decide (ExtensionSchema.Key schema = "custom_webhook")
           then ExtensionSchema.ID schema else id)
        webhookSchemaID schemas.

(** The body of the range loop over one page of extensions. *)
Definition scanExtensions (exts : list Extension.t)
    (ids : string * string) : string * string :=
  foldl (λ '(approveExtID, denyExtID) ext,
           let approveExtID :=
             if bool_decide (Extension.Name ext = pdApproveActionLabel)
             then Extension.ID ext else approveExtID in
           let denyExtID :=
             if bool_decide (Extension.Name ext = pdDenyActionLabel)
             then Extension.ID ext else denyExtID in
           (approveExtID, denyExtID))
        ids exts.

(** The first [for] loop of [Setup].  The loop has no bound of its own:
    [fuel] counts the pages it may still fetch, and [None] says that it
    would fetch one more. *)
Fixpoint findWebhookSchema (fuel : nat) (offset : Z) (more : bool)
    (webhookSchemaID : string) : Prog (option (result string)) :=
  if bool_decide (webhookSchemaID = EmptyString) && more then
    match fuel with
    | O => mret None
    | S fuel =>
        schemaResp ← call (ListExtensionSchemas {|
          APIListObject.Offset := offset;
          APIListObject.Limit := pdListLimit;
          APIListObject.More := false |});
        match schemaResp with
        | inl err => mret (Some (inl (trace_Wrap err)))
        | inr schemaResp =>
            findWebhookSchema fuel (uint_add offset pdListLimit)
              (ListExtensionSchemaResponse.More schemaResp)
              (scanSchemas
                 (ListExtensionSchemaResponse.ExtensionSchemas schemaResp)
                 webhookSchemaID)
        end
    end
  else mret (Some (inr webhookSchemaID)).

(** The second [for] loop of [Setup]. *)
Fixpoint findExtensions (b : t) (webhookSchemaID : string) (fuel : nat)
    (offset : Z) (more : bool) (ids : string * string)
    : Prog (option (result (string * string))) :=
  if (bool_decide (ids.1 = EmptyString) || bool_decide (ids.2 = EmptyString))
     && more then
    match fuel with
    | O => mret None
    | S fuel =>
        extResp ← call (ListExtensions {|
          ListExtensionOptions.List_ := {|
            APIListObject.Offset := offset;
            APIListObject.Limit := pdListLimit;
            APIListObject.More := false |};
          ListExtensionOptions.ExtensionObjectID := serviceID b;
          ListExtensionOptions.ExtensionSchemaID := webhookSchemaID |});
        match extResp with
        | inl err => mret (Some (inl (trace_Wrap err)))
        | inr extResp =>
            findExtensions b webhookSchemaID fuel
              (uint_add offset pdListLimit)
              (ListExtensionResponse.More extResp)
              (scanExtensions (ListExtensionResponse.Extensions extResp) ids)
        end
    end
  else mret (Some (inr ids)).

(** [Setup]; [None] when one of its loops wants more than [fuel]
    pages. *)
Definition Setup (b : t) (fuel : nat) : Prog (option (option error)) :=
  found ← findWebhookSchema fuel 0 true EmptyString;
  match found with
  | None => mret None
  | Some (inl err) => mret (Some (Some err))
  | Some (inr webhookSchemaID) =>
      if bool_decide (webhookSchemaID = EmptyString) then
        mret (Some (Some (trace_NotFound
          ("failed to find " +:+ String "034" "Custom Incident Action"
           +:+ String "034" " extension type"))))
      else
        found ← findExtensions b webhookSchemaID fuel 0 true
                  (EmptyString, EmptyString);
        match found with
        | None => mret None
        | Some (inl err) => mret (Some (Some err))
        | Some (inr (approveExtID, denyExtID)) =>
            err ← setupCustomAction b approveExtID webhookSchemaID
                    pdApproveAction pdApproveActionLabel;
            match err with
            | Some err => mret (Some (Some err))
            | None =>
                err ← setupCustomAction b denyExtID webhookSchemaID
                        pdDenyAction pdDenyActionLabel;
                match err with
                | Some err => mret (Some (Some err))
                | None => mret (Some None)
                end
            end
        end
  end.
End Bot.

(** ** The application *)

Module App.
(** Of the application state the handlers read the bot; the access
    client is the service that answers the backend calls. *)
Record t := mk { bot : Bot.t }.

Definition getPluginData `{!Externals} (a : t) (reqID : string)
    : Prog (result PluginData.t) :=
  dataMap ← call (GetPluginData reqID);
  match dataMap with
  | inl err =>
      mret (inl (trace_Wrap err))
  | inr dataMap => mret (inr (DecodePluginData dataMap))
  end.

Definition setPluginData `{!Externals} (a : t) (reqID : string)
    (data : PluginData.t) : Prog (option error) :=
  call (UpdatePluginData reqID (EncodePluginData data) None).

Definition onPendingRequest `{!Externals} (a : t) (req : Request.t)
    : Prog (option error) :=
  let reqData := {|
    RequestData.User := Request.User req;
    RequestData.Roles := Request.Roles req;
    RequestData.Created := Request.Created req |} in
  pdData ← Bot.CreateIncident (bot a) (Request.ID req) reqData;
  match pdData with
  | inl err => mret (Some (trace_Wrap err))
  | inr pdData =>
      log {|
        log_fields := [("request_id", FString (Request.ID req));
                       ("pd_incident_id", FString (PagerdutyData.ID pdData))];
        log_level := InfoLevel;
        log_format := "PagerDuty incident created";
        log_args := [] |};;
      err ← setPluginData a (Request.ID req) {|
        PluginData.RequestData := reqData;
        PluginData.PagerdutyData := pdData |};
      mret (trace_Wrap <$> err)
  end.

Definition onDeletedRequest `{!Externals} (a : t) (req : Request.t)
    : Prog (option error) :=
  let reqID := Request.ID req in
  pluginData ← getPluginData a reqID;
  match pluginData with
  | inl err =>
      if trace_IsNotFound err then
        log {|
          log_fields := [("error", FError err)];
          log_level := WarnLevel;
          log_format := "Cannot expire unknown request";
          log_args := [] |};;
        mret None
      else mret (Some (trace_Wrap err))
  | inr pluginData =>
      err ← Bot.ResolveIncident (bot a) reqID
              (PluginData.PagerdutyData pluginData) "expired";
      match err with
      | Some err => mret (Some (trace_Wrap err))
      | None =>
          log {|
            log_fields := [("request_id", FString reqID)];
            log_level := InfoLevel;
            log_format := "Successfully marked request as expired";
            log_args := [] |};;
          mret None
      end
  end.

Definition onWatcherEvent `{!Externals} (a : t) (event : Event.t)
    : Prog (option error) :=
  let req := Event.Request event in
  let op := Event.Type_ event in
  match op with
  | OpPut =>
      if negb (State_IsPending (Request.State req)) then
        log {|
          log_fields := [("event", FEvent event)];
          log_level := WarnLevel;
          log_format := "non-pending request event";
          log_args := [] |};;
        mret None
      else
        err ← onPendingRequest a req;
        match err with
        | Some err =>
            let fields := [("request_id", FString (Request.ID req));
                           ("error", FError err)] in
            log {| log_fields := fields; log_level := ErrorLevel;
                   log_format := "Failed to process pending request";
                   log_args := [] |};;
            log {| log_fields := fields; log_level := DebugLevel;
                   log_format := "%v"; log_args := [FDebugReport err] |};;
            mret (Some err)
        | None => mret None
        end
  | OpDelete =>
      err ← onDeletedRequest a req;
      match err with
      | Some err =>
          let fields := [("request_id", FString (Request.ID req));
                         ("error", FError err)] in
          log {| log_fields := fields; log_level := ErrorLevel;
                 log_format := "Failed to process deleted request";
                 log_args := [] |};;
          log {| log_fields := fields; log_level := DebugLevel;
                 log_format := "%v"; log_args := [FDebugReport err] |};;
          mret (Some err)
      | None => mret None
      end
  | _ =>
      mret (Some (trace_BadParameter "unexpected event operation %s"
                    [AOp op]))
  end.

Definition onPagerdutyAction `{!Externals} (a : t)
    (action : WebhookAction.t) : Prog (option error) :=
  let fields := [("pd_http_id", FString (WebhookAction.HTTPRequestID action));
                 ("pd_msg_id", FString (WebhookAction.MessageID action))] in
  if bool_decide (WebhookAction.Event action ≠ "incident.custom") then
    log {| log_fields := fields; log_level := DebugLevel;
           log_format := "Got %q event, ignoring";
           log_args := [FString (WebhookAction.Event action)] |};;
    mret None
  else
  let keyParts := strings_Split (WebhookAction.IncidentKey action) "/" in
  let ignored : Prog (option error) :=
    log {| log_fields := fields; log_level := DebugLevel;
           log_format := "Got unsupported incident key %q, ignoring";
           log_args := [FString (WebhookAction.IncidentKey action)] |};;
    mret None in
  match keyParts with
  | [keyParts0; keyParts1] =>
  if bool_decide (keyParts0 ≠ pdIncidentKeyPrefix) then ignored else
  let reqID := keyParts1 in
  req ← call (GetRequest reqID);
  match req with
  | inl err =>
      if trace_IsNotFound err then
        log {| log_fields := fields ++ [("error", FError err);
                                        ("request_id", FString reqID)];
               log_level := WarnLevel;
               log_format := "Cannot process expired request";
               log_args := [] |};;
        mret None
      else mret (Some (trace_Wrap err))
  | inr req =>
  if bool_decide (Request.State req ≠ StatePending) then
    mret (Some (trace_Errorf "cannot process not pending request: %+v"
                  [ARequest req]))
  else
  pluginData ← getPluginData a reqID;
  match pluginData with
  | inl err => mret (Some (trace_Wrap err))
  | inr pluginData =>
  let fields := fields ++
    [("pd_incident_id", FString (WebhookAction.IncidentID action))] in
  let pdData := PluginData.PagerdutyData pluginData in
  if bool_decide (PagerdutyData.ID pdData ≠ WebhookAction.IncidentID action)
  then
    log {| log_fields := fields ++
             [("plugin_data_incident_id", FString (PagerdutyData.ID pdData))];
           log_level := DebugLevel;
           log_format := "plugin_data.incident_id does not match incident.id";
           log_args := [] |};;
    mret (Some (trace_Errorf
                  "incident_id from request's plugin_data does not match" []))
  else
  match
    (if bool_decide (WebhookAction.Name action = pdApproveAction) then
       Some (StateApproved, "approved")
     else if bool_decide (WebhookAction.Name action = pdDenyAction) then
       Some (StateDenied, "denied")
     else None)
  with
  | None =>
      mret (Some (trace_BadParameter "unknown action: %q"
                    [AString (WebhookAction.Name action)]))
  | Some (reqState, resolution) =>
  err ← call (SetRequestState (Request.ID req) reqState);
  match err with
  | Some err => mret (Some (trace_Wrap err))
  | None =>
  log {| log_fields := fields; log_level := InfoLevel;
         log_format := "PagerDuty user %s the request";
         log_args := [FString resolution] |};;
  err ← Bot.ResolveIncident (bot a) reqID pdData resolution;
  match err with
  | Some err => mret (Some (trace_Wrap err))
  | None =>
  log {| log_fields := fields; log_level := InfoLevel;
         log_format := "Incident %q has been resolved";
         log_args := [FString (WebhookAction.IncidentID action)] |};;
  mret None
  end
  end
  end
  end
  end
  | _ => ignored
  end.
End App.

(** ** A reference model of the two services *)

(** Modelled from the spec: the authorization backend ("GetRequest(id);
    SetRequestState(id, state); GetPluginData(id)→map;
    UpdatePluginData(id, map, compare-and-swap-or-nil)") and the
    incident-management service ("extension-schema lookup, extension
    list/create/update, incident create, incident note create, incident
    manage(resolve)") of the external interfaces, whose code is not part
    of the package.  The general theorems below do not depend on it; it
    gives them an instance, and it is the server that the provisioning
    is run against twice. *)
Module Ref.
Record World := mkWorld {
  requests : gmap string Request.t;
  pluginData : gmap string PluginDataMap;
  schemas : list ExtensionSchema.t;
  extensions : list Extension.t;
  incidents : list Incident.t;
  notes : list (string * IncidentNote.t);
  nextID : nat;
  (** the calls that are answered with an error, and the error *)
  outage : Call → option error;
}.

Definition notFound : error := trace_NotFound "not found".
Definition compareFailed : error :=
  Error KindOther "compare failed" [].

Definition freshID (w : World) : string := "P" +:+ pretty (nextID w).

(** One page of a listing: [Limit] entries from [Offset] on, and
    whether entries remain after them. *)
Definition page {A} (l : list A) (o : APIListObject.t) : list A * bool :=
  (take (Z.to_nat (APIListObject.Limit o))
     (drop (Z.to_nat (APIListObject.Offset o)) l),
   bool_decide (APIListObject.Offset o + APIListObject.Limit o
                < Z.of_nat (length l))).

(** The filter of the extension listing: the extensions of one schema
    attached to one object. *)
Definition listed (objectID schemaID : string) (x : Extension.t) : bool :=
  bool_decide (APIObject.ID (Extension.ExtensionSchema x) = schemaID)
  && existsb (λ obj, bool_decide (APIObject.ID obj = objectID))
       (Extension.ExtensionObjects x).

Definition withID (id : string) (e : Extension.t) : Extension.t := {|
  Extension.ID := id;
  Extension.Name := Extension.Name e;
  Extension.EndpointURL := Extension.EndpointURL e;
  Extension.ExtensionSchema := Extension.ExtensionSchema e;
  Extension.ExtensionObjects := Extension.ExtensionObjects e |}.

Definition hasID (id : string) (x : Extension.t) : bool :=
  bool_decide (Extension.ID x = id).

Definition replaceExt (id : string) (e : Extension.t)
    (l : list Extension.t) : list Extension.t :=
  (λ x, if hasID id x then withID id e else x) <$> l.

Definition withStatus (s : string) (i : Incident.t) : Incident.t := {|
  Incident.Id := Incident.Id i;
  Incident.IncidentKey := Incident.IncidentKey i;
  Incident.Status := s |}.

Definition manage (opts : list ManageIncidentsOptions.t)
    (l : list Incident.t) : list Incident.t :=
  foldl (λ l o,
           (λ i, if bool_decide (Incident.Id i = ManageIncidentsOptions.ID o)
                 then withStatus (ManageIncidentsOptions.Status o) i
                 else i) <$> l)
        l opts.

Definition withState (s : State) (r : Request.t) : Request.t := {|
  Request.ID := Request.ID r;
  Request.User := Request.User r;
  Request.Roles := Request.Roles r;
  Request.Created := Request.Created r;
  Request.State := s |}.

Definition setRequests (w : World) (v : gmap string Request.t) : World :=
  mkWorld v (pluginData w) (schemas w) (extensions w) (incidents w)
    (notes w) (nextID w) (outage w).
Definition setPluginData (w : World) (v : gmap string PluginDataMap)
    : World :=
  mkWorld (requests w) v (schemas w) (extensions w) (incidents w)
    (notes w) (nextID w) (outage w).
Definition setExtensions (w : World) (v : list Extension.t) (n : nat)
    : World :=
  mkWorld (requests w) (pluginData w) (schemas w) v (incidents w)
    (notes w) n (outage w).
Definition setIncidents (w : World) (v : list Incident.t) (n : nat)
    : World :=
  mkWorld (requests w) (pluginData w) (schemas w) (extensions w) v
    (notes w) n (outage w).
Definition setNotes (w : World) (v : list (string * IncidentNote.t))
    : World :=
  mkWorld (requests w) (pluginData w) (schemas w) (extensions w)
    (incidents w) v (nextID w) (outage w).

Definition failure (c : Call) (e : error) : Resp c :=
  match c return Resp c with
  | GetRequest _ => inl e
  | SetRequestState _ _ => Some e
  | GetPluginData _ => inl e
  | UpdatePluginData _ _ _ => Some e
  | ListExtensionSchemas _ => inl e
  | ListExtensions _ => inl e
  | CreateExtension _ => inl e
  | UpdateExtension _ _ => inl e
  | CreateIncident _ _ => inl e
  | CreateIncidentNote _ _ => Some e
  | ManageIncidents _ _ => inl e
  end.

Definition serve (c : Call) (w : World) : Resp c * World :=
  match c return Resp c * World with
  | GetRequest reqID =>
      (match requests w !! reqID with
       | Some r => inr r
       | None => inl notFound
       end, w)
  | SetRequestState reqID s =>
      match requests w !! reqID with
      | Some r => (None, setRequests w (<[reqID := withState s r]> (requests w)))
      | None => (Some notFound, w)
      end
  | GetPluginData reqID =>
      (match pluginData w !! reqID with
       | Some m => inr m
       | None => inl notFound
       end, w)
  | UpdatePluginData reqID set expect =>
      let old := default ∅ (pluginData w !! reqID) in
      match expect with
      | Some e =>
          if decide (old = e)
          then (None, setPluginData w (<[reqID := set ∪ old]> (pluginData w)))
          else (Some compareFailed, w)
      | None =>
          (None, setPluginData w (<[reqID := set ∪ old]> (pluginData w)))
      end
  | ListExtensionSchemas o =>
      let '(l, more) := page (schemas w) o in
      (inr {|
         ListExtensionSchemaResponse.List_ := {|
           APIListObject.Limit := APIListObject.Limit o;
           APIListObject.Offset := APIListObject.Offset o;
           APIListObject.More := more |};
         ListExtensionSchemaResponse.ExtensionSchemas := l |}, w)
  | ListExtensions o =>
      let '(l, more) :=
        page (filter (λ x, listed (ListExtensionOptions.ExtensionObjectID o)
                            (ListExtensionOptions.ExtensionSchemaID o) x)
                (extensions w))
          (ListExtensionOptions.List_ o) in
      (inr {|
         ListExtensionResponse.List_ := {|
           APIListObject.Limit :=
             APIListObject.Limit (ListExtensionOptions.List_ o);
           APIListObject.Offset :=
             APIListObject.Offset (ListExtensionOptions.List_ o);
           APIListObject.More := more |};
         ListExtensionResponse.Extensions := l |}, w)
  | CreateExtension e =>
      let x := withID (freshID w) e in
      (inr x, setExtensions w (extensions w ++ [x]) (S (nextID w)))
  | UpdateExtension id e =>
      if existsb (hasID id) (extensions w)
      then (inr (withID id e),
            setExtensions w (replaceExt id e (extensions w)) (nextID w))
      else (inl notFound, w)
  | CreateIncident from o =>
      let i := {|
        Incident.Id := freshID w;
        Incident.IncidentKey := CreateIncidentOptions.IncidentKey o;
        Incident.Status := "triggered" |} in
      (inr i, setIncidents w (incidents w ++ [i]) (S (nextID w)))
  | CreateIncidentNote id note =>
      if existsb (λ i, bool_decide (Incident.Id i = id)) (incidents w)
      then (None, setNotes w (notes w ++ [(id, note)]))
      else (Some notFound, w)
  | ManageIncidents from opts =>
      let l := manage opts (incidents w) in
      (inr l, setIncidents w l (nextID w))
  end.

Definition answer (c : Call) (w : World) : Resp c * World :=
  match outage w c with
  | Some e => (failure c e, w)
  | None => serve c w
  end.

Definition services : Services := {| world := World; reply := answer |}.

(** Plugin data as a map of four strings. *)
Definition encode (d : PluginData.t) : PluginDataMap :=
  {[ "incident_id" := PagerdutyData.ID (PluginData.PagerdutyData d);
     "user" := RequestData.User (PluginData.RequestData d);
     "roles" := strings_Join (RequestData.Roles (PluginData.RequestData d)) ",";
     "created" := pretty (RequestData.Created (PluginData.RequestData d)) ]}.

Definition decode (m : PluginDataMap) : PluginData.t := {|
  PluginData.RequestData := {|
    RequestData.User := default EmptyString (m !! "user");
    RequestData.Roles := strings_Split (default EmptyString (m !! "roles")) ",";
    RequestData.Created := 0 |};
  PluginData.PagerdutyData := {|
    PagerdutyData.ID := default EmptyString (m !! "incident_id") |} |}.

Definition externals : Externals := {|
  Time_Format := λ t layout, pretty t;
  EncodePluginData := encode;
  DecodePluginData := decode |}.

(** What the bot is shown of the extensions: those of the webhook schema
    on its service. *)
Definition visible (b : Bot.t) (schemaID : string) (l : list Extension.t)
    : list Extension.t :=
  filter (λ x, listed (Bot.serviceID b) schemaID x) l.

Definition listing (b : Bot.t) (schemaID : string) (w : World)
    : list Extension.t :=
  visible b schemaID (extensions w).

(** The second loop of [Bot.Setup] against the listing [F], as a
    function: the identifiers found, or [None] out of fuel. *)
Fixpoint scanPages (F : list Extension.t) (fuel : nat) (offset : Z)
    (more : bool) (ids : string * string) : option (string * string) :=
  if (bool_decide (ids.1 = EmptyString) || bool_decide (ids.2 = EmptyString))
     && more then
    match fuel with
    | O => None
    | S fuel =>
        let '(l, more) :=
          page F {| APIListObject.Offset := offset;
                    APIListObject.Limit := pdListLimit;
                    APIListObject.More := false |} in
        scanPages F fuel (uint_add offset pdListLimit) more
          (Bot.scanExtensions l ids)
    end
  else Some ids.

(** The first loop of [Bot.Setup] against the schemas [l], as a function
    in the same way. *)
Fixpoint schemaPages (l : list ExtensionSchema.t) (fuel : nat) (offset : Z)
    (more : bool) (webhookSchemaID : string) : option (result string) :=
  if bool_decide (webhookSchemaID = EmptyString) && more then
    match fuel with
    | O => None
    | S fuel =>
        let '(p, more) :=
          page l {| APIListObject.Offset := offset;
                    APIListObject.Limit := pdListLimit;
                    APIListObject.More := false |} in
        schemaPages l fuel (uint_add offset pdListLimit) more
          (Bot.scanSchemas p webhookSchemaID)
    end
  else Some (inr webhookSchemaID).



Definition noOutage : Call → option error := λ _, None.
End Ref.

(** ** Vocabulary of the statements *)

(** Whether the byte [c] occurs in [s]. *)
Fixpoint occurs (c : ascii) (s : string) : bool :=
  match s with
  | EmptyString => false
  | String c' rest => bool_decide (c' = c) || occurs c rest
  end.

(** An incident key of the shape "<prefix>/<id>": the fixed prefix, one
    slash, and an identifier without slash. *)
Definition well_formed_key (key reqID : string) : Prop :=
  occurs "/" reqID = false ∧ key = pdIncidentKeyPrefix +:+ "/" +:+ reqID.

(** The two calls of an incident resolution. *)
Definition noteCall (b : Bot.t) (pdData : PagerdutyData.t) (status : string)
    : Call :=
  CreateIncidentNote (PagerdutyData.ID pdData) {|
    IncidentNote.User := {|
      APIObject.ID := EmptyString;
      APIObject.Type_ := EmptyString;
      APIObject.Summary := Bot.from b |};
    IncidentNote.Content := "Access request has been " +:+ status |}.

Definition resolveCall (b : Bot.t) (pdData : PagerdutyData.t) : Call :=
  ManageIncidents (Bot.from b) [ {|
    ManageIncidentsOptions.ID := PagerdutyData.ID pdData;
    ManageIncidentsOptions.Type_ := "incident_reference";
    ManageIncidentsOptions.Status := "resolved" |} ].

Definition is_resolve (c : Call) : bool :=
  match c with ManageIncidents _ _ => true | _ => false end.

Definition is_create_incident (c : Call) : bool :=
  match c with CreateIncident _ _ => true | _ => false end.

(** The extension that [Bot.setupCustomAction] sends for an action. *)
Definition customAction (b : Bot.t) (schemaID actionName actionLabel : string)
    : Extension.t := {|
  Extension.ID := EmptyString;
  Extension.Name := actionLabel;
  Extension.EndpointURL := WebhookServer.ActionURL (Bot.server b) actionName;
  Extension.ExtensionSchema := {|
    APIObject.ID := schemaID;
    APIObject.Type_ := "extension_schema_reference";
    APIObject.Summary := EmptyString |};
  Extension.ExtensionObjects := [ {|
    APIObject.ID := Bot.serviceID b;
    APIObject.Type_ := "service_reference";
    APIObject.Summary := EmptyString |} ] |}.


Definition is_listing (c : Call) : bool :=
  match c with
  | ListExtensionSchemas _ | ListExtensions _ => true
  | _ => false
  end.

(** The call of [Bot.setupCustomAction] for the identifier found. *)
Definition upsertCall (id : string) (e : Extension.t) : Call :=
  if bool_decide (id = EmptyString) then CreateExtension e
  else UpdateExtension id e.




(** The parts of a run. *)
Definition outcome {A W} (r : A * W * list Step) : A := r.1.1.
Definition final {A W} (r : A * W * list Step) : W := r.1.2.
Definition trace {A W} (r : A * W * list Step) : list Step := r.2.

(** The run of a webhook action from the state transition on, after the
    two reads: the transition to [reqState], then the note of the
    resolution, then the resolve call, each made when the one before was
    answered without error.  The run ends on the first of them that
    fails, with its error, and succeeds when the resolve call is
    answered. *)
Definition transition_then_resolve (S : Services) (b : Bot.t)
    (reqID : string) (req : Request.t) (pdData : PagerdutyData.t)
    (w : world S) (r : option error * world S * list Step)
    (reqState : State) (resolution : string) : Prop :=
  let reads := [GetRequest reqID; GetPluginData reqID] in
  let transition := SetRequestState (Request.ID req) reqState in
  let note := noteCall b pdData resolution in
  let resolve := resolveCall b pdData in
  match reply S transition w with
  | (Some err, w3) =>
      calls (trace r) = reads ++ [transition] ∧
      outcome r = Some err ∧ final r = w3
  | (None, w3) =>
      match reply S note w3 with
      | (Some err, w4) =>
          calls (trace r) = reads ++ [transition; note] ∧
          outcome r = Some err ∧ final r = w4
      | (None, w4) =>
          calls (trace r) = reads ++ [transition; note; resolve] ∧
          outcome r = match (reply S resolve w4).1 with
                      | inl err => Some err
                      | inr _ => None
                      end ∧
          final r = (reply S resolve w4).2
      end
  end.


(** ** Sample inputs *)

Module Sample.
Definition server : WebhookServer.t :=
  {| WebhookServer.ActionURL := λ name, "https://bridge.example.com/" +:+ name |}.

Definition bot : Bot.t := {|
  Bot.apiEndpoint := EmptyString;
  Bot.apiKey := "key";
  Bot.server := server;
  Bot.from := "bot@example.com";
  Bot.serviceID := "SVC1";
  Bot.clusterName := "cluster" |}.

Definition app : App.t := {| App.bot := bot |}.

Definition unavailable : error := Error KindOther "service unavailable" [].

Definition incident1 : Incident.t := {|
  Incident.Id := "INC1";
  Incident.IncidentKey := "teleport-access-request/R1";
  Incident.Status := "triggered" |}.

Definition request1 (s : State) : Request.t := {|
  Request.ID := "R1"; Request.User := "alice"; Request.Roles := ["admin"];
  Request.Created := 1600000000; Request.State := s |}.

Definition pluginData1 : PluginData.t := {|
  PluginData.RequestData := {|
    RequestData.User := "alice"; RequestData.Roles := ["admin"];
    RequestData.Created := 1600000000 |};
  PluginData.PagerdutyData := {| PagerdutyData.ID := "INC1" |} |}.

(** Request R1 in state [s], with its incident INC1 on record. *)
Definition world1 (s : State) : Ref.World := {|
  Ref.requests := {[ "R1" := request1 s ]};
  Ref.pluginData := {[ "R1" := Ref.encode pluginData1 ]};
  Ref.schemas := [];
  Ref.extensions := [];
  Ref.incidents := [incident1];
  Ref.notes := [];
  Ref.nextID := 0;
  Ref.outage := Ref.noOutage |}.

(** The same, with the note endpoint of the incident service down. *)
Definition world1_noteDown : Ref.World := {|
  Ref.requests := {[ "R1" := request1 StatePending ]};
  Ref.pluginData := {[ "R1" := Ref.encode pluginData1 ]};
  Ref.schemas := [];
  Ref.extensions := [];
  Ref.incidents := [incident1];
  Ref.notes := [];
  Ref.nextID := 0;
  Ref.outage := λ c,
    match c with CreateIncidentNote _ _ => Some unavailable | _ => None end |}.

(** Request R1, pending, with no plugin data on record. *)
Definition world1_noData : Ref.World := {|
  Ref.requests := {[ "R1" := request1 StatePending ]};
  Ref.pluginData := ∅;
  Ref.schemas := [];
  Ref.extensions := [];
  Ref.incidents := [];
  Ref.notes := [];
  Ref.nextID := 0;
  Ref.outage := Ref.noOutage |}.

Definition action1 (name : string) : WebhookAction.t := {|
  WebhookAction.HTTPRequestID := "http-1";
  WebhookAction.MessageID := "msg-1";
  WebhookAction.Event := "incident.custom";
  WebhookAction.Name := name;
  WebhookAction.IncidentID := "INC1";
  WebhookAction.IncidentKey := "teleport-access-request/R1" |}.
(** The same action, carrying the ID of another incident. *)
Definition action1_INC2 : WebhookAction.t := {|
  WebhookAction.HTTPRequestID := "http-1";
  WebhookAction.MessageID := "msg-1";
  WebhookAction.Event := "incident.custom";
  WebhookAction.Name := "approve";
  WebhookAction.IncidentID := "INC2";
  WebhookAction.IncidentKey := "teleport-access-request/R1" |}.

Definition put (req : Request.t) : Event.t :=
  {| Event.Type_ := OpPut; Event.Request := req |}.

(** A deletion event carries the ID of the request and nothing else. *)
Definition deleted (reqID : string) : Event.t := {|
  Event.Type_ := OpDelete;
  Event.Request := {|
    Request.ID := reqID; Request.User := EmptyString; Request.Roles := [];
    Request.Created := 0; Request.State := StateNone |} |}.
(** A service with the webhook schema SCH1 and, on the service SVC1, one
    extension labelled "Approve Request" left by an earlier set-up that
    pointed elsewhere. *)
Definition approveOld : Extension.t := {|
  Extension.ID := "EXT1";
  Extension.Name := "Approve Request";
  Extension.EndpointURL := "https://old.example.com/approve";
  Extension.ExtensionSchema := {|
    APIObject.ID := "SCH1";
    APIObject.Type_ := "extension_schema_reference";
    APIObject.Summary := EmptyString |};
  Extension.ExtensionObjects := [ {|
    APIObject.ID := "SVC1";
    APIObject.Type_ := "service_reference";
    APIObject.Summary := EmptyString |} ] |}.

Definition worldP : Ref.World := {|
  Ref.requests := ∅;
  Ref.pluginData := ∅;
  Ref.schemas := [ {| ExtensionSchema.ID := "SCH0";
                      ExtensionSchema.Key := "generic_v2_webhook" |};
                   {| ExtensionSchema.ID := "SCH1";
                      ExtensionSchema.Key := "custom_webhook" |} ];
  Ref.extensions := [approveOld];
  Ref.incidents := [];
  Ref.notes := [];
  Ref.nextID := 0;
  Ref.outage := Ref.noOutage |}.
End Sample.

(** ** Vocabulary of the statements on failures *)

(** The error of an answer: [None] for an answer without error. *)
Definition verdict {c : Call} : Resp c → option error :=
  match c return Resp c → option error with
  | GetRequest _ => λ r, match r with inl e => Some e | inr _ => None end
  | SetRequestState _ _ => λ r, r
  | GetPluginData _ => λ r, match r with inl e => Some e | inr _ => None end
  | UpdatePluginData _ _ _ => λ r, r
  | ListExtensionSchemas _ =>
      λ r, match r with inl e => Some e | inr _ => None end
  | ListExtensions _ => λ r, match r with inl e => Some e | inr _ => None end
  | CreateExtension _ => λ r, match r with inl e => Some e | inr _ => None end
  | UpdateExtension _ _ =>
      λ r, match r with inl e => Some e | inr _ => None end
  | CreateIncident _ _ =>
      λ r, match r with inl e => Some e | inr _ => None end
  | CreateIncidentNote _ _ => λ r, r
  | ManageIncidents _ _ =>
      λ r, match r with inl e => Some e | inr _ => None end
  end.

(** The errors of the answers of a trace, call by call. *)
Definition verdicts (tr : list Step) : list (option error) :=
  omap (λ s, match s with
             | Called c r => Some (verdict r)
             | Logged _ => None
             end) tr.

(** Every call but the last was answered without error, and the last
    with [err]. *)
Definition stopped_at (err : error) (tr : list Step) : Prop :=
  ∃ n : nat, verdicts tr = replicate n None ++ [Some err].

(** No call was answered with an error. *)
Definition unfailed (tr : list Step) : Prop :=
  ∃ n : nat, verdicts tr = replicate n None.

(** The two lines that the watcher handler logs for a request that it
    failed to process. *)
Definition failureLines (reqID : string) (err : error) (what : string)
    : list Step :=
  [Logged {| log_fields := [("request_id", FString reqID);
                            ("error", FError err)];
             log_level := ErrorLevel; log_format := what; log_args := [] |};
   Logged {| log_fields := [("request_id", FString reqID);
                            ("error", FError err)];
             log_level := DebugLevel; log_format := "%v";
             log_args := [FDebugReport err] |}].

(** The incident that [Bot.CreateIncident] asks for, and its call. *)
Definition incidentOptions `{!Externals} (b : Bot.t) (req : Request.t)
    : CreateIncidentOptions.t := {|
  CreateIncidentOptions.Title :=
    "Access request from " +:+ Request.User req;
  CreateIncidentOptions.IncidentKey :=
    pdIncidentKeyPrefix +:+ "/" +:+ Request.ID req;
  CreateIncidentOptions.Service := {|
    APIReference.Type_ := "service_reference";
    APIReference.ID := Bot.serviceID b |};
  CreateIncidentOptions.Body := {|
    APIDetails.Type_ := "incident_body";
    APIDetails.Details :=
      Request.User req
      +:+ " requested permissions for roles "
      +:+ strings_Join (Request.Roles req) ", "
      +:+ " on Teleport at "
      +:+ Time_Format (Request.Created req) time_RFC822
      +:+ ". To approve or deny the request, please use Special Actions on this incident."
      +:+ String "010" EmptyString |} |}.

Definition incidentCall `{!Externals} (b : Bot.t) (req : Request.t) : Call :=
  CreateIncident (Bot.from b) (incidentOptions b req).

(** The plugin data that [App.onPendingRequest] stores for a request and
    its incident. *)
Definition pluginDataOf (req : Request.t) (incident : Incident.t)
    : PluginData.t := {|
  PluginData.RequestData := {|
    RequestData.User := Request.User req;
    RequestData.Roles := Request.Roles req;
    RequestData.Created := Request.Created req |};
  PluginData.PagerdutyData := {| PagerdutyData.ID := Incident.Id incident |} |}.

(** The offset of the page [i] of a listing, and the listing calls of
    [Bot.Setup] for an offset. *)
Definition pageOffset (i : nat) : Z := (pdListLimit * Z.of_nat i) mod 2 ^ 64.

Definition schemaPage (offset : Z) : Call :=
  ListExtensionSchemas {|
    APIListObject.Offset := offset;
    APIListObject.Limit := pdListLimit;
    APIListObject.More := false |}.

Definition extensionPage (b : Bot.t) (schemaID : string) (offset : Z)
    : Call :=
  ListExtensions {|
    ListExtensionOptions.List_ := {|
      APIListObject.Offset := offset;
      APIListObject.Limit := pdListLimit;
      APIListObject.More := false |};
    ListExtensionOptions.ExtensionObjectID := Bot.serviceID b;
    ListExtensionOptions.ExtensionSchemaID := schemaID |}.

(** The error of [Bot.Setup] for a service without the schema of custom
    incident actions. *)
Definition schemaMissing : error :=
  trace_NotFound
    ("failed to find " +:+ String "034" "Custom Incident Action"
     +:+ String "034" " extension type").

(** What a loop of the provisioning leaves behind: its result, or the
    error that stopped it, after calls that were all answered. *)
Definition loop_verdict {A} (found : option (result A)) (tr : list Step)
    : Prop :=
  match found with
  | Some (inl err) => stopped_at err tr
  | _ => unfailed tr
  end.

(** ** Sample faults *)

Module Faults.
(** The world [w] with the calls that [down] picks answered with
    [Sample.unavailable]. *)
Definition without (down : Call → bool) (w : Ref.World) : Ref.World := {|
  Ref.requests := Ref.requests w;
  Ref.pluginData := Ref.pluginData w;
  Ref.schemas := Ref.schemas w;
  Ref.extensions := Ref.extensions w;
  Ref.incidents := Ref.incidents w;
  Ref.notes := Ref.notes w;
  Ref.nextID := Ref.nextID w;
  Ref.outage := λ c, if down c then Some Sample.unavailable else None |}.

Definition is_get_request (c : Call) : bool :=
  match c with GetRequest _ => true | _ => false end.
Definition is_get_plugin_data (c : Call) : bool :=
  match c with GetPluginData _ => true | _ => false end.
Definition is_update_plugin_data (c : Call) : bool :=
  match c with UpdatePluginData _ _ _ => true | _ => false end.

(** A request whose ID holds a slash, and the callback of its
    incident. *)
Definition request_slash : Request.t := {|
  Request.ID := "team/R7"; Request.User := "bob"; Request.Roles := ["dev"];
  Request.Created := 1600000000; Request.State := StatePending |}.

Definition action_slash : WebhookAction.t := {|
  WebhookAction.HTTPRequestID := "http-2";
  WebhookAction.MessageID := "msg-2";
  WebhookAction.Event := "incident.custom";
  WebhookAction.Name := "approve";
  WebhookAction.IncidentID := "P0";
  WebhookAction.IncidentKey := "teleport-access-request/team/R7" |}.

(** A service whose schema listing never ends: every page is empty and
    announces more.  All its other calls are answered with an error. *)
Definition endless : Services := {|
  world := unit;
  reply := λ c w,
    (match c return Resp c with
     | ListExtensionSchemas o =>
         inr {| ListExtensionSchemaResponse.List_ := {|
                  APIListObject.Limit := APIListObject.Limit o;
                  APIListObject.Offset := APIListObject.Offset o;
                  APIListObject.More := true |};
                ListExtensionSchemaResponse.ExtensionSchemas := [] |}
     | c => Ref.failure c Sample.unavailable
     end, w) |}.
End Faults.

(** ** The start of the application *)

(** The configuration is declared in a file of the package that is not
    shown; these are the fields that [App.run] and [NewBot] read.  The
    HTTP part is handed to the webhook server as it is. *)
Module PagerdutyConfig.
Record t := mk {
  APIEndpoint : string;
  APIKey : string;
  UserEmail : string;
  ServiceID : string;
}.
End PagerdutyConfig.

Module TeleportConfig.
Record t := mk {
  AuthServer : string;
  ClientKey : string;
  ClientCrt : string;
  RootCAs : string;
}.
End TeleportConfig.

Module Config.
Record t := mk {
  Teleport : TeleportConfig.t;
  Pagerduty : PagerdutyConfig.t;
}.
End Config.

(** [access.Pong], as far as the version check reads it. *)
Module Pong.
Record t := mk {
  ServerVersion : string;
  ClusterName : string;
}.
End Pong.

Module Startup.
(** A [*tls.Config] is passed on and never looked into; it is kept as a
    name. *)
Definition TLSConfig := string.

(** The two jobs of the main job; the watcher job is made for a
    filter. *)
Inductive Job := HTTPJob | WatcherJob (filter : State).

(** What [App.run] asks of the process around it, one constructor per
    function or method outside the package, and the calls of the bot. *)
Inductive Op :=
  | NewWebhookServer
  | LoadTLSConfig (clientCrt clientKey rootCAs : string)
  | NewClient (name authServer : string) (tlsConf : TLSConfig)
  | Ping
  | GetService (serviceID : string)
  | EnsureCert
  | SpawnCriticalJob (j : Job)
  | WaitReady (j : Job)
  | SetReady (ready : bool)
  | Done (j : Job)
  | Err (j : Job)
  | Remote (c : Call).

Definition Ans (o : Op) : Type :=
  match o with
  | NewWebhookServer => result WebhookServer.t
  | LoadTLSConfig _ _ _ => (TLSConfig * option error)%type
  | NewClient _ _ _ => option error
  | Ping => result Pong.t
  | GetService _ => option error
  | EnsureCert => option error
  | SpawnCriticalJob _ => unit
  | WaitReady _ => result bool
  | SetReady _ => unit
  | Done _ => unit
  | Err _ => option error
  | Remote c => Resp c
  end.

Inductive Boot (A : Type) : Type :=
  | Return (a : A)
  | Perform (o : Op) (k : Ans o → Boot A)
  | Say (l : LogEntry) (k : Boot A).
Arguments Return {A} a.
Arguments Perform {A} o k.
Arguments Say {A} l k.

Fixpoint Boot_bind {A B} (f : A → Boot B) (p : Boot A) : Boot B :=
  match p with
  | Return a => f a
  | Perform o k => Perform o (λ r, Boot_bind f (k r))
  | Say l k => Say l (Boot_bind f k)
  end.

Global Instance Boot_mret : MRet Boot := @Return.
Global Instance Boot_mbind : MBind Boot := @Boot_bind.

Definition perform (o : Op) : Boot (Ans o) := Perform o Return.
Definition say (l : LogEntry) : Boot unit := Say l (Return tt).

(** A method of the bot or of the handlers, run from [App.run]. *)
Fixpoint lift {A} (p : Prog A) : Boot A :=
  match p with
  | Ret a => Return a
  | Do c k => Perform (Remote c) (λ r, lift (k r))
  | Emit l k => Say l (lift k)
  end.

Inductive Event :=
  | Performed (o : Op) (r : Ans o)
  | Said (l : LogEntry).

Definition ops (tr : list Event) : list Op :=
  omap (λ e, match e with Performed o _ => Some o | Said _ => None end) tr.

Definition lines (tr : list Event) : list LogEntry :=
  omap (λ e, match e with Performed _ _ => None | Said l => Some l end) tr.

(** The process around the application: its state and its answers. *)
Record Host := {
  state : Type;
  answer : ∀ o : Op, state → Ans o * state;
}.

Fixpoint exec (H : Host) {A} (p : Boot A) (s : state H)
  : A * state H * list Event :=
  match p with
  | Return a => (a, s, [])
  | Perform o k =>
      let '(r, s1) := answer H o s in
      let '(a, s2, tr) := exec H (k r) s1 in
      (a, s2, Performed o r :: tr)
  | Say l k =>
      let '(a, s1, tr) := exec H k s in
      (a, s1, Said l :: tr)
  end.

(** The parts of a run. *)
Definition returned {A W} (r : A * W * list Event) : A := r.1.1.
Definition left {A W} (r : A * W * list Event) : W := r.1.2.
Definition events {A W} (r : A * W * list Event) : list Event := r.2.

(** A step of a method of the bot, seen from [App.run]. *)
Definition lifted (s : Step) : Event :=
  match s with
  | Called c r => Performed (Remote c) r
  | Logged l => Said l
  end.

(** The services that a host answers the calls of the bot with. *)
Definition services (H : Host) : Services := {|
  world := state H;
  reply := λ c, answer H (Remote c) |}.

(** What the start reads from outside the two files: the two version
    strings of the build, the least server version and the version
    assertion of package access, the test
    [trace.Unwrap(err) == access.ErrInvalidCertificate], [trace.Wrap]
    with a message, and the error that [trace.NewAggregate] makes of
    the errors that are not nil. *)
Class Environment := {
  Version : string;
  Gitref : string;
  MinServerVersion : string;
  AssertServerVersion : Pong.t → option error;
  IsInvalidCertificate : error → bool;
  trace_WrapMessage : error → string → list FieldValue → error;
  Aggregate : list error → error;
}.

Definition trace_IsNotImplemented (e : error) : bool :=
  match err_kind e with KindNotImplemented => true | _ => false end.

(** [trace.NewAggregate]: [nil] when every error is. *)
Definition trace_NewAggregate `{!Environment} (errs : list (option error))
    : option error :=
  match omap id errs with
  | [] => None
  | nonNils => Some (Aggregate nonNils)
  end.

Definition plain (level : Level) (msg : string) : LogEntry :=
  {| log_fields := []; log_level := level; log_format := msg;
     log_args := [] |}.

Definition withError (err : error) (level : Level) (msg : string)
    : LogEntry :=
  {| log_fields := [("error", FError err)]; log_level := level;
     log_format := msg; log_args := [] |}.

Definition NewBot (conf : PagerdutyConfig.t) (server : WebhookServer.t)
    : Bot.t := {|
  Bot.server := server;
  Bot.apiEndpoint := PagerdutyConfig.APIEndpoint conf;
  Bot.apiKey := PagerdutyConfig.APIKey conf;
  Bot.from := PagerdutyConfig.UserEmail conf;
  Bot.serviceID := PagerdutyConfig.ServiceID conf;
  Bot.clusterName := EmptyString |}.

Definition setClusterName (b : Bot.t) (name : string) : Bot.t := {|
  Bot.server := Bot.server b;
  Bot.apiEndpoint := Bot.apiEndpoint b;
  Bot.apiKey := Bot.apiKey b;
  Bot.from := Bot.from b;
  Bot.serviceID := Bot.serviceID b;
  Bot.clusterName := name |}.

Definition HealthCheck `{!Environment} (b : Bot.t) : Boot (option error) :=
  err ← perform (GetService (Bot.serviceID b));
  match err with
  | Some err =>
      mret (Some (trace_WrapMessage err
                    "failed to fetch pagerduty service info: %v"
                    [FError err]))
  | None => mret None
  end.

(** [App.checkTeleportVersion]; the bot comes back with the cluster name
    that the method assigns to it. *)
Definition checkTeleportVersion `{!Environment} (b : Bot.t)
    : Boot (Bot.t * option error) :=
  say (plain DebugLevel "Checking Teleport server version");;
  pong ← perform Ping;
  match pong with
  | inl err =>
      if trace_IsNotImplemented err then
        mret (b, Some (trace_WrapMessage err
                         "server version must be at least %s"
                         [FString MinServerVersion]))
      else
        say (plain ErrorLevel "Unable to get Teleport server version");;
        mret (b, Some (trace_Wrap err))
  | inr pong =>
      let b := setClusterName b (Pong.ClusterName pong) in
      mret (b, trace_Wrap <$> AssertServerVersion pong)
  end.

(** The result of [App.run]: the bot of the application, once it is
    made, and the error. *)
Definition Exit : Type := option Bot.t * option error.

(** [App.run], from the client on. *)
Definition serve `{!Environment} (conf : Config.t) (fuel : nat)
    (bot : Bot.t) (tlsConf : TLSConfig) : Boot (option Exit) :=
  err ← perform (NewClient "pagerduty"
                   (TeleportConfig.AuthServer (Config.Teleport conf))
                   tlsConf);
  match err with
  | Some err => mret (Some (Some bot, Some err))
  | None =>
  checked ← checkTeleportVersion bot;
  let '(bot, err) := checked in
  match err with
  | Some err => mret (Some (Some bot, Some err))
  | None =>
  say (plain DebugLevel "Starting PagerDuty API health check...");;
  err ← HealthCheck bot;
  match err with
  | Some err =>
      say (withError err ErrorLevel "PagerDuty API health check failed");;
      mret (Some (Some bot, Some err))
  | None =>
  say (plain DebugLevel "PagerDuty API health check finished ok");;
  err ← perform EnsureCert;
  match err with
  | Some err => mret (Some (Some bot, Some err))
  | None =>
  perform (SpawnCriticalJob HTTPJob);;
  httpOk ← perform (WaitReady HTTPJob);
  match httpOk with
  | inl err => mret (Some (Some bot, Some err))
  | inr httpOk =>
  say (plain DebugLevel "Setting up the webhook extensions");;
  err ← lift (Bot.Setup bot fuel);
  match err with
  | None => mret None
  | Some (Some err) =>
      say (withError err ErrorLevel "Failed to set up webhook extensions");;
      mret (Some (Some bot, Some err))
  | Some None =>
  say (plain DebugLevel "PagerDuty webhook extensions setup finished ok");;
  perform (SpawnCriticalJob (WatcherJob StatePending));;
  watcherOk ← perform (WaitReady (WatcherJob StatePending));
  match watcherOk with
  | inl err => mret (Some (Some bot, Some err))
  | inr watcherOk =>
  perform (SetReady (httpOk && watcherOk));;
  perform (Done HTTPJob);;
  perform (Done (WatcherJob StatePending));;
  httpErr ← perform (Err HTTPJob);
  watcherErr ← perform (Err (WatcherJob StatePending));
  mret (Some (Some bot, trace_NewAggregate [httpErr; watcherErr]))
  end
  end
  end
  end
  end
  end
  end.

(** [App.run]; [None] when the provisioning wants more than [fuel]
    pages. *)
Definition run `{!Environment} (conf : Config.t) (fuel : nat)
    : Boot (option Exit) :=
  say {| log_fields := []; log_level := InfoLevel;
         log_format := "Starting Teleport Access PagerDuty extension %s:%s";
         log_args := [FString Version; FString Gitref] |};;
  webhookSrv ← perform NewWebhookServer;
  match webhookSrv with
  | inl err => mret (Some (None, Some err))
  | inr webhookSrv =>
  let bot := NewBot (Config.Pagerduty conf) webhookSrv in
  loaded ← perform (LoadTLSConfig
                      (TeleportConfig.ClientCrt (Config.Teleport conf))
                      (TeleportConfig.ClientKey (Config.Teleport conf))
                      (TeleportConfig.RootCAs (Config.Teleport conf)));
  let '(tlsConf, err) := loaded in
  match err with
  | Some err =>
      if IsInvalidCertificate err then
        say (withError err WarnLevel "Auth client TLS configuration error");;
        serve conf fuel bot tlsConf
      else mret (Some (Some bot, Some err))
  | None => serve conf fuel bot tlsConf
  end
  end.
End Startup.
(** The operations of [App.run] from the client on, when every one of
    them is reached. *)
Definition serveOps (conf : Config.t) (tlsConf : Startup.TLSConfig)
    (cs : list Call) (ready : bool) : list Startup.Op :=
  [Startup.NewClient "pagerduty"
     (TeleportConfig.AuthServer (Config.Teleport conf)) tlsConf;
   Startup.Ping;
   Startup.GetService (PagerdutyConfig.ServiceID (Config.Pagerduty conf));
   Startup.EnsureCert;
   Startup.SpawnCriticalJob Startup.HTTPJob;
   Startup.WaitReady Startup.HTTPJob]
  ++ (Startup.Remote <$> cs)
  ++ [Startup.SpawnCriticalJob (Startup.WatcherJob StatePending);
      Startup.WaitReady (Startup.WatcherJob StatePending);
      Startup.SetReady ready;
      Startup.Done Startup.HTTPJob;
      Startup.Done (Startup.WatcherJob StatePending);
      Startup.Err Startup.HTTPJob;
      Startup.Err (Startup.WatcherJob StatePending)].

(** The operations of [App.run], when every one of them is reached. *)
Definition runOps (conf : Config.t) (tlsConf : Startup.TLSConfig)
    (cs : list Call) (ready : bool) : list Startup.Op :=
  Startup.NewWebhookServer
  :: Startup.LoadTLSConfig
       (TeleportConfig.ClientCrt (Config.Teleport conf))
       (TeleportConfig.ClientKey (Config.Teleport conf))
       (TeleportConfig.RootCAs (Config.Teleport conf))
  :: serveOps conf tlsConf cs ready.

(** What a run of [App.run] has left behind when it gets to the client:
    the first line, the two operations with their answers, and the
    warning for a certificate that is not valid. *)
Definition runHead `{!Startup.Environment} (conf : Config.t)
    (srv : WebhookServer.t) (tlsConf : Startup.TLSConfig)
    (loadErr : option error) : list Startup.Event :=
  [Startup.Said
     {| log_fields := []; log_level := InfoLevel;
        log_format := "Starting Teleport Access PagerDuty extension %s:%s";
        log_args := [FString Startup.Version; FString Startup.Gitref] |};
   Startup.Performed Startup.NewWebhookServer (inr srv);
   Startup.Performed
     (Startup.LoadTLSConfig
        (TeleportConfig.ClientCrt (Config.Teleport conf))
        (TeleportConfig.ClientKey (Config.Teleport conf))
        (TeleportConfig.RootCAs (Config.Teleport conf)))
     (tlsConf, loadErr)]
  ++ match loadErr with
     | Some err =>
         [Startup.Said
            (Startup.withError err WarnLevel
               "Auth client TLS configuration error")]
     | None => []
     end.

(** The operations of [App.run] up to the ping. *)
Definition pingOps (conf : Config.t) (tlsConf : Startup.TLSConfig)
    : list Startup.Op :=
  [Startup.NewWebhookServer;
   Startup.LoadTLSConfig
     (TeleportConfig.ClientCrt (Config.Teleport conf))
     (TeleportConfig.ClientKey (Config.Teleport conf))
     (TeleportConfig.RootCAs (Config.Teleport conf));
   Startup.NewClient "pagerduty"
     (TeleportConfig.AuthServer (Config.Teleport conf)) tlsConf;
   Startup.Ping].

(** The answer of a step, when the step is the ping or the health
    check. *)
Definition pingAnswer (e : Startup.Event) : option (result Pong.t) :=
  match e with
  | Startup.Performed o r =>
      match o return Startup.Ans o → option (result Pong.t) with
      | Startup.Ping => λ r, Some r
      | _ => λ _, None
      end r
  | Startup.Said _ => None
  end.

Definition serviceAnswer (e : Startup.Event) : option (option error) :=
  match e with
  | Startup.Performed o r =>
      match o return Startup.Ans o → option (option error) with
      | Startup.GetService _ => λ r, Some r
      | _ => λ _, None
      end r
  | Startup.Said _ => None
  end.

(** ** A sample process *)

Module Machine.
(** What the process around the application answers: to the load of the
    TLS configuration, to the ping, to the health check, to the waits
    for the two jobs, and with which errors the jobs end. *)
Record Knobs := mk {
  loaded : option error;
  pong : result Pong.t;
  service : option error;
  httpReady : result bool;
  watcherReady : result bool;
  httpErr : option error;
  watcherErr : option error;
}.

(** The calls of the bot are answered by the reference services. *)
Definition host (k : Knobs) : Startup.Host := {|
  Startup.state := Ref.World;
  Startup.answer := λ o w,
    match o return Startup.Ans o * Ref.World with
    | Startup.NewWebhookServer => (inr Sample.server, w)
    | Startup.LoadTLSConfig _ _ _ => (("tls-1", loaded k), w)
    | Startup.NewClient _ _ _ => (None, w)
    | Startup.Ping => (pong k, w)
    | Startup.GetService _ => (service k, w)
    | Startup.EnsureCert => (None, w)
    | Startup.SpawnCriticalJob _ => (tt, w)
    | Startup.WaitReady Startup.HTTPJob => (httpReady k, w)
    | Startup.WaitReady (Startup.WatcherJob _) => (watcherReady k, w)
    | Startup.SetReady _ => (tt, w)
    | Startup.Done _ => (tt, w)
    | Startup.Err Startup.HTTPJob => (httpErr k, w)
    | Startup.Err (Startup.WatcherJob _) => (watcherErr k, w)
    | Startup.Remote c => Ref.answer c w
    end |}.

Definition invalidCertificate : error :=
  Error KindOther "invalid certificate" [].
Definition tooOld : error := Error KindOther "server version too old" [].
Definition notImplemented : error :=
  Error KindNotImplemented "not implemented" [].

Definition environment : Startup.Environment := {|
  Startup.Version := "1.0.0";
  Startup.Gitref := "abcdef";
  Startup.MinServerVersion := "4.3.0";
  Startup.AssertServerVersion := λ p,
    if bool_decide (Pong.ServerVersion p = "4.3.0") then None
    else Some tooOld;
  Startup.IsInvalidCertificate := λ e,
    bool_decide (err_format e = "invalid certificate");
  Startup.trace_WrapMessage := λ e fmt args,
    Error (err_kind e) fmt [AString (err_format e)];
  Startup.Aggregate := λ errs,
    Error KindOther "aggregate" (AString ∘ err_format <$> errs) |}.

Definition conf : Config.t := {|
  Config.Teleport := {|
    TeleportConfig.AuthServer := "auth.example.com:3025";
    TeleportConfig.ClientKey := "auth.key";
    TeleportConfig.ClientCrt := "auth.crt";
    TeleportConfig.RootCAs := "auth.cas" |};
  Config.Pagerduty := {|
    PagerdutyConfig.APIEndpoint := EmptyString;
    PagerdutyConfig.APIKey := "key";
    PagerdutyConfig.UserEmail := "bot@example.com";
    PagerdutyConfig.ServiceID := "SVC1" |} |}.

Definition pong1 : Pong.t :=
  {| Pong.ServerVersion := "4.3.0"; Pong.ClusterName := "cluster" |}.

(** A process in which every step of the start succeeds. *)
Definition fine : Knobs := {|
  loaded := None; pong := inr pong1; service := None;
  httpReady := inr true; watcherReady := inr true;
  httpErr := None; watcherErr := None |}.
End Machine.

(** ** Client profiles (vendored lib/client/profile.go) *)

Module ClientProfile.
Record t := mk {
  WebProxyAddr : string;
  SSHProxyAddr : string;
  KubeProxyAddr : string;
  Username : string;
  AuthType : string;
  SiteName : string;
  ForwardedPorts : list string;
  DynamicForwardedPorts : list string;
}.
End ClientProfile.

Module ProfileLocation.
Record t := mk {
  AliasPath : string;
  Path : string;
  Options : Z;
}.
End ProfileLocation.

Module Profile.
(** The constant block: [ProfileCreateNew = 0] on the line where [iota]
    is 0, and [ProfileMakeCurrent = 1 << iota] on the line where it
    is 1. *)
Definition ProfileCreateNew : Z := 0.
Definition ProfileMakeCurrent : Z := Z.shiftl 1 1.

Definition CurrentProfileSymlink : string := "profile".

(** The contents of a file. *)
Definition bytes : Type := list Byte.byte.

(** The calls to the file system, with the arguments of the call. *)
Inductive Op :=
  | ReadFile (filename : string)
  | WriteFile (filename : string) (data : bytes) (perm : Z)
  | Remove (name : string)
  | Symlink (oldname newname : string).

Definition Ans (o : Op) : Type :=
  match o with
  | ReadFile _ => result bytes
  | WriteFile _ _ _ => option error
  | Remove _ => option error
  | Symlink _ _ => option error
  end.

Inductive Script (A : Type) : Type :=
  | Return (a : A)
  | Perform (o : Op) (k : Ans o → Script A)
  | Say (l : LogEntry) (k : Script A).
Arguments Return {A} a.
Arguments Perform {A} o k.
Arguments Say {A} l k.

Fixpoint Script_bind {A B} (f : A → Script B) (p : Script A) : Script B :=
  match p with
  | Return a => f a
  | Perform o k => Perform o (λ r, Script_bind f (k r))
  | Say l k => Say l (Script_bind f k)
  end.

Global Instance Script_mret : MRet Script := @Return.
Global Instance Script_mbind : MBind Script := @Script_bind.

Definition perform (o : Op) : Script (Ans o) := Perform o Return.
Definition say (l : LogEntry) : Script unit := Say l (Return tt).

Inductive Event :=
  | Performed (o : Op) (r : Ans o)
  | Said (l : LogEntry).

Definition ops (tr : list Event) : list Op :=
  omap (λ e, match e with Performed o _ => Some o | Said _ => None end) tr.

Definition lines (tr : list Event) : list LogEntry :=
  omap (λ e, match e with Performed _ _ => None | Said l => Some l end) tr.

(** A file system: its state and its answers. *)
Record Files := {
  state : Type;
  answer : ∀ o : Op, state → Ans o * state;
}.

Fixpoint exec (F : Files) {A} (p : Script A) (s : state F)
  : A * state F * list Event :=
  match p with
  | Return a => (a, s, [])
  | Perform o k =>
      let '(r, s1) := answer F o s in
      let '(a, s2, tr) := exec F (k r) s1 in
      (a, s2, Performed o r :: tr)
  | Say l k =>
      let '(a, s1, tr) := exec F k s in
      (a, s1, Said l :: tr)
  end.

Definition returned {A W} (r : A * W * list Event) : A := r.1.1.
Definition left {A W} (r : A * W * list Event) : W := r.1.2.
Definition events {A W} (r : A * W * list Event) : list Event := r.2.

(** The functions of other packages that the file calls: the YAML
    codec, three functions of path/filepath, [net.SplitHostPort], and
    what [FullProfilePath] reads of the process, the temporary
    directory and the home directory of the current user.  [ProfileDir]
    is a constant of another file of the package. *)
Class Library := {
  yaml_Marshal : ClientProfile.t → result bytes;
  yaml_Unmarshal : bytes → result (option ClientProfile.t);
  filepath_Base : string → string;
  filepath_Dir : string → string;
  filepath_Join : string → string → string;
  net_SplitHostPort : string → result (string * string);
  os_TempDir : string;
  user_Current : result string;
  ProfileDir : string;
}.

Definition warningf (format : string) (err : error) : LogEntry :=
  {| log_fields := []; log_level := WarnLevel; log_format := format;
     log_args := [FError err] |}.

Definition Name `{!Library} (c : ClientProfile.t) : string :=
  match net_SplitHostPort (ClientProfile.WebProxyAddr c) with
  | inl _ => ClientProfile.WebProxyAddr c
  | inr (addr, _) => addr
  end.

Definition FullProfilePath `{!Library} (pDir : string) : string :=
  if bool_decide (pDir ≠ EmptyString) then pDir
  else
    let home := match user_Current with
                | inr homeDir => homeDir
                | inl _ => os_TempDir
                end in
    filepath_Join home ProfileDir.

(** The profile that is read is a pointer: [None] is the [nil] that the
    decoder leaves for a document without content. *)
Definition ProfileFromFile `{!Library} (filePath : string)
    : Script (result (option ClientProfile.t)) :=
  read ← perform (ReadFile filePath);
  match read with
  | inl err => mret (inl (trace_Wrap err))
  | inr data =>
      match yaml_Unmarshal data with
      | inl err => mret (inl (trace_Wrap err))
      | inr cp => mret (inr cp)
      end
  end.

Definition ProfileFromDir `{!Library} (dirPath proxyName : string)
    : Script (result (option ClientProfile.t)) :=
  let profilePath :=
    if bool_decide (proxyName ≠ EmptyString)
    then filepath_Join dirPath (proxyName +:+ ".yaml")
    else filepath_Join dirPath CurrentProfileSymlink in
  ProfileFromFile profilePath.

(** [SaveTo]; the permission [0660] is octal. *)
Definition SaveTo `{!Library} (cp : ClientProfile.t)
    (loc : ProfileLocation.t) : Script (option error) :=
  match yaml_Marshal cp with
  | inl err => mret (Some (trace_Wrap err))
  | inr data =>
  err ← perform (WriteFile (ProfileLocation.Path loc) data
                   (6 * 64 + 6 * 8));
  match err with
  | Some err => mret (Some (trace_Wrap err))
  | None =>
  (if bool_decide (ProfileLocation.AliasPath loc ≠ EmptyString)
      && bool_decide (filepath_Base (ProfileLocation.AliasPath loc)
                      ≠ filepath_Base (ProfileLocation.Path loc))
   then
     removed ← perform (Remove (ProfileLocation.AliasPath loc));
     match removed with
     | Some err => say (warningf "Failed to remove symlink alias: %v" err)
     | None => mret tt
     end;;
     linked ← perform (Symlink (filepath_Base (ProfileLocation.Path loc))
                         (ProfileLocation.AliasPath loc));
     match linked with
     | Some err => say (warningf "Failed to create profile alias: %v" err)
     | None => mret tt
     end
   else mret tt);;
  if bool_decide (Z.land (ProfileLocation.Options loc) ProfileMakeCurrent
                  ≠ 0)
  then
    let symlink :=
      filepath_Join (filepath_Dir (ProfileLocation.Path loc))
        CurrentProfileSymlink in
    removed ← perform (Remove symlink);
    match removed with
    | Some err => say (warningf "Failed to remove symlink: %v" err)
    | None => mret tt
    end;;
    err ← perform (Symlink (filepath_Base (ProfileLocation.Path loc))
                     symlink);
    mret (trace_Wrap <$> err)
  else mret (trace_Wrap <$> None)
  end
  end.
End Profile.

(** The operations of [Profile.SaveTo] on the alias and on the link to
    the current profile. *)
Definition aliasOps `{!Profile.Library} (loc : ProfileLocation.t)
    : list Profile.Op :=
  if bool_decide (ProfileLocation.AliasPath loc ≠ EmptyString)
     && bool_decide (Profile.filepath_Base (ProfileLocation.AliasPath loc)
                     ≠ Profile.filepath_Base (ProfileLocation.Path loc))
  then [Profile.Remove (ProfileLocation.AliasPath loc);
        Profile.Symlink (Profile.filepath_Base (ProfileLocation.Path loc))
          (ProfileLocation.AliasPath loc)]
  else [].

Definition currentLink `{!Profile.Library} (loc : ProfileLocation.t)
    : string :=
  Profile.filepath_Join (Profile.filepath_Dir (ProfileLocation.Path loc))
    Profile.CurrentProfileSymlink.

(** What a read of [p] answers in a state of the file system. *)
Definition contents (F : Profile.Files) (p : string) (s : Profile.state F)
    : result Profile.bytes :=
  (Profile.answer F (Profile.ReadFile p) s).1.

(** ** A sample file system *)

Module Disk.
Inductive Node :=
  | File (data : Profile.bytes)
  | Link (target : string)
  | Folder.

Definition noEntry : error := Error KindNotFound "no such file" [].
Definition exists_ : error := Error KindOther "file exists" [].
Definition notEmpty : error := Error KindOther "directory not empty" [].

(** A flat file system: files, links and folders by their path.  A
    write replaces what is at the path; a removal needs an entry that
    is no folder, and a link a free path; a read gives the contents of
    a file. *)
Definition files : Profile.Files := {|
  Profile.state := gmap string Node;
  Profile.answer := λ o s,
    match o return Profile.Ans o * gmap string Node with
    | Profile.ReadFile p =>
        (match s !! p with
         | Some (File data) => inr data
         | _ => inl noEntry
         end, s)
    | Profile.WriteFile p data _ => (None, <[p := File data]> s)
    | Profile.Remove p =>
        match s !! p with
        | Some Folder => (Some notEmpty, s)
        | Some _ => (None, delete p s)
        | None => (Some noEntry, s)
        end
    | Profile.Symlink target p =>
        match s !! p with
        | Some _ => (Some exists_, s)
        | None => (None, <[p := Link target]> s)
        end
    end |}.

(** A library for paths with one slash and profiles that are their
    proxy address. *)
Definition base (p : string) : string :=
  match strings_Split p "/" with
  | [_; f] => f
  | _ => p
  end.
Definition dir (p : string) : string :=
  match strings_Split p "/" with
  | [d; _] => d
  | _ => "."
  end.

Fixpoint encode (s : string) : Profile.bytes :=
  match s with
  | EmptyString => []
  | String c rest => byte_of_ascii c :: encode rest
  end.
Fixpoint decode (b : Profile.bytes) : string :=
  match b with
  | [] => EmptyString
  | c :: rest => String (ascii_of_byte c) (decode rest)
  end.

Definition profileOf (addr : string) : ClientProfile.t := {|
  ClientProfile.WebProxyAddr := addr;
  ClientProfile.SSHProxyAddr := EmptyString;
  ClientProfile.KubeProxyAddr := EmptyString;
  ClientProfile.Username := EmptyString;
  ClientProfile.AuthType := EmptyString;
  ClientProfile.SiteName := EmptyString;
  ClientProfile.ForwardedPorts := [];
  ClientProfile.DynamicForwardedPorts := [] |}.

Definition library : Profile.Library := {|
  Profile.yaml_Marshal := λ cp, inr (encode (ClientProfile.WebProxyAddr cp));
  Profile.yaml_Unmarshal := λ b,
    inr (if bool_decide (b = []) then None else Some (profileOf (decode b)));
  Profile.filepath_Base := base;
  Profile.filepath_Dir := dir;
  Profile.filepath_Join := λ d f, d +:+ "/" +:+ f;
  Profile.net_SplitHostPort := λ s,
    match strings_Split s ":" with
    | [h; p] => inr (h, p)
    | _ => inl (Error KindOther "missing port in address" [])
    end;
  Profile.os_TempDir := "/tmp";
  Profile.user_Current := inr "/home/alice";
  Profile.ProfileDir := ".tsh" |}.

Definition staging : ClientProfile.t := profileOf "staging.example.com:3080".

(** Save as the current profile, with an alias. *)
Definition here (options : Z) : ProfileLocation.t := {|
  ProfileLocation.AliasPath := "tsh/alias.yaml";
  ProfileLocation.Path := "tsh/staging.yaml";
  ProfileLocation.Options := options |}.

(** A directory in which a folder is in the way of the alias. *)
Definition busy : gmap string Node :=
  {[ "tsh/alias.yaml" := Folder ]}.
End Disk.

(** * Properties *)

(** ** Running programs *)

Lemma run_bind S {A B} (p : Prog A) (f : A → Prog B) w :
  run S (p ≫= f) w =
    let '(a, w1, tr1) := run S p w in
    let '(b, w2, tr2) := run S (f a) w1 in
    (b, w2, tr1 ++ tr2).
Proof.
  revert w. induction p as [a | c k IH | l k IH]; intros w; simpl.
  - destruct (run S (f a) w) as [[b w2] tr2]. reflexivity.
  - destruct (reply S c w) as [r w1]. specialize (IH r w1).
    unfold mbind in IH. rewrite IH.
    destruct (run S (k r) w1) as [[a w2] tr1].
    destruct (run S (f a) w2) as [[b w3] tr2]. reflexivity.
  - specialize (IH w). unfold mbind in IH. rewrite IH.
    destruct (run S k w) as [[a w1] tr1].
    destruct (run S (f a) w1) as [[b w2] tr2]. reflexivity.
Qed.

Lemma calls_app tr1 tr2 : calls (tr1 ++ tr2) = calls tr1 ++ calls tr2.
Proof. unfold calls. apply omap_app. Qed.

(** ** Incident resolution *)

Lemma ResolveIncident_run S b reqID pdData status w :
  run S (Bot.ResolveIncident b reqID pdData status) w =
    match reply S (noteCall b pdData status) w with
    | (Some err, w1) =>
        (Some (trace_Wrap err), w1,
         [Called (noteCall b pdData status) (Some err)])
    | (None, w1) =>
        let '(r, w2) := reply S (resolveCall b pdData) w1 in
        (match r with inl err => Some (trace_Wrap err) | inr _ => None end,
         w2,
         [Called (noteCall b pdData status) None;
          Called (resolveCall b pdData) r])
    end.
Proof.
  unfold Bot.ResolveIncident. simpl. fold (noteCall b pdData status).
  destruct (reply S (noteCall b pdData status) w) as [[err|] w1]; simpl.
  - reflexivity.
  - fold (resolveCall b pdData).
    destruct (reply S (resolveCall b pdData) w1) as [[err|l] w2]; reflexivity.
Qed.

(** C1, as amended.  An incident resolution issues the note call first.
    When the note call fails, the resolution stops there: the error of
    the note is returned and no resolve call is issued.  When the note
    call succeeds, the resolve call is the one call that follows. *)
Theorem ResolveIncident_note_gates_resolve S b reqID pdData status w :
  ∃ rest,
    calls (trace (run S (Bot.ResolveIncident b reqID pdData status) w))
      = noteCall b pdData status :: rest ∧
    match (reply S (noteCall b pdData status) w).1 with
    | Some err =>
        rest = [] ∧
        outcome (run S (Bot.ResolveIncident b reqID pdData status) w)
          = Some (trace_Wrap err)
    | None => rest = [resolveCall b pdData]
    end.
Proof.
  rewrite ResolveIncident_run.
  destruct (reply S (noteCall b pdData status) w) as [[err|] w1]; simpl.
  - exists []. auto.
  - destruct (reply S (resolveCall b pdData) w1) as [r w2]. simpl.
    exists [resolveCall b pdData]. auto.
Qed.

(** C1, as stated, fails: with the note endpoint down, resolving the
    incident INC1 returns the error of the note call, and the note call
    is the only call made; no resolve call is attempted. *)
Lemma ResolveIncident_note_failure_drops_resolve :
  outcome (run Ref.services
             (Bot.ResolveIncident Sample.bot "R1"
                {| PagerdutyData.ID := "INC1" |} "approved")
             Sample.world1_noteDown)
    = Some Sample.unavailable ∧
  calls (trace (run Ref.services
                  (Bot.ResolveIncident Sample.bot "R1"
                     {| PagerdutyData.ID := "INC1" |} "approved")
                  Sample.world1_noteDown))
    = [noteCall Sample.bot {| PagerdutyData.ID := "INC1" |} "approved"] ∧
  existsb is_resolve
    (calls (trace (run Ref.services
                     (Bot.ResolveIncident Sample.bot "R1"
                        {| PagerdutyData.ID := "INC1" |} "approved")
                     Sample.world1_noteDown)))
    = false.
Proof. repeat split. Qed.

(** ** Splitting an incident key *)

Lemma Split_nonempty s sep : strings_Split s sep ≠ [].
Proof.
  destruct s as [|c s]; simpl; [discriminate|].
  destruct (decide (c = sep)); [discriminate|].
  destruct (strings_Split s sep); discriminate.
Qed.

Lemma Split_no_sep s sep : occurs sep s = false → strings_Split s sep = [s].
Proof.
  induction s as [|c s IH]; simpl; [reflexivity|].
  intros [Hc Hs]%orb_false_elim. apply bool_decide_eq_false in Hc.
  rewrite decide_False by assumption. rewrite IH by assumption. reflexivity.
Qed.

Lemma Split_app p q sep :
  occurs sep p = false →
  strings_Split (p +:+ String sep q) sep = p :: strings_Split q sep.
Proof.
  induction p as [|c p IH]; simpl.
  - intros _. rewrite decide_True by reflexivity. reflexivity.
  - intros [Hc Hp]%orb_false_elim. apply bool_decide_eq_false in Hc.
    rewrite decide_False by assumption. rewrite IH by assumption. reflexivity.
Qed.

Lemma Split_pieces s sep p :
  p ∈ strings_Split s sep → occurs sep p = false.
Proof.
  revert p. induction s as [|c s IH]; simpl; intros p Hp.
  - apply list_elem_of_singleton in Hp. subst p. reflexivity.
  - destruct (decide (c = sep)) as [->|Hc].
    + apply elem_of_cons in Hp as [->|Hp]; [reflexivity|]. apply IH, Hp.
    + destruct (strings_Split s sep) as [|piece pieces].
      * apply list_elem_of_singleton in Hp. subst p. simpl.
        rewrite bool_decide_eq_false_2 by assumption. reflexivity.
      * apply elem_of_cons in Hp as [->|Hp].
        -- simpl. rewrite bool_decide_eq_false_2 by assumption.
           apply IH. left.
        -- apply IH. right. exact Hp.
Qed.

Lemma Split_one s sep q :
  strings_Split s sep = [q] → s = q.
Proof.
  revert q. induction s as [|c s IH]; simpl; intros q.
  - intros [= <-]. reflexivity.
  - destruct (decide (c = sep)).
    + intros [= _ H]. destruct (Split_nonempty _ _ H).
    + destruct (strings_Split s sep) as [|piece pieces] eqn:E.
      * destruct (Split_nonempty _ _ E).
      * intros [= <- ->]. f_equal. apply IH. reflexivity.
Qed.

Lemma Split_two s sep p q :
  strings_Split s sep = [p; q] → s = p +:+ String sep q.
Proof.
  revert p. induction s as [|c s IH]; simpl; intros p; [discriminate|].
  destruct (decide (c = sep)) as [->|Hc].
  - intros [= <- Hq]. apply Split_one in Hq. subst q. reflexivity.
  - destruct (strings_Split s sep) as [|piece pieces] eqn:E; [discriminate|].
    intros [= <- ->]. rewrite (IH piece eq_refl). reflexivity.
Qed.

(** The key test of the webhook handler accepts exactly the keys of the
    shape "<prefix>/<id>". *)
Lemma Split_key key reqID :
  strings_Split key "/" = [pdIncidentKeyPrefix; reqID]
  ↔ well_formed_key key reqID.
Proof.
  split.
  - intros H. split.
    + apply (Split_pieces key "/"). rewrite H. right. left.
    + apply Split_two in H. exact H.
  - intros [Hid ->].
    change (pdIncidentKeyPrefix +:+ "/" +:+ reqID)
      with (pdIncidentKeyPrefix +:+ String "/" reqID).
    rewrite Split_app by reflexivity.
    rewrite Split_no_sep by assumption. reflexivity.
Qed.

(** ** The webhook action handler *)

(** Gets a run of the handler past the two tests of its first lines, for
    an action of the recognized event type with a well-formed key. *)
Ltac accept_action Hev Hkey :=
  unfold App.onPagerdutyAction;
  rewrite (bool_decide_eq_false_2 (_ ≠ "incident.custom")) by tauto;
  rewrite (proj2 (Split_key _ _) Hkey);
  rewrite (bool_decide_eq_false_2 (pdIncidentKeyPrefix ≠ pdIncidentKeyPrefix))
    by tauto.

Ltac run_step := cbn [mbind Prog_mbind Prog_bind call log run mret Prog_mret].

(** C2.  A webhook action whose request exists and is not Pending fails
    with an error, and the lookup of the request is all it did: the
    trace holds no state transition and no incident call, and the
    services are in the state in which the lookup left them. *)
Theorem onPagerdutyAction_not_pending `{!Externals} S a action reqID req
    (w w1 : world S) :
  WebhookAction.Event action = "incident.custom" →
  well_formed_key (WebhookAction.IncidentKey action) reqID →
  reply S (GetRequest reqID) w = (inr req, w1) →
  Request.State req ≠ StatePending →
  run S (App.onPagerdutyAction a action) w
    = (Some (trace_Errorf "cannot process not pending request: %+v"
               [ARequest req]),
       w1, [Called (GetRequest reqID) (inr req)]).
Proof.
  intros Hev Hkey Hget Hstate.
  accept_action Hev Hkey. run_step. rewrite Hget.
  rewrite bool_decide_eq_true_2 by assumption. reflexivity.
Qed.

Lemma onPagerdutyAction_not_pending_witness :
  run Ref.services
    (@App.onPagerdutyAction Ref.externals Sample.app (Sample.action1 "approve"))
    (Sample.world1 StateApproved)
  = (Some (trace_Errorf "cannot process not pending request: %+v"
             [ARequest (Sample.request1 StateApproved)]),
     Sample.world1 StateApproved,
     [Called (GetRequest "R1") (inr (Sample.request1 StateApproved))]).
Proof.
  apply (@onPagerdutyAction_not_pending Ref.externals Ref.services
           Sample.app (Sample.action1 "approve") "R1").
  - reflexivity.
  - split; reflexivity.
  - reflexivity.
  - discriminate.
Defined.

(** C5.  A callback of another event type, or with an incident key that
    is not of the shape "<prefix>/<id>", is a no-op: the handler returns
    success, the trace is one debug line, and no call reached a
    service. *)
Theorem onPagerdutyAction_noise `{!Externals} S a action (w : world S) :
  WebhookAction.Event action ≠ "incident.custom" ∨
  (¬ ∃ reqID, well_formed_key (WebhookAction.IncidentKey action) reqID) →
  ∃ l, log_level l = DebugLevel ∧
    run S (App.onPagerdutyAction a action) w = (None, w, [Logged l]).
Proof.
  intros Hnoise. unfold App.onPagerdutyAction.
  destruct (decide (WebhookAction.Event action = "incident.custom"))
    as [Hev|Hev].
  - destruct Hnoise as [Hne|Hkey]; [contradiction|].
    rewrite (bool_decide_eq_false_2 (_ ≠ "incident.custom")) by tauto.
    destruct (strings_Split (WebhookAction.IncidentKey action) "/")
      as [|k0 [|k1 [|k2 ks]]] eqn:Hsplit;
      try (eexists; split; [|reflexivity]; reflexivity).
    destruct (decide (k0 = pdIncidentKeyPrefix)) as [->|Hk0].
    + destruct Hkey. exists k1. apply Split_key. exact Hsplit.
    + rewrite bool_decide_eq_true_2 by assumption.
      eexists; split; [|reflexivity]; reflexivity.
  - rewrite bool_decide_eq_true_2 by assumption.
    eexists; split; [|reflexivity]; reflexivity.
Qed.

Lemma onPagerdutyAction_noise_witness :
  ∃ l, log_level l = DebugLevel ∧
    run Ref.services
      (@App.onPagerdutyAction Ref.externals Sample.app
         {| WebhookAction.HTTPRequestID := "http-1";
            WebhookAction.MessageID := "msg-1";
            WebhookAction.Event := "incident.custom";
            WebhookAction.Name := "approve";
            WebhookAction.IncidentID := "INC1";
            WebhookAction.IncidentKey := "teleport-access-request/R1/x" |})
      (Sample.world1 StatePending)
    = (None, Sample.world1 StatePending, [Logged l]).
Proof.
  apply (@onPagerdutyAction_noise Ref.externals Ref.services).
  right. intros [reqID Hkey]. apply Split_key in Hkey. discriminate Hkey.
Defined.

(** C7.  When the incident ID on record for the request differs from the
    one the callback carries, the handler fails with an error after the
    two lookups and a debug line: no state transition and no incident
    call is made. *)
Theorem onPagerdutyAction_incident_mismatch `{!Externals} S a action reqID
    req m (w w1 w2 : world S) :
  WebhookAction.Event action = "incident.custom" →
  well_formed_key (WebhookAction.IncidentKey action) reqID →
  reply S (GetRequest reqID) w = (inr req, w1) →
  Request.State req = StatePending →
  reply S (GetPluginData reqID) w1 = (inr m, w2) →
  PagerdutyData.ID (PluginData.PagerdutyData (DecodePluginData m))
    ≠ WebhookAction.IncidentID action →
  ∃ l, log_level l = DebugLevel ∧
    run S (App.onPagerdutyAction a action) w
      = (Some (trace_Errorf
                 "incident_id from request's plugin_data does not match" []),
         w2,
         [Called (GetRequest reqID) (inr req);
          Called (GetPluginData reqID) (inr m);
          Logged l]).
Proof.
  intros Hev Hkey Hget Hstate Hdata Hid.
  accept_action Hev Hkey. run_step. rewrite Hget.
  rewrite (bool_decide_eq_false_2 (_ ≠ StatePending)) by tauto.
  unfold App.getPluginData. run_step. rewrite Hdata. run_step.
  rewrite bool_decide_eq_true_2 by assumption.
  eexists; split; [|reflexivity]; reflexivity.
Qed.

Lemma onPagerdutyAction_incident_mismatch_witness :
  ∃ l, log_level l = DebugLevel ∧
    run Ref.services
      (@App.onPagerdutyAction Ref.externals Sample.app Sample.action1_INC2)
      (Sample.world1 StatePending)
    = (Some (trace_Errorf
               "incident_id from request's plugin_data does not match" []),
       Sample.world1 StatePending,
       [Called (GetRequest "R1") (inr (Sample.request1 StatePending));
        Called (GetPluginData "R1") (inr (Ref.encode Sample.pluginData1));
        Logged l]).
Proof.
  apply (@onPagerdutyAction_incident_mismatch Ref.externals Ref.services
           Sample.app Sample.action1_INC2 "R1" _ _ _
           (Sample.world1 StatePending)).
  - reflexivity.
  - split; reflexivity.
  - reflexivity.
  - reflexivity.
  - reflexivity.
  - discriminate.
Defined.

(** C10.  In the webhook action path a failed fetch of the plugin data
    is returned as the error of the handler, whatever the error is, a
    not-found one included; the handler stops after the two lookups. *)
Theorem onPagerdutyAction_plugin_data_error `{!Externals} S a action reqID
    req err (w w1 w2 : world S) :
  WebhookAction.Event action = "incident.custom" →
  well_formed_key (WebhookAction.IncidentKey action) reqID →
  reply S (GetRequest reqID) w = (inr req, w1) →
  Request.State req = StatePending →
  reply S (GetPluginData reqID) w1 = (inl err, w2) →
  run S (App.onPagerdutyAction a action) w
    = (Some err, w2,
       [Called (GetRequest reqID) (inr req);
        Called (GetPluginData reqID) (inl err)]).
Proof.
  intros Hev Hkey Hget Hstate Hdata.
  accept_action Hev Hkey. run_step. rewrite Hget.
  rewrite (bool_decide_eq_false_2 (_ ≠ StatePending)) by tauto.
  unfold App.getPluginData. run_step. rewrite Hdata. reflexivity.
Qed.

Lemma onPagerdutyAction_plugin_data_error_witness :
  trace_IsNotFound Ref.notFound = true ∧
  run Ref.services
    (@App.onPagerdutyAction Ref.externals Sample.app (Sample.action1 "approve"))
    Sample.world1_noData
  = (Some Ref.notFound, Sample.world1_noData,
     [Called (GetRequest "R1") (inr (Sample.request1 StatePending));
      Called (GetPluginData "R1") (inl Ref.notFound)]).
Proof.
  split; [reflexivity|].
  eapply (@onPagerdutyAction_plugin_data_error Ref.externals Ref.services
            Sample.app (Sample.action1 "approve") "R1").
  - reflexivity.
  - split; reflexivity.
  - reflexivity.
  - reflexivity.
  - reflexivity.
Defined.

(** The request lookup of the same path is the one that is forgiving: a
    request that is not found is a warning and a success. *)
Lemma onPagerdutyAction_request_gone `{!Externals} S a action reqID err
    (w w1 : world S) :
  WebhookAction.Event action = "incident.custom" →
  well_formed_key (WebhookAction.IncidentKey action) reqID →
  reply S (GetRequest reqID) w = (inl err, w1) →
  trace_IsNotFound err = true →
  ∃ l, log_level l = WarnLevel ∧
    run S (App.onPagerdutyAction a action) w
      = (None, w1, [Called (GetRequest reqID) (inl err); Logged l]).
Proof.
  intros Hev Hkey Hget Hnf.
  accept_action Hev Hkey. run_step. rewrite Hget, Hnf.
  eexists; split; [|reflexivity]; reflexivity.
Qed.

(** C4.  A valid webhook action named "approve" calls the state
    transition to Approved right after the two lookups; when the
    backend accepts it, the note "approved" is sent to the incident on
    record, and when the note is accepted the resolve call follows; a
    step that fails ends the run with its error.  "deny" does the same
    with Denied and "denied".  Any other name fails with a bad-parameter
    error after the two lookups, before any call that changes the
    backend or the incident. *)
Theorem onPagerdutyAction_transition_then_resolve `{!Externals} S a action
    reqID req m (w w1 w2 : world S) :
  WebhookAction.Event action = "incident.custom" →
  well_formed_key (WebhookAction.IncidentKey action) reqID →
  reply S (GetRequest reqID) w = (inr req, w1) →
  Request.State req = StatePending →
  reply S (GetPluginData reqID) w1 = (inr m, w2) →
  PagerdutyData.ID (PluginData.PagerdutyData (DecodePluginData m))
    = WebhookAction.IncidentID action →
  let pdData := PluginData.PagerdutyData (DecodePluginData m) in
  let r := run S (App.onPagerdutyAction a action) w in
  (WebhookAction.Name action = "approve" →
   transition_then_resolve S (App.bot a) reqID req pdData w2 r
     StateApproved "approved") ∧
  (WebhookAction.Name action = "deny" →
   transition_then_resolve S (App.bot a) reqID req pdData w2 r
     StateDenied "denied") ∧
  (WebhookAction.Name action ≠ "approve" →
   WebhookAction.Name action ≠ "deny" →
   r = (Some (trace_BadParameter "unknown action: %q"
                [AString (WebhookAction.Name action)]),
        w2,
        [Called (GetRequest reqID) (inr req);
         Called (GetPluginData reqID) (inr m)])).
Proof.
  intros Hev Hkey Hget Hstate Hdata Hid pdData r. subst r.
  accept_action Hev Hkey. run_step. rewrite Hget.
  rewrite (bool_decide_eq_false_2 (_ ≠ StatePending)) by tauto.
  unfold App.getPluginData. run_step. rewrite Hdata. run_step.
  rewrite (bool_decide_eq_false_2 (_ ≠ WebhookAction.IncidentID action))
    by tauto.
  fold pdData.
  remember (if bool_decide (WebhookAction.Name action = pdApproveAction)
            then Some (StateApproved, "approved")
            else if bool_decide (WebhookAction.Name action = pdDenyAction)
                 then Some (StateDenied, "denied") else None)
    as verdict eqn:Hverdict.
  destruct verdict as [[reqState resolution]|].
  - match goal with |- context [run S ?p w2] =>
      assert (Hgo : transition_then_resolve S (App.bot a) reqID req pdData w2
                (let '(res, w', tr) :=
                   let '(res, w', tr) := run S p w2 in
                   (res, w', Called (GetPluginData reqID) (inr m) :: tr) in
                 (res, w', Called (GetRequest reqID) (inr req) :: tr))
                reqState resolution)
    end.
    { unfold transition_then_resolve. cbv zeta. run_step.
      destruct (reply S (SetRequestState (Request.ID req) reqState) w2)
        as [[err|] w3]; simpl.
      { repeat split. }
      fold (noteCall (App.bot a) pdData resolution).
      destruct (reply S (noteCall (App.bot a) pdData resolution) w3)
        as [[err|] w4]; simpl.
      { repeat split. }
      fold (resolveCall (App.bot a) pdData).
      destruct (reply S (resolveCall (App.bot a) pdData) w4) as [[err|l] w5];
        simpl; repeat split. }
    repeat split.
    + intros Hname. rewrite Hname in Hverdict.
      injection Hverdict as -> ->. exact Hgo.
    + intros Hname. rewrite Hname in Hverdict.
      injection Hverdict as -> ->. exact Hgo.
    + intros Happrove Hdeny.
      rewrite !bool_decide_eq_false_2 in Hverdict by assumption.
      discriminate Hverdict.
  - repeat split.
    + intros Hname. rewrite Hname in Hverdict. discriminate Hverdict.
    + intros Hname. rewrite Hname in Hverdict. discriminate Hverdict.
Qed.

Lemma onPagerdutyAction_transition_then_resolve_witness :
  transition_then_resolve Ref.services Sample.bot "R1"
    (Sample.request1 StatePending) {| PagerdutyData.ID := "INC1" |}
    (Sample.world1 StatePending)
    (run Ref.services
       (@App.onPagerdutyAction Ref.externals Sample.app
          (Sample.action1 "approve"))
       (Sample.world1 StatePending))
    StateApproved "approved".
Proof.
  refine (proj1 (@onPagerdutyAction_transition_then_resolve Ref.externals
                   Ref.services Sample.app (Sample.action1 "approve") "R1"
                   (Sample.request1 StatePending)
                   (Ref.encode Sample.pluginData1)
                   (Sample.world1 StatePending) (Sample.world1 StatePending)
                   (Sample.world1 StatePending) _ _ _ _ _ _) _);
    try reflexivity.
  split; reflexivity.
Defined.

(** The scenario of the specification: the action "approve" on the
    pending request R1 with incident INC1 on record. *)
Example approve_scenario :
  calls (trace (run Ref.services
                  (@App.onPagerdutyAction Ref.externals Sample.app
                     (Sample.action1 "approve"))
                  (Sample.world1 StatePending)))
  = [GetRequest "R1"; GetPluginData "R1";
     SetRequestState "R1" StateApproved;
     noteCall Sample.bot {| PagerdutyData.ID := "INC1" |} "approved";
     resolveCall Sample.bot {| PagerdutyData.ID := "INC1" |}].
Proof. reflexivity. Qed.

(** ** The watcher handler *)

(** C6.  A put event whose request is not Pending is logged and ignored:
    the handler returns success, its trace is the one warning, and no
    call, so no incident creation, is made. *)
Theorem onWatcherEvent_non_pending_put `{!Externals} S a event
    (w : world S) :
  Event.Type_ event = OpPut →
  Request.State (Event.Request event) ≠ StatePending →
  run S (App.onWatcherEvent a event) w
    = (None, w,
       [Logged {| log_fields := [("event", FEvent event)];
                  log_level := WarnLevel;
                  log_format := "non-pending request event";
                  log_args := [] |}]).
Proof.
  intros Hop Hstate. unfold App.onWatcherEvent, State_IsPending.
  rewrite Hop. rewrite bool_decide_eq_false_2 by assumption. reflexivity.
Qed.

Lemma onWatcherEvent_non_pending_put_witness :
  run Ref.services
    (@App.onWatcherEvent Ref.externals Sample.app
       (Sample.put (Sample.request1 StateApproved)))
    (Sample.world1 StateApproved)
  = (None, Sample.world1 StateApproved,
     [Logged {| log_fields :=
                  [("event", FEvent (Sample.put (Sample.request1 StateApproved)))];
                log_level := WarnLevel;
                log_format := "non-pending request event";
                log_args := [] |}]).
Proof.
  apply (@onWatcherEvent_non_pending_put Ref.externals Ref.services).
  - reflexivity.
  - discriminate.
Defined.

(** C8.  A deletion event whose request has no plugin data on record
    (the lookup answers not-found) logs a warning and returns success,
    with no incident call.  When plugin data is on record, the incident
    it names is resolved with the reason "expired": the note "expired"
    is sent to it, and when the note is accepted the resolve call
    follows and its answer is the answer of the handler; a note that
    fails ends the run with its error. *)
Theorem onWatcherEvent_delete `{!Externals} S a event (w : world S) :
  Event.Type_ event = OpDelete →
  let reqID := Request.ID (Event.Request event) in
  let r := run S (App.onWatcherEvent a event) w in
  match reply S (GetPluginData reqID) w with
  | (inl err, w1) =>
      trace_IsNotFound err = true →
      ∃ l, log_level l = WarnLevel ∧
        r = (None, w1, [Called (GetPluginData reqID) (inl err); Logged l])
  | (inr m, w1) =>
      let pdData := PluginData.PagerdutyData (DecodePluginData m) in
      let note := noteCall (App.bot a) pdData "expired" in
      let resolve := resolveCall (App.bot a) pdData in
      match reply S note w1 with
      | (Some err, w2) =>
          calls (trace r) = [GetPluginData reqID; note] ∧
          outcome r = Some err ∧ final r = w2
      | (None, w2) =>
          calls (trace r) = [GetPluginData reqID; note; resolve] ∧
          outcome r = match (reply S resolve w2).1 with
                      | inl err => Some err
                      | inr _ => None
                      end ∧
          final r = (reply S resolve w2).2
      end
  end.
Proof.
  intros Hop reqID r. subst r.
  unfold App.onWatcherEvent. rewrite Hop.
  unfold App.onDeletedRequest, App.getPluginData. fold reqID.
  run_step.
  destruct (reply S (GetPluginData reqID) w) as [[err|m] w1].
  - intros Hnf. run_step. unfold trace_Wrap. rewrite Hnf.
    eexists; split; [|reflexivity]; reflexivity.
  - cbv beta iota zeta. unfold noteCall, resolveCall, Bot.ResolveIncident.
    simpl.
    match goal with |- context [reply S ?c w1] =>
      destruct (reply S c w1) as [[err|] w2]
    end; simpl.
    { repeat split. }
    match goal with |- context [reply S ?c w2] =>
      destruct (reply S c w2) as [[err|l] w3]
    end; simpl; repeat split.
Qed.

Lemma onWatcherEvent_delete_witness :
  (∃ l, log_level l = WarnLevel ∧
     run Ref.services
       (@App.onWatcherEvent Ref.externals Sample.app (Sample.deleted "R2"))
       (Sample.world1 StatePending)
     = (None, Sample.world1 StatePending,
        [Called (GetPluginData "R2") (inl Ref.notFound); Logged l])) ∧
  (let r := run Ref.services
              (@App.onWatcherEvent Ref.externals Sample.app
                 (Sample.deleted "R1"))
              (Sample.world1 StatePending) in
   calls (trace r)
     = [GetPluginData "R1";
        noteCall Sample.bot {| PagerdutyData.ID := "INC1" |} "expired";
        resolveCall Sample.bot {| PagerdutyData.ID := "INC1" |}] ∧
   outcome r = None ∧
   Ref.incidents (final r) = [Ref.withStatus "resolved" Sample.incident1]).
Proof.
  split.
  - exact (@onWatcherEvent_delete Ref.externals Ref.services Sample.app
             (Sample.deleted "R2") (Sample.world1 StatePending) eq_refl
             eq_refl).
  - intros r.
    destruct (@onWatcherEvent_delete Ref.externals Ref.services
                Sample.app (Sample.deleted "R1")
                (Sample.world1 StatePending) eq_refl)
      as (Hcalls & Hout & Hfinal).
    split; [exact Hcalls|]. split; [exact Hout|].
    subst r. rewrite Hfinal. reflexivity.
Defined.

(** The other half of the scenario: the deletion of R1, whose incident
    INC1 is on record. *)
Example expire_scenario :
  calls (trace (run Ref.services
                  (@App.onWatcherEvent Ref.externals Sample.app
                     (Sample.deleted "R1"))
                  (Sample.world1 StatePending)))
  = [GetPluginData "R1";
     noteCall Sample.bot {| PagerdutyData.ID := "INC1" |} "expired";
     resolveCall Sample.bot {| PagerdutyData.ID := "INC1" |}].
Proof. reflexivity. Qed.

(** ** Pending requests *)

Lemma Ref_codec d (m : PluginDataMap) :
  Ref.encode d ⊆ m →
  PluginData.PagerdutyData (Ref.decode m) = PluginData.PagerdutyData d.
Proof.
  intros Hsub. unfold Ref.decode. simpl.
  rewrite (lookup_weaken (Ref.encode d) m "incident_id"
             (PagerdutyData.ID (PluginData.PagerdutyData d))).
  - destruct d as [rd [id]]. reflexivity.
  - unfold Ref.encode. apply lookup_insert_eq.
  - exact Hsub.
Qed.

Lemma Ref_store reqID (m : PluginDataMap) (w0 w1 : Ref.World) :
  Ref.answer (UpdatePluginData reqID m None) w0 = (None, w1) →
  ∀ m' : PluginDataMap,
    (Ref.answer (GetPluginData reqID) w1).1 = inr m' → m ⊆ m'.
Proof.
  unfold Ref.answer.
  destruct (Ref.outage w0 (UpdatePluginData reqID m None)); [discriminate|].
  simpl. intros [= <-] m'. simpl.
  destruct (Ref.outage w0 (GetPluginData reqID)); [discriminate|].
  simpl. rewrite lookup_insert_eq. intros [= <-].
  apply map_union_subseteq_l.
Qed.

(** C3.  A pending-request event issues exactly one incident-creation
    call, that of the request, whose incident key is
    "teleport-access-request/<request-id>".  When the call is answered
    with an incident, the one call that follows stores, for the request
    ID, the encoding of the request data and of the ID of that
    incident, and the answer of the store is the answer of the handler.
    When the store accepted the data, the plugin data fetched
    afterwards for the request ID names the ID of the incident, unless
    the backend fails the fetch itself.  The two assumptions are on
    code outside the package: the decoder reads back the incident
    reference that the encoder wrote, and the backend returns what was
    stored. *)
Theorem onWatcherEvent_pending_roundtrip `{!Externals} S a event
    (w : world S) :
  Event.Type_ event = OpPut →
  Request.State (Event.Request event) = StatePending →
  (∀ d (m : PluginDataMap),
     EncodePluginData d ⊆ m →
     PluginData.PagerdutyData (DecodePluginData m)
       = PluginData.PagerdutyData d) →
  (∀ reqID (m : PluginDataMap) w0 w1,
     reply S (UpdatePluginData reqID m None) w0 = (None, w1) →
     ∀ m' : PluginDataMap,
       (reply S (GetPluginData reqID) w1).1 = inr m' → m ⊆ m') →
  let req := Event.Request event in
  let r := run S (App.onWatcherEvent a event) w in
  let create := incidentCall (App.bot a) req in
  CreateIncidentOptions.IncidentKey (incidentOptions (App.bot a) req)
    = "teleport-access-request/" +:+ Request.ID req ∧
  filter (λ c, is_create_incident c) (calls (trace r)) = [create] ∧
  match reply S create w with
  | (inl err, w1) =>
      calls (trace r) = [create] ∧ outcome r = Some err ∧ final r = w1
  | (inr incident, w1) =>
      let store :=
        UpdatePluginData (Request.ID req)
          (EncodePluginData (pluginDataOf req incident)) None in
      let fetch := run S (App.getPluginData a (Request.ID req)) (final r) in
      calls (trace r) = [create; store] ∧
      outcome r = (reply S store w1).1 ∧
      final r = (reply S store w1).2 ∧
      (outcome r = None →
       match (reply S (GetPluginData (Request.ID req)) (final r)).1 with
       | inl err => outcome fetch = inl err
       | inr _ =>
           ∃ pluginData,
             outcome fetch = inr pluginData ∧
             PagerdutyData.ID (PluginData.PagerdutyData pluginData)
               = Incident.Id incident
       end)
  end.
Proof.
  intros Hop Hstate Hcodec Hstore req r create. subst r create.
  unfold incidentCall, incidentOptions, pluginDataOf.
  unfold App.onWatcherEvent, State_IsPending. rewrite Hop. fold req.
  rewrite bool_decide_eq_true_2 by assumption. cbv beta iota. simpl negb.
  cbv iota.
  unfold App.onPendingRequest, Bot.CreateIncident, Bot.buildIncidentBody,
    App.setPluginData.
  run_step. simpl.
  split; [reflexivity|].
  match goal with |- context [reply S (CreateIncident ?f ?o) w] =>
    destruct (reply S (CreateIncident f o) w) as [[err|incident] w1]
  end; simpl.
  - repeat split.
  - match goal with |- context [reply S (UpdatePluginData ?id ?m None) w1] =>
      pose proof (Hstore id m w1) as Hback;
      destruct (reply S (UpdatePluginData id m None) w1) as [[err|] w2]
    end; simpl.
    + repeat split. discriminate.
    + split; [reflexivity|]. split; [reflexivity|]. split; [reflexivity|].
      split; [reflexivity|]. intros _.
      specialize (Hback w2 eq_refl).
      unfold App.getPluginData, outcome, final. simpl.
      destruct (reply S (GetPluginData (Request.ID req)) w2) as [[err|m'] w3];
        simpl; [reflexivity|].
      eexists. split; [reflexivity|].
      rewrite (Hcodec _ m' (Hback m' eq_refl)). reflexivity.
Qed.

Lemma onWatcherEvent_pending_roundtrip_witness :
  let req := Sample.request1 StatePending in
  let r := run Ref.services
             (@App.onWatcherEvent Ref.externals Sample.app (Sample.put req))
             Sample.world1_noData in
  let create := @incidentCall Ref.externals Sample.bot req in
  let store :=
    UpdatePluginData "R1"
      (Ref.encode {|
         PluginData.RequestData := {|
           RequestData.User := "alice"; RequestData.Roles := ["admin"];
           RequestData.Created := 1600000000 |};
         PluginData.PagerdutyData := {| PagerdutyData.ID := "P0" |} |})
      None in
  CreateIncidentOptions.IncidentKey
    (@incidentOptions Ref.externals Sample.bot req)
    = "teleport-access-request/R1" ∧
  filter (λ c, is_create_incident c) (calls (trace r)) = [create] ∧
  calls (trace r) = [create; store] ∧
  outcome r = None ∧
  ∃ pluginData,
    outcome (run Ref.services
               (@App.getPluginData Ref.externals Sample.app "R1") (final r))
      = inr pluginData ∧
    PagerdutyData.ID (PluginData.PagerdutyData pluginData) = "P0".
Proof.
  intros req r create store.
  destruct (@onWatcherEvent_pending_roundtrip Ref.externals Ref.services
              Sample.app (Sample.put req) Sample.world1_noData
              eq_refl eq_refl Ref_codec Ref_store)
    as (Hkey & Hone & Hcalls & Hout & _ & Hfetch).
  split; [exact Hkey|]. split; [exact Hone|]. split; [exact Hcalls|].
  split; [exact Hout|]. exact (Hfetch Hout).
Defined.

(** The scenario of the specification: the pending request R1 of alice
    for the role admin.  The incident is created under the composite
    key, with the body of the template, and the plugin data of R1 then
    names the incident. *)
Example pending_scenario :
  calls (trace (run Ref.services
                  (@App.onWatcherEvent Ref.externals Sample.app
                     (Sample.put (Sample.request1 StatePending)))
                  Sample.world1_noData))
  = [CreateIncident "bot@example.com" {|
       CreateIncidentOptions.Title := "Access request from alice";
       CreateIncidentOptions.IncidentKey := "teleport-access-request/R1";
       CreateIncidentOptions.Service := {|
         APIReference.Type_ := "service_reference";
         APIReference.ID := "SVC1" |};
       CreateIncidentOptions.Body := {|
         APIDetails.Type_ := "incident_body";
         APIDetails.Details :=
           "alice requested permissions for roles admin on Teleport at 1600000000. To approve or deny the request, please use Special Actions on this incident."
           +:+ String "010" EmptyString |} |};
     UpdatePluginData "R1"
       (Ref.encode {|
          PluginData.RequestData := {|
            RequestData.User := "alice"; RequestData.Roles := ["admin"];
            RequestData.Created := 1600000000 |};
          PluginData.PagerdutyData := {| PagerdutyData.ID := "P0" |} |})
       None] ∧
  outcome (run Ref.services
             (@App.getPluginData Ref.externals Sample.app "R1")
             (final (run Ref.services
                       (@App.onWatcherEvent Ref.externals Sample.app
                          (Sample.put (Sample.request1 StatePending)))
                       Sample.world1_noData)))
  = inr (Ref.decode (Ref.encode {|
          PluginData.RequestData := {|
            RequestData.User := "alice"; RequestData.Roles := ["admin"];
            RequestData.Created := 1600000000 |};
          PluginData.PagerdutyData := {| PagerdutyData.ID := "P0" |} |})).
Proof. split; vm_compute; reflexivity. Qed.

(** * Properties of the provisioning *)

(** ** Scanning a page of extensions *)

Lemma in_snoc_l {A} (x y : A) l : x ∈ l → x ∈ l ++ [y].
Proof. intros H. apply elem_of_app. left. exact H. Qed.

Lemma in_snoc_r {A} (x : A) l : x ∈ l ++ [x].
Proof. apply elem_of_app. right. apply list_elem_of_singleton. reflexivity. Qed.

Lemma scanExtensions_app l1 l2 ids :
  Bot.scanExtensions (l1 ++ l2) ids
  = Bot.scanExtensions l2 (Bot.scanExtensions l1 ids).
Proof. unfold Bot.scanExtensions. apply foldl_app. Qed.

Lemma scanExtensions_snoc l x ids :
  Bot.scanExtensions (l ++ [x]) ids
  = (if bool_decide (Extension.Name x = pdApproveActionLabel)
     then Extension.ID x else (Bot.scanExtensions l ids).1,
     if bool_decide (Extension.Name x = pdDenyActionLabel)
     then Extension.ID x else (Bot.scanExtensions l ids).2).
Proof.
  rewrite scanExtensions_app.
  destruct (Bot.scanExtensions l ids) as [a d]. reflexivity.
Qed.






(** ** Paging through the listing *)

Lemma uint_add_nat (n m : nat) :
  Z.of_nat n + Z.of_nat m < 2 ^ 64 →
  uint_add (Z.of_nat n) (Z.of_nat m) = Z.of_nat (n + m).
Proof.
  intros Hlt. unfold uint_add. rewrite Z.mod_small by lia. lia.
Qed.

Lemma page_nat {A} (F : list A) (n0 : nat) :
  Ref.page F {| APIListObject.Offset := Z.of_nat n0;
                APIListObject.Limit := pdListLimit;
                APIListObject.More := false |}
  = (take 60 (drop n0 F), bool_decide (n0 + 60 < length F)%nat).
Proof.
  unfold Ref.page. simpl. rewrite Nat2Z.id. f_equal.
  apply bool_decide_ext. unfold pdListLimit. lia.
Qed.


Lemma scanPages_total F fuel (n0 : nat) more ids :
  Z.of_nat n0 + 60 * Z.of_nat fuel < 2 ^ 64 →
  (more = true → (length F - n0 < fuel)%nat) →
  is_Some (Ref.scanPages F fuel (Z.of_nat n0) more ids).
Proof.
  revert n0 more ids.
  induction fuel as [|fuel IH]; intros n0 more ids Hbound Hmore;
    cbn [Ref.scanPages].
  - destruct more; [specialize (Hmore eq_refl); lia|].
    rewrite andb_false_r. eauto.
  - destruct ((bool_decide (ids.1 = EmptyString)
               || bool_decide (ids.2 = EmptyString)) && more) eqn:Hcond;
      [|eauto].
    apply andb_true_iff in Hcond as [_ ->]. specialize (Hmore eq_refl).
    rewrite page_nat. change pdListLimit with (Z.of_nat 60).
    rewrite uint_add_nat by lia.
    apply IH; [lia|]. intros Hm. apply bool_decide_eq_true in Hm. lia.
Qed.


(** ** The provisioning against the reference service *)

Lemma Ref_reply w c :
  Ref.outage w c = None → reply Ref.services c w = Ref.serve c w.
Proof. intros H. simpl. unfold Ref.answer. rewrite H. reflexivity. Qed.

Lemma findWebhookSchema_ref fuel offset more id (w : Ref.World) :
  (∀ c, Ref.outage w c = None) →
  ∃ tr,
    run Ref.services (Bot.findWebhookSchema fuel offset more id) w
      = (Ref.schemaPages (Ref.schemas w) fuel offset more id, w, tr) ∧
    Forall (λ c, is_listing c = true) (calls tr).
Proof.
  intros Hout. revert offset more id.
  induction fuel as [|fuel IH]; intros offset more id;
    cbn [Bot.findWebhookSchema Ref.schemaPages].
  - destruct (bool_decide (id = EmptyString) && more).
    + exists []. split; [reflexivity | constructor].
    + exists []. split; [reflexivity | constructor].
  - destruct (bool_decide (id = EmptyString) && more).
    + run_step. rewrite Ref_reply by apply Hout.
      cbn [Ref.serve].
      destruct (Ref.page (Ref.schemas w) _) as [p more'] eqn:Hpage.
      cbn [ListExtensionSchemaResponse.More
             ListExtensionSchemaResponse.List_ APIListObject.More
             ListExtensionSchemaResponse.ExtensionSchemas].
      destruct (IH (uint_add offset pdListLimit) more'
                  (Bot.scanSchemas p id)) as (tr & Hrun & Hcalls).
      rewrite Hrun. eexists. split; [reflexivity|].
      constructor; [reflexivity | exact Hcalls].
    + exists []. split; [reflexivity | constructor].
Qed.

Lemma findExtensions_ref b schemaID fuel offset more ids (w : Ref.World) :
  (∀ c, Ref.outage w c = None) →
  ∃ tr,
    run Ref.services (Bot.findExtensions b schemaID fuel offset more ids) w
      = (inr <$> Ref.scanPages (Ref.listing b schemaID w) fuel offset more ids,
         w, tr) ∧
    Forall (λ c, is_listing c = true) (calls tr).
Proof.
  intros Hout. revert offset more ids.
  induction fuel as [|fuel IH]; intros offset more ids;
    cbn [Bot.findExtensions Ref.scanPages].
  - destruct ((bool_decide (ids.1 = EmptyString)
               || bool_decide (ids.2 = EmptyString)) && more).
    + exists []. split; [reflexivity | constructor].
    + exists []. split; [reflexivity | constructor].
  - destruct ((bool_decide (ids.1 = EmptyString)
               || bool_decide (ids.2 = EmptyString)) && more).
    + run_step. rewrite Ref_reply by apply Hout.
      cbn [Ref.serve ListExtensionOptions.ExtensionObjectID
             ListExtensionOptions.ExtensionSchemaID
             ListExtensionOptions.List_].
      fold (Ref.visible b schemaID (Ref.extensions w)).
      fold (Ref.listing b schemaID w).
      destruct (Ref.page (Ref.listing b schemaID w) _) as [p more']
        eqn:Hpage.
      cbn [ListExtensionResponse.More ListExtensionResponse.List_
             APIListObject.More ListExtensionResponse.Extensions].
      destruct (IH (uint_add offset pdListLimit) more'
                  (Bot.scanExtensions p ids)) as (tr & Hrun & Hcalls).
      rewrite Hrun. eexists. split; [reflexivity|].
      constructor; [reflexivity | exact Hcalls].
    + exists []. split; [reflexivity | constructor].
Qed.



Lemma Setup_ref b fuel (w : Ref.World) :
  (∀ c, Ref.outage w c = None) →
  ∃ tr0,
    Forall (λ c, is_listing c = true) (calls tr0) ∧
    run Ref.services (Bot.Setup b fuel) w =
    match Ref.schemaPages (Ref.schemas w) fuel 0 true EmptyString with
    | None => (None, w, tr0)
    | Some (inl err) => (Some (Some err), w, tr0)
    | Some (inr schemaID) =>
        if bool_decide (schemaID = EmptyString) then
          (Some (Some (trace_NotFound
             ("failed to find " +:+ String "034" "Custom Incident Action"
              +:+ String "034" " extension type"))), w, tr0)
        else
          match Ref.scanPages (Ref.listing b schemaID w) fuel 0 true
                  (EmptyString, EmptyString) with
          | None => (None, w, tr0)
          | Some (approveExtID, denyExtID) =>
              let '(e1, w1, tr1) :=
                run Ref.services
                  (Bot.setupCustomAction b approveExtID schemaID
                     pdApproveAction pdApproveActionLabel) w in
              match e1 with
              | Some err => (Some (Some err), w1, tr0 ++ tr1)
              | None =>
                  let '(e2, w2, tr2) :=
                    run Ref.services
                      (Bot.setupCustomAction b denyExtID schemaID
                         pdDenyAction pdDenyActionLabel) w1 in
                  (Some e2, w2, tr0 ++ tr1 ++ tr2)
              end
          end
    end.
Proof.
  intros Hout. unfold Bot.Setup. rewrite run_bind.
  destruct (findWebhookSchema_ref fuel 0 true EmptyString w Hout)
    as (trS & -> & HtrS).
  destruct (Ref.schemaPages (Ref.schemas w) fuel 0 true EmptyString)
    as [[err|schemaID]|].
  - exists trS. split; [exact HtrS|]. simpl. rewrite app_nil_r. reflexivity.
  - destruct (bool_decide (schemaID = EmptyString)).
    + exists trS. split; [exact HtrS|]. simpl. rewrite app_nil_r. reflexivity.
    + rewrite run_bind.
      destruct (findExtensions_ref b schemaID fuel 0 true
                  (EmptyString, EmptyString) w Hout) as (trE & -> & HtrE).
      destruct (Ref.scanPages (Ref.listing b schemaID w) fuel 0 true
                  (EmptyString, EmptyString)) as [[approveExtID denyExtID]|].
      * exists (trS ++ trE). split.
        { rewrite calls_app. apply Forall_app. auto. }
        cbn [fmap option_fmap option_map]. rewrite run_bind.
        destruct (run Ref.services
                    (Bot.setupCustomAction b approveExtID schemaID
                       pdApproveAction pdApproveActionLabel) w)
          as [[[err|] w1] tr1].
        -- simpl. rewrite app_nil_r, app_assoc. reflexivity.
        -- rewrite run_bind.
           destruct (run Ref.services
                       (Bot.setupCustomAction b denyExtID schemaID
                          pdDenyAction pdDenyActionLabel) w1)
             as [[[err|] w2] tr2].
           ++ simpl. rewrite app_nil_r, !app_assoc. reflexivity.
           ++ simpl. rewrite app_nil_r, !app_assoc. reflexivity.
      * exists (trS ++ trE). split.
        { rewrite calls_app. apply Forall_app. auto. }
        simpl. rewrite app_nil_r. reflexivity.
  - exists trS. split; [exact HtrS|]. simpl. rewrite app_nil_r. reflexivity.
Qed.

Lemma schemaPages_total l fuel (n0 : nat) more id :
  Z.of_nat n0 + 60 * Z.of_nat fuel < 2 ^ 64 →
  (more = true → (length l - n0 < fuel)%nat) →
  is_Some (Ref.schemaPages l fuel (Z.of_nat n0) more id).
Proof.
  revert n0 more id.
  induction fuel as [|fuel IH]; intros n0 more id Hbound Hmore;
    cbn [Ref.schemaPages].
  - destruct more; [specialize (Hmore eq_refl); lia|].
    rewrite andb_false_r. eauto.
  - destruct (bool_decide (id = EmptyString) && more) eqn:Hcond; [|eauto].
    apply andb_true_iff in Hcond as [_ ->]. specialize (Hmore eq_refl).
    rewrite page_nat. change pdListLimit with (Z.of_nat 60).
    rewrite uint_add_nat by lia.
    apply IH; [lia|]. intros Hm. apply bool_decide_eq_true in Hm. lia.
Qed.

(** The schema that the first loop settles on is one of the service. *)
Lemma scanSchemas_found l id :
  Bot.scanSchemas l id = id ∨
  ∃ s, s ∈ l ∧ ExtensionSchema.Key s = "custom_webhook" ∧
       ExtensionSchema.ID s = Bot.scanSchemas l id.
Proof.
  induction l as [|x l IH] using rev_ind; [left; reflexivity|].
  unfold Bot.scanSchemas in *. rewrite foldl_app. simpl.
  case_bool_decide as Hkey.
  - right. exists x. split; [apply in_snoc_r | auto].
  - destruct IH as [IH|(s & Hs & Hk & Hid)]; [left; exact IH|].
    right. exists s. split; [apply in_snoc_l, Hs | auto].
Qed.


(** X27.  With fuel for the pages of the two listings, the
    provisioning returns. *)
Lemma Setup_returns b fuel (w : Ref.World) :
  (∀ c, Ref.outage w c = None) →
  (length (Ref.schemas w) < fuel)%nat →
  (length (Ref.extensions w) < fuel)%nat →
  60 * Z.of_nat fuel < 2 ^ 64 →
  is_Some (outcome (run Ref.services (Bot.Setup b fuel) w)).
Proof.
  intros Hout Hschemas Hexts Hbound.
  destruct (Setup_ref b fuel w Hout) as (tr0 & _ & ->).
  destruct (schemaPages_total (Ref.schemas w) fuel 0 true EmptyString)
    as [found Hfound]; [simpl; lia | intros _; lia |].
  change (Z.of_nat 0) with 0 in Hfound. rewrite Hfound.
  destruct found as [err|schemaID]; [simpl; eauto|].
  destruct (bool_decide (schemaID = EmptyString)); [simpl; eauto|].
  destruct (scanPages_total (Ref.listing b schemaID w) fuel 0 true
              (EmptyString, EmptyString)) as [[a d] Hscan].
  { simpl. lia. }
  { intros _. unfold Ref.listing, Ref.visible.
    pose proof (length_filter
                  (λ x, Ref.listed (Bot.serviceID b) schemaID x)
                  (Ref.extensions w)). lia. }
  change (Z.of_nat 0) with 0 in Hscan. rewrite Hscan.
  destruct (run Ref.services
              (Bot.setupCustomAction b a schemaID pdApproveAction
                 pdApproveActionLabel) w) as [[[err|] w1] tr1];
    [simpl; eauto|].
  destruct (run Ref.services
              (Bot.setupCustomAction b d schemaID pdDenyAction
                 pdDenyActionLabel) w1) as [[e2 w2] tr2].
  simpl. eauto.
Qed.

(** ** The extension store *)











(** ** What the scan of the listing finds *)










Section Upsert.
Variables (b : Bot.t) (schemaID : string) (E : list Extension.t).
Variables (n fuel : nat).


Hypothesis Hunique : NoDup (Extension.ID <$> E).
Hypothesis Hnamed : ∀ x, x ∈ E → Extension.ID x ≠ EmptyString.
Hypothesis Hfresh :
  ∀ x m, x ∈ E → (n ≤ m)%nat → Extension.ID x ≠ "P" +:+ pretty m.
Hypothesis Hfuel : (length E + 2 < fuel)%nat.
Hypothesis Hbound : 60 * Z.of_nat fuel < 2 ^ 64.


















End Upsert.










(** The provisioning run twice on that service: the first run updates
    the extension EXT1 and creates the deny extension, the second run
    updates both, and the store is the same after either. *)
Example provisioning_scenario :
  omap (λ c, match c with
             | CreateExtension e => Some (inl (Extension.Name e))
             | UpdateExtension id e => Some (inr (id, Extension.Name e))
             | _ => None
             end)
    (calls (trace (run Ref.services (Bot.Setup Sample.bot 4) Sample.worldP)))
    = [inr ("EXT1", "Approve Request"); inl "Deny Request"] ∧
  omap (λ c, match c with
             | CreateExtension e => Some (inl (Extension.Name e))
             | UpdateExtension id e => Some (inr (id, Extension.Name e))
             | _ => None
             end)
    (calls (trace (run Ref.services (Bot.Setup Sample.bot 4)
                     (final (run Ref.services (Bot.Setup Sample.bot 4)
                               Sample.worldP)))))
    = [inr ("EXT1", "Approve Request"); inr ("P0", "Deny Request")] ∧
  Ref.extensions
    (final (run Ref.services (Bot.Setup Sample.bot 4) Sample.worldP))
    = [Ref.withID "EXT1"
         (customAction Sample.bot "SCH1" "approve" "Approve Request");
       Ref.withID "P0"
         (customAction Sample.bot "SCH1" "deny" "Deny Request")].
Proof. repeat split; vm_compute; reflexivity. Qed.

(** * Properties on every path *)

(** ** The webhook action handler, on every path *)

(** Follows a run of a handler down every branch: the tests of the
    handler, the shape of a split key, and the answers of the services. *)
Ltac explore S :=
  repeat first
    [ progress run_step
    | progress cbn [negb andb orb fmap option_fmap option_map]
    | match goal with
      | |- context [reply S ?c ?w] =>
          let r := fresh "r" in
          let w' := fresh "w" in
          let E := fresh "Hreply" in
          destruct (reply S c w) as [r w'] eqn:E; cbn [Resp] in r; destruct r
      | |- context [trace_IsNotFound ?e] =>
          let E := fresh "Hnf" in destruct (trace_IsNotFound e) eqn:E
      | |- context [bool_decide ?P] =>
          let E := fresh "Htest" in destruct (decide P) as [E|E];
          [rewrite (bool_decide_eq_true_2 P E)
          |rewrite (bool_decide_eq_false_2 P E)]
      end ].

(** X1.  The calls of the webhook handler, whatever the action and
    whatever the services answer: at most five, in one order.  The
    lookup of the request, the lookup of its plugin data under the same
    ID, one state transition, to Approved or to Denied, and the note
    and the resolve call of one incident; the note says "approved" for
    the transition to Approved and "denied" for the one to Denied. *)
Theorem onPagerdutyAction_calls_shape `{!Externals} S a action (w : world S) :
  ∃ reqID id st pdData resolution,
    calls (trace (run S (App.onPagerdutyAction a action) w))
      `prefix_of` [GetRequest reqID; GetPluginData reqID;
                   SetRequestState id st;
                   noteCall (App.bot a) pdData resolution;
                   resolveCall (App.bot a) pdData] ∧
    (st = StateApproved ∧ resolution = "approved" ∨
     st = StateDenied ∧ resolution = "denied").
Proof.
  unfold App.onPagerdutyAction, App.getPluginData, Bot.ResolveIncident.
  destruct (strings_Split (WebhookAction.IncidentKey action) "/")
    as [|k0 [|k1 [|k2 ks]]].
  all: explore S.
  all: do 5 eexists; unfold noteCall, resolveCall; simpl; split;
    [repeat first [apply prefix_nil | apply prefix_cons]|].
  all: first [left; split; reflexivity | right; split; reflexivity].
  Unshelve.
  all: first [exact EmptyString | exact {| PagerdutyData.ID := EmptyString |}].
Qed.

Ltac in_list :=
  repeat first
    [ apply elem_of_cons; left; reflexivity
    | apply elem_of_cons; right ].

Ltac not_in_list H :=
  repeat (apply elem_of_cons in H as [H|H]; [try discriminate H|]);
  try (apply elem_of_nil in H; destruct H).

(** X2.  The state of a request is changed on one path only.  A state
    transition in the trace means that the action was a custom incident
    action with a well-formed key, that the request named by the key
    was found and was Pending, that the transition is for the ID of the
    request that was found, that the plugin data of the request was
    read and names the incident of the action, and that the action was
    "approve" for Approved or "deny" for Denied. *)
Theorem onPagerdutyAction_transition_guarded `{!Externals} S a action
    (w : world S) id st :
  SetRequestState id st
    ∈ calls (trace (run S (App.onPagerdutyAction a action) w)) →
  ∃ reqID req m,
    WebhookAction.Event action = "incident.custom" ∧
    well_formed_key (WebhookAction.IncidentKey action) reqID ∧
    Called (GetRequest reqID) (inr req)
      ∈ trace (run S (App.onPagerdutyAction a action) w) ∧
    Request.State req = StatePending ∧
    id = Request.ID req ∧
    Called (GetPluginData reqID) (inr m)
      ∈ trace (run S (App.onPagerdutyAction a action) w) ∧
    PagerdutyData.ID (PluginData.PagerdutyData (DecodePluginData m))
      = WebhookAction.IncidentID action ∧
    (WebhookAction.Name action = "approve" ∧ st = StateApproved ∨
     WebhookAction.Name action = "deny" ∧ st = StateDenied).
Proof.
  unfold App.onPagerdutyAction, App.getPluginData, Bot.ResolveIncident.
  destruct (strings_Split (WebhookAction.IncidentKey action) "/")
    as [|k0 [|k1 [|k2 ks]]] eqn:Hsplit.
  all: explore S.
  all: cbn [trace calls omap snd]; simpl; intros Hin; not_in_list Hin.
  all: injection Hin as -> ->.
  all: match goal with
       | Hk : ¬ ?k ≠ pdIncidentKeyPrefix,
         Hs : strings_Split _ _ = [?k; _] |- _ =>
           apply dec_stable in Hk; subst k; apply Split_key in Hs
       end.
  all: do 3 eexists.
  all: split; [apply dec_stable; assumption|].
  all: split; [eassumption|].
  all: split; [in_list|].
  all: split; [apply dec_stable; assumption|].
  all: split; [reflexivity|].
  all: split; [in_list|].
  all: split; [apply dec_stable; assumption|].
  all: auto.
Qed.

(** X3.  An incident is touched only after the backend accepted the
    transition: a note in the trace is a note to the incident of the
    action, and a state transition answered without error is in the
    trace with it. *)
Theorem onPagerdutyAction_note_guarded `{!Externals} S a action
    (w : world S) incidentID note :
  CreateIncidentNote incidentID note
    ∈ calls (trace (run S (App.onPagerdutyAction a action) w)) →
  incidentID = WebhookAction.IncidentID action ∧
  ∃ id st,
    Called (SetRequestState id st) None
      ∈ trace (run S (App.onPagerdutyAction a action) w).
Proof.
  unfold App.onPagerdutyAction, App.getPluginData, Bot.ResolveIncident.
  destruct (strings_Split (WebhookAction.IncidentKey action) "/")
    as [|k0 [|k1 [|k2 ks]]] eqn:Hsplit.
  all: explore S.
  all: cbn [trace calls omap snd]; simpl; intros Hin; not_in_list Hin.
  all: injection Hin as -> _.
  all: split; [apply dec_stable; assumption|].
  all: do 2 eexists; in_list.
Qed.

(** X4.  When the lookup of the request fails, the handler stops after
    that one call and leaves the services as the lookup left them.  A
    not-found error is forgiven, the handler returns success; any other
    error is returned as it is. *)
Theorem onPagerdutyAction_request_lookup_error `{!Externals} S a action
    reqID err (w w1 : world S) :
  WebhookAction.Event action = "incident.custom" →
  well_formed_key (WebhookAction.IncidentKey action) reqID →
  reply S (GetRequest reqID) w = (inl err, w1) →
  outcome (run S (App.onPagerdutyAction a action) w)
    = (if trace_IsNotFound err then None else Some err) ∧
  final (run S (App.onPagerdutyAction a action) w) = w1 ∧
  calls (trace (run S (App.onPagerdutyAction a action) w))
    = [GetRequest reqID].
Proof.
  intros Hev Hkey Hget.
  accept_action Hev Hkey. run_step. rewrite Hget.
  destruct (trace_IsNotFound err); repeat split.
Qed.

Lemma onPagerdutyAction_transition_guarded_witness :
  ∃ reqID req m,
    WebhookAction.Event (Sample.action1 "approve") = "incident.custom" ∧
    well_formed_key (WebhookAction.IncidentKey (Sample.action1 "approve"))
      reqID ∧
    Called (GetRequest reqID) (inr req)
      ∈ trace (run Ref.services
                 (@App.onPagerdutyAction Ref.externals Sample.app
                    (Sample.action1 "approve"))
                 (Sample.world1 StatePending)) ∧
    Request.State req = StatePending ∧
    "R1" = Request.ID req ∧
    Called (GetPluginData reqID) (inr m)
      ∈ trace (run Ref.services
                 (@App.onPagerdutyAction Ref.externals Sample.app
                    (Sample.action1 "approve"))
                 (Sample.world1 StatePending)) ∧
    PagerdutyData.ID (PluginData.PagerdutyData (Ref.decode m))
      = WebhookAction.IncidentID (Sample.action1 "approve") ∧
    (WebhookAction.Name (Sample.action1 "approve") = "approve" ∧
       StateApproved = StateApproved ∨
     WebhookAction.Name (Sample.action1 "approve") = "deny" ∧
       StateApproved = StateDenied).
Proof.
  apply (@onPagerdutyAction_transition_guarded Ref.externals Ref.services
           Sample.app (Sample.action1 "approve")
           (Sample.world1 StatePending) "R1" StateApproved).
  rewrite approve_scenario. in_list.
Defined.

Lemma onPagerdutyAction_note_guarded_witness :
  "INC1" = WebhookAction.IncidentID (Sample.action1 "deny") ∧
  ∃ id st,
    Called (SetRequestState id st) None
      ∈ trace (run Ref.services
                 (@App.onPagerdutyAction Ref.externals Sample.app
                    (Sample.action1 "deny"))
                 (Sample.world1 StatePending)).
Proof.
  apply (@onPagerdutyAction_note_guarded Ref.externals Ref.services
           Sample.app (Sample.action1 "deny") (Sample.world1 StatePending)
           "INC1"
           {| IncidentNote.User := {|
                APIObject.ID := EmptyString;
                APIObject.Type_ := EmptyString;
                APIObject.Summary := "bot@example.com" |};
              IncidentNote.Content := "Access request has been denied" |}).
  vm_compute. in_list.
Defined.

Lemma onPagerdutyAction_request_lookup_error_witness :
  outcome (run Ref.services
             (@App.onPagerdutyAction Ref.externals Sample.app
                (Sample.action1 "approve"))
             (Faults.without Faults.is_get_request
                (Sample.world1 StatePending)))
    = Some Sample.unavailable ∧
  final (run Ref.services
           (@App.onPagerdutyAction Ref.externals Sample.app
              (Sample.action1 "approve"))
           (Faults.without Faults.is_get_request
              (Sample.world1 StatePending)))
    = Faults.without Faults.is_get_request (Sample.world1 StatePending) ∧
  calls (trace (run Ref.services
                  (@App.onPagerdutyAction Ref.externals Sample.app
                     (Sample.action1 "approve"))
                  (Faults.without Faults.is_get_request
                     (Sample.world1 StatePending))))
    = [GetRequest "R1"].
Proof.
  apply (@onPagerdutyAction_request_lookup_error Ref.externals Ref.services
           Sample.app (Sample.action1 "approve") "R1" Sample.unavailable).
  - reflexivity.
  - split; reflexivity.
  - reflexivity.
Defined.

(** Counts the calls of a trace that were answered. *)
Ltac count_calls :=
  first [ by exists 0%nat | by exists 1%nat | by exists 2%nat
        | by exists 3%nat | by exists 4%nat | by exists 5%nat ].

(** X5.  The webhook handler stops at the first call that is answered
    with an error.  When it returns an error, that error is the one of
    its last call, and every call before was answered; or every call
    was answered and the error is one that the handler makes itself,
    which is not a not-found error and comes before any call that
    changes the request or the incident.  When it returns success,
    every call was answered, or its one call was the lookup of the
    request and was answered not-found. *)
Theorem onPagerdutyAction_stops_at_failure `{!Externals} S a action
    (w : world S) :
  let r := run S (App.onPagerdutyAction a action) w in
  match outcome r with
  | Some err =>
      stopped_at err (trace r) ∨
      unfailed (trace r) ∧ err_kind err ≠ KindNotFound ∧
      ¬ existsb (λ c, match c with
                      | SetRequestState _ _ | CreateIncidentNote _ _
                      | ManageIncidents _ _ => true
                      | _ => false
                      end) (calls (trace r))
  | None =>
      unfailed (trace r) ∨
      ∃ reqID e, trace_IsNotFound e = true ∧
        verdicts (trace r) = [Some e] ∧
        calls (trace r) = [GetRequest reqID]
  end.
Proof.
  unfold App.onPagerdutyAction, App.getPluginData, Bot.ResolveIncident.
  destruct (strings_Split (WebhookAction.IncidentKey action) "/")
    as [|k0 [|k1 [|k2 ks]]].
  all: explore S.
  all: cbn [outcome trace fst snd]; unfold stopped_at, unfailed, trace_Wrap.
  all: first
    [ left; count_calls
    | right; split; [count_calls|]; split; [discriminate|]; simpl; tauto
    | right; do 2 eexists; split; [eassumption|]; split; reflexivity ].
Qed.

(** ** The watcher handler, on every path *)

Ltac unfold_watcher :=
  unfold App.onWatcherEvent, App.onPendingRequest, App.onDeletedRequest,
    App.getPluginData, App.setPluginData, Bot.CreateIncident,
    Bot.buildIncidentBody, Bot.ResolveIncident, State_IsPending.

(** X6.  The calls of the watcher handler, whatever the services answer.
    A put event makes at most two calls: the creation of the incident of
    the request and then the update of its plugin data, with no
    expectation on the data on record.  A deletion makes at most three:
    the lookup of the plugin data, the note "expired" and the resolve
    call, both for one incident.  Any other operation makes none. *)
Theorem onWatcherEvent_calls_shape `{!Externals} S a event (w : world S) :
  let req := Event.Request event in
  let cs := calls (trace (run S (App.onWatcherEvent a event) w)) in
  match Event.Type_ event with
  | OpPut =>
      ∃ m, cs `prefix_of` [incidentCall (App.bot a) req;
                           UpdatePluginData (Request.ID req) m None]
  | OpDelete =>
      ∃ pdData,
        cs `prefix_of` [GetPluginData (Request.ID req);
                        noteCall (App.bot a) pdData "expired";
                        resolveCall (App.bot a) pdData]
  | OpOther _ => cs = []
  end.
Proof.
  unfold_watcher. destruct (Event.Type_ event).
  all: explore S.
  all: try reflexivity.
  all: eexists; unfold noteCall, resolveCall, incidentCall, incidentOptions;
    simpl; repeat first [apply prefix_nil | apply prefix_cons].
  Unshelve.
  all: first [exact ∅ | exact {| PagerdutyData.ID := EmptyString |}].
Qed.

(** X7.  A watcher event that fails is logged before the handler returns:
    the last two lines of the trace are the error line of the operation
    and the debug report, both carrying the request ID and the error
    that is returned.  The failure of an unexpected operation is
    returned without a line. *)
Theorem onWatcherEvent_failure_logged `{!Externals} S a event (w : world S)
    err :
  outcome (run S (App.onWatcherEvent a event) w) = Some err →
  match Event.Type_ event with
  | OpPut =>
      failureLines (Request.ID (Event.Request event)) err
        "Failed to process pending request"
        `suffix_of` trace (run S (App.onWatcherEvent a event) w)
  | OpDelete =>
      failureLines (Request.ID (Event.Request event)) err
        "Failed to process deleted request"
        `suffix_of` trace (run S (App.onWatcherEvent a event) w)
  | OpOther name =>
      trace (run S (App.onWatcherEvent a event) w) = [] ∧
      err = trace_BadParameter "unexpected event operation %s"
              [AOp (OpOther name)]
  end.
Proof.
  unfold_watcher. destruct (Event.Type_ event).
  all: explore S.
  all: cbn [outcome trace fst snd]; simpl; intros [= <-].
  all: unfold failureLines, trace_Wrap;
    repeat first [reflexivity | split | apply suffix_cons_r].
Qed.

Lemma onWatcherEvent_failure_logged_witness :
  failureLines "R1" Sample.unavailable "Failed to process deleted request"
    `suffix_of` trace (run Ref.services
                         (@App.onWatcherEvent Ref.externals Sample.app
                            (Sample.deleted "R1"))
                         Sample.world1_noteDown).
Proof.
  apply (@onWatcherEvent_failure_logged Ref.externals Ref.services
           Sample.app (Sample.deleted "R1") Sample.world1_noteDown
           Sample.unavailable).
  reflexivity.
Defined.

(** X8.  The plugin data of a request is written on one path only: the
    event was a put of a pending request, the incident of the request
    was created with success just before, and the data written, for the
    ID of the request and without expectation, is the encoding of the
    request data and the ID of that incident. *)
Theorem onWatcherEvent_plugin_data_guarded `{!Externals} S a event
    (w : world S) reqID m expect :
  UpdatePluginData reqID m expect
    ∈ calls (trace (run S (App.onWatcherEvent a event) w)) →
  ∃ incident,
    Called (incidentCall (App.bot a) (Event.Request event)) (inr incident)
      ∈ trace (run S (App.onWatcherEvent a event) w) ∧
    Event.Type_ event = OpPut ∧
    Request.State (Event.Request event) = StatePending ∧
    reqID = Request.ID (Event.Request event) ∧
    expect = None ∧
    m = EncodePluginData (pluginDataOf (Event.Request event) incident).
Proof.
  unfold_watcher. destruct (Event.Type_ event) eqn:Hop.
  all: explore S.
  all: cbn [trace calls omap snd]; simpl; intros Hin; not_in_list Hin.
  all: injection Hin as -> -> ->.
  all: eexists; split; [in_list|].
  all: repeat split; auto.
Qed.

Lemma onWatcherEvent_plugin_data_guarded_witness :
  ∃ incident,
    Called (@incidentCall Ref.externals (App.bot Sample.app)
              (Event.Request (Sample.put (Sample.request1 StatePending))))
           (inr incident)
      ∈ trace (run Ref.services
                 (@App.onWatcherEvent Ref.externals Sample.app
                    (Sample.put (Sample.request1 StatePending)))
                 Sample.world1_noData) ∧
    Event.Type_ (Sample.put (Sample.request1 StatePending)) = OpPut ∧
    Request.State (Event.Request (Sample.put (Sample.request1 StatePending)))
      = StatePending ∧
    "R1" = Request.ID (Event.Request
                         (Sample.put (Sample.request1 StatePending))) ∧
    @None PluginDataMap = None ∧
    Ref.encode {|
      PluginData.RequestData := {|
        RequestData.User := "alice"; RequestData.Roles := ["admin"];
        RequestData.Created := 1600000000 |};
      PluginData.PagerdutyData := {| PagerdutyData.ID := "P0" |} |}
    = Ref.encode (pluginDataOf
                    (Event.Request
                       (Sample.put (Sample.request1 StatePending)))
                    incident).
Proof.
  apply (@onWatcherEvent_plugin_data_guarded Ref.externals Ref.services
           Sample.app (Sample.put (Sample.request1 StatePending))
           Sample.world1_noData "R1").
  vm_compute. in_list.
Defined.

(** X9.  The watcher handler stops at the first call that is answered
    with an error and returns that error as it is; the one error that
    it makes itself is that of an unexpected operation, before any
    call.  The one failed call that it forgives is the lookup of the
    plugin data of a deleted request that answers not-found, and that
    lookup is then its only call. *)
Theorem onWatcherEvent_stops_at_failure `{!Externals} S a event
    (w : world S) :
  let r := run S (App.onWatcherEvent a event) w in
  match outcome r with
  | Some err =>
      stopped_at err (trace r) ∨
      trace r = [] ∧ ∃ name, Event.Type_ event = OpOther name
  | None =>
      unfailed (trace r) ∨
      Event.Type_ event = OpDelete ∧
      ∃ e, trace_IsNotFound e = true ∧ verdicts (trace r) = [Some e] ∧
           calls (trace r) = [GetPluginData (Request.ID (Event.Request event))]
  end.
Proof.
  unfold_watcher. destruct (Event.Type_ event) eqn:Hop.
  all: explore S.
  all: cbn [outcome trace fst snd]; unfold stopped_at, unfailed, trace_Wrap.
  all: first
    [ left; count_calls
    | right; split; [reflexivity|]; eexists; reflexivity
    | right; split; [reflexivity|]; eexists; split; [eassumption|];
      split; reflexivity ].
Qed.

(** X10.  When the incident of a pending request was created and the
    update of the plugin data then fails, the handler returns the error
    of the update after those two calls.  The incident stays as it was
    created: no call resolves it, and no record of it was stored. *)
Theorem onWatcherEvent_incident_orphaned `{!Externals} S a event
    (w w1 w2 : world S) incident err :
  Event.Type_ event = OpPut →
  Request.State (Event.Request event) = StatePending →
  let req := Event.Request event in
  let store :=
    UpdatePluginData (Request.ID req)
      (EncodePluginData (pluginDataOf req incident)) None in
  reply S (incidentCall (App.bot a) req) w = (inr incident, w1) →
  reply S store w1 = (Some err, w2) →
  let r := run S (App.onWatcherEvent a event) w in
  outcome r = Some err ∧ final r = w2 ∧
  calls (trace r) = [incidentCall (App.bot a) req; store].
Proof.
  intros Hop Hstate req store Hcreate Hstore r. subst r store.
  unfold incidentCall, incidentOptions, pluginDataOf in *.
  unfold_watcher. fold req. rewrite Hop.
  rewrite bool_decide_eq_true_2 by assumption.
  cbn [negb]. run_step.
  simpl in Hcreate |- *. rewrite Hcreate. run_step.
  simpl in Hstore |- *. rewrite Hstore. repeat split.
Qed.

Lemma onWatcherEvent_incident_orphaned_witness :
  outcome (run Ref.services
             (@App.onWatcherEvent Ref.externals Sample.app
                (Sample.put (Sample.request1 StatePending)))
             (Faults.without Faults.is_update_plugin_data
                Sample.world1_noData))
    = Some Sample.unavailable ∧
  Ref.incidents
    (final (run Ref.services
              (@App.onWatcherEvent Ref.externals Sample.app
                 (Sample.put (Sample.request1 StatePending)))
              (Faults.without Faults.is_update_plugin_data
                 Sample.world1_noData)))
    = [ {| Incident.Id := "P0";
           Incident.IncidentKey := "teleport-access-request/R1";
           Incident.Status := "triggered" |} ] ∧
  Ref.pluginData
    (final (run Ref.services
              (@App.onWatcherEvent Ref.externals Sample.app
                 (Sample.put (Sample.request1 StatePending)))
              (Faults.without Faults.is_update_plugin_data
                 Sample.world1_noData)))
    = ∅.
Proof.
  destruct (@onWatcherEvent_incident_orphaned Ref.externals Ref.services
              Sample.app (Sample.put (Sample.request1 StatePending))
              (Faults.without Faults.is_update_plugin_data
                 Sample.world1_noData)
              _ _ _ Sample.unavailable eq_refl eq_refl eq_refl eq_refl)
    as (Hout & Hfinal & _).
  split; [exact Hout|]. rewrite Hfinal. split; reflexivity.
Defined.

(** X11.  The lookup of the plugin data of a deleted request that fails
    for another reason than not-found fails the deletion: the handler
    returns the error of the lookup after that one call, logs the two
    failure lines, and leaves the incident alone. *)
Theorem onWatcherEvent_delete_lookup_error `{!Externals} S a event
    (w w1 : world S) err :
  Event.Type_ event = OpDelete →
  let reqID := Request.ID (Event.Request event) in
  reply S (GetPluginData reqID) w = (inl err, w1) →
  trace_IsNotFound err = false →
  run S (App.onWatcherEvent a event) w
    = (Some err, w1,
       Called (GetPluginData reqID) (inl err)
       :: failureLines reqID err "Failed to process deleted request").
Proof.
  intros Hop reqID Hget Hnf. unfold_watcher. fold reqID. rewrite Hop.
  run_step. rewrite Hget. run_step. unfold trace_Wrap. rewrite Hnf.
  reflexivity.
Qed.

Lemma onWatcherEvent_delete_lookup_error_witness :
  run Ref.services
    (@App.onWatcherEvent Ref.externals Sample.app (Sample.deleted "R1"))
    (Faults.without Faults.is_get_plugin_data (Sample.world1 StatePending))
  = (Some Sample.unavailable,
     Faults.without Faults.is_get_plugin_data (Sample.world1 StatePending),
     Called (GetPluginData "R1") (inl Sample.unavailable)
     :: failureLines "R1" Sample.unavailable
          "Failed to process deleted request").
Proof.
  apply (@onWatcherEvent_delete_lookup_error Ref.externals Ref.services
           Sample.app (Sample.deleted "R1")).
  - reflexivity.
  - reflexivity.
  - reflexivity.
Defined.

(** ** The incident key, from the incident to the callback *)

Lemma Split_sep s sep :
  occurs sep s = true → ∃ p q rest, strings_Split s sep = p :: q :: rest.
Proof.
  induction s as [|c s IH]; simpl; [discriminate|].
  destruct (decide (c = sep)) as [->|Hc].
  - intros _. destruct (strings_Split s sep) as [|q rest] eqn:E.
    + destruct (Split_nonempty _ _ E).
    + eauto.
  - rewrite bool_decide_eq_false_2 by assumption. simpl.
    intros (p & q & rest & ->)%IH. eauto.
Qed.

Lemma onWatcherEvent_incident_key `{!Externals} S a event (w : world S)
    from o :
  CreateIncident from o
    ∈ calls (trace (run S (App.onWatcherEvent a event) w)) →
  CreateIncidentOptions.IncidentKey o
    = pdIncidentKeyPrefix +:+ "/" +:+ Request.ID (Event.Request event).
Proof.
  unfold_watcher. destruct (Event.Type_ event).
  all: explore S.
  all: cbn [trace calls omap snd]; simpl; intros Hin; not_in_list Hin.
  all: injection Hin as -> ->; reflexivity.
Qed.

(** X12.  The key under which the watcher handler files the incident of a
    request is the key that the webhook handler reads the request ID
    from.  The way back works for a request ID without slash: the
    callback that carries the key looks up that request first.  A
    request ID with a slash gives a key of more than two parts, and the
    callback that carries it is ignored: success, and no call. *)
Theorem incident_key_roundtrip `{!Externals} S a event action
    (w w' : world S) from o :
  CreateIncident from o
    ∈ calls (trace (run S (App.onWatcherEvent a event) w)) →
  WebhookAction.Event action = "incident.custom" →
  WebhookAction.IncidentKey action = CreateIncidentOptions.IncidentKey o →
  let reqID := Request.ID (Event.Request event) in
  let r := run S (App.onPagerdutyAction a action) w' in
  if occurs "/" reqID
  then outcome r = None ∧ final r = w' ∧ calls (trace r) = []
  else ∃ rest, calls (trace r) = GetRequest reqID :: rest.
Proof.
  intros Hin Hev Hkey reqID r. subst r.
  apply onWatcherEvent_incident_key in Hin. rewrite Hin in Hkey. fold reqID in Hkey.
  destruct (occurs "/" reqID) eqn:Hocc.
  - unfold App.onPagerdutyAction.
    rewrite (bool_decide_eq_false_2 (_ ≠ "incident.custom")) by tauto.
    rewrite Hkey.
    change (pdIncidentKeyPrefix +:+ "/" +:+ reqID)
      with (pdIncidentKeyPrefix +:+ String "/" reqID).
    rewrite Split_app by reflexivity.
    destruct (Split_sep _ _ Hocc) as (p & q & rest & ->).
    repeat split.
  - assert (Hwf : well_formed_key (WebhookAction.IncidentKey action) reqID)
      by (split; assumption).
    clear Hkey Hin.
    accept_action Hev Hwf. unfold App.getPluginData, Bot.ResolveIncident.
    explore S.
    all: eexists; reflexivity.
Qed.

Lemma incident_key_roundtrip_witness :
  outcome (run Ref.services
             (@App.onPagerdutyAction Ref.externals Sample.app
                Faults.action_slash)
             (Sample.world1 StatePending)) = None ∧
  final (run Ref.services
           (@App.onPagerdutyAction Ref.externals Sample.app
              Faults.action_slash)
           (Sample.world1 StatePending)) = Sample.world1 StatePending ∧
  calls (trace (run Ref.services
                  (@App.onPagerdutyAction Ref.externals Sample.app
                     Faults.action_slash)
                  (Sample.world1 StatePending))) = [].
Proof.
  apply (@incident_key_roundtrip Ref.externals Ref.services Sample.app
           (Sample.put Faults.request_slash) Faults.action_slash
           Sample.world1_noData (Sample.world1 StatePending)
           "bot@example.com"
           (@incidentOptions Ref.externals Sample.bot Faults.request_slash)).
  - vm_compute. in_list.
  - reflexivity.
  - reflexivity.
Defined.

(** * Properties of the provisioning against any service *)

Lemma verdicts_app tr1 tr2 : verdicts (tr1 ++ tr2) = verdicts tr1 ++ verdicts tr2.
Proof. unfold verdicts. apply omap_app. Qed.

Lemma unfailed_nil : unfailed [].
Proof. by exists 0%nat. Qed.

Lemma unfailed_app tr1 tr2 : unfailed tr1 → unfailed tr2 → unfailed (tr1 ++ tr2).
Proof.
  intros [n Hn] [m Hm]. exists (n + m)%nat.
  rewrite verdicts_app, Hn, Hm, replicate_add. reflexivity.
Qed.

Lemma stopped_at_app err tr1 tr2 :
  unfailed tr1 → stopped_at err tr2 → stopped_at err (tr1 ++ tr2).
Proof.
  intros [n Hn] [m Hm]. exists (n + m)%nat.
  rewrite verdicts_app, Hn, Hm, replicate_add, app_assoc. reflexivity.
Qed.

Lemma pageOffset_next (i : nat) :
  uint_add (pageOffset i) pdListLimit = pageOffset (S i).
Proof.
  unfold uint_add, pageOffset.
  rewrite Zplus_mod_idemp_l. f_equal. lia.
Qed.

Lemma verdicts_called c (r : Resp c) tr :
  verdicts (Called c r :: tr) = verdict r :: verdicts tr.
Proof. reflexivity. Qed.

Lemma loop_verdict_called {A} c (x : Resp c) (found : option (result A)) tr :
  verdict x = None →
  loop_verdict found tr → loop_verdict found (Called c x :: tr).
Proof.
  intros Hx. unfold loop_verdict.
  destruct found as [[err|a]|]; intros [m Hm]; exists (S m);
    rewrite verdicts_called, Hx, Hm; reflexivity.
Qed.

Lemma findWebhookSchema_trace srv fuel (k : nat) more id (w : world srv) :
  let r := run srv (Bot.findWebhookSchema fuel (pageOffset k) more id) w in
  ∃ n : nat,
    (n ≤ fuel)%nat ∧
    calls (trace r) = schemaPage <$> (pageOffset <$> seq k n) ∧
    loop_verdict (outcome r) (trace r).
Proof.
  revert k more id w.
  induction fuel as [|fuel IH]; intros k more id w;
    cbn [Bot.findWebhookSchema].
  - exists 0%nat.
    destruct (bool_decide (id = EmptyString) && more);
      (split; [lia|]; split; [reflexivity|]; apply unfailed_nil).
  - destruct (bool_decide (id = EmptyString) && more).
    + run_step. fold (schemaPage (pageOffset k)).
      destruct (reply srv (schemaPage (pageOffset k)) w) as [[err|resp] w1].
      * exists 1%nat. split; [lia|]. split; [reflexivity|].
        by exists 0%nat.
      * rewrite pageOffset_next.
        specialize (IH (S k) (ListExtensionSchemaResponse.More resp)
                      (Bot.scanSchemas
                         (ListExtensionSchemaResponse.ExtensionSchemas resp)
                         id) w1).
        cbv zeta in IH.
        destruct (run srv _ w1) as [[found w2] tr].
        destruct IH as (n & Hn & Hcalls & Hverdict).
        exists (S n). split; [lia|]. split.
        -- cbn [trace snd calls omap] in Hcalls |- *. simpl.
           f_equal. exact Hcalls.
        -- cbn [outcome trace fst snd] in Hverdict |- *.
           apply loop_verdict_called; [reflexivity | exact Hverdict].
    + exists 0%nat. split; [lia|]. split; [reflexivity|]. apply unfailed_nil.
Qed.

Lemma findExtensions_trace srv b schemaID fuel (k : nat) more ids
    (w : world srv) :
  let r := run srv (Bot.findExtensions b schemaID fuel (pageOffset k) more ids)
             w in
  ∃ n : nat,
    (n ≤ fuel)%nat ∧
    calls (trace r) = extensionPage b schemaID <$> (pageOffset <$> seq k n) ∧
    loop_verdict (outcome r) (trace r).
Proof.
  revert k more ids w.
  induction fuel as [|fuel IH]; intros k more ids w;
    cbn [Bot.findExtensions].
  - exists 0%nat.
    destruct ((bool_decide (ids.1 = EmptyString)
               || bool_decide (ids.2 = EmptyString)) && more);
      (split; [lia|]; split; [reflexivity|]; apply unfailed_nil).
  - destruct ((bool_decide (ids.1 = EmptyString)
               || bool_decide (ids.2 = EmptyString)) && more).
    + run_step. fold (extensionPage b schemaID (pageOffset k)).
      destruct (reply srv (extensionPage b schemaID (pageOffset k)) w)
        as [[err|resp] w1].
      * exists 1%nat. split; [lia|]. split; [reflexivity|].
        by exists 0%nat.
      * rewrite pageOffset_next.
        specialize (IH (S k) (ListExtensionResponse.More resp)
                      (Bot.scanExtensions
                         (ListExtensionResponse.Extensions resp) ids) w1).
        cbv zeta in IH.
        destruct (run srv _ w1) as [[found w2] tr].
        destruct IH as (n & Hn & Hcalls & Hverdict).
        exists (S n). split; [lia|]. split.
        -- cbn [trace snd calls omap] in Hcalls |- *. simpl.
           f_equal. exact Hcalls.
        -- cbn [outcome trace fst snd] in Hverdict |- *.
           apply loop_verdict_called; [reflexivity | exact Hverdict].
    + exists 0%nat. split; [lia|]. split; [reflexivity|]. apply unfailed_nil.
Qed.

Lemma setupCustomAction_trace srv b id schemaID actionName actionLabel
    (w : world srv) :
  let r := run srv (Bot.setupCustomAction b id schemaID actionName actionLabel)
             w in
  calls (trace r)
    = [upsertCall id (customAction b schemaID actionName actionLabel)] ∧
  verdicts (trace r) = [outcome r].
Proof.
  unfold Bot.setupCustomAction, upsertCall.
  fold (customAction b schemaID actionName actionLabel).
  destruct (bool_decide (id = EmptyString)); run_step.
  - destruct (reply srv _ w) as [[err|x] w1]; split; reflexivity.
  - destruct (reply srv _ w) as [[err|x] w1]; split; reflexivity.
Qed.

(** The run of the provisioning, step by step. *)
Lemma Setup_run srv b fuel (w : world srv) :
  run srv (Bot.Setup b fuel) w =
    let '(found, w1, trS) :=
      run srv (Bot.findWebhookSchema fuel 0 true EmptyString) w in
    match found with
    | None => (None, w1, trS)
    | Some (inl err) => (Some (Some err), w1, trS)
    | Some (inr schemaID) =>
        if bool_decide (schemaID = EmptyString) then
          (Some (Some schemaMissing), w1, trS)
        else
          let '(found, w2, trE) :=
            run srv (Bot.findExtensions b schemaID fuel 0 true
                     (EmptyString, EmptyString)) w1 in
          match found with
          | None => (None, w2, trS ++ trE)
          | Some (inl err) => (Some (Some err), w2, trS ++ trE)
          | Some (inr (approveExtID, denyExtID)) =>
              let '(e1, w3, tr1) :=
                run srv (Bot.setupCustomAction b approveExtID schemaID
                         pdApproveAction pdApproveActionLabel) w2 in
              match e1 with
              | Some err => (Some (Some err), w3, trS ++ trE ++ tr1)
              | None =>
                  let '(e2, w4, tr2) :=
                    run srv (Bot.setupCustomAction b denyExtID schemaID
                             pdDenyAction pdDenyActionLabel) w3 in
                  (Some e2, w4, trS ++ trE ++ tr1 ++ tr2)
              end
          end
    end.
Proof.
  unfold Bot.Setup. rewrite run_bind.
  destruct (run srv (Bot.findWebhookSchema fuel 0 true EmptyString) w)
    as [[[[err|schemaID]|] w1] trS].
  - simpl. rewrite app_nil_r. reflexivity.
  - destruct (bool_decide (schemaID = EmptyString)).
    + simpl. rewrite app_nil_r. reflexivity.
    + rewrite run_bind.
      destruct (run srv (Bot.findExtensions b schemaID fuel 0 true
                         (EmptyString, EmptyString)) w1)
        as [[[[err|[approveExtID denyExtID]]|] w2] trE].
      * simpl. rewrite app_nil_r. reflexivity.
      * rewrite run_bind.
        destruct (run srv (Bot.setupCustomAction b approveExtID schemaID
                           pdApproveAction pdApproveActionLabel) w2)
          as [[[err|] w3] tr1].
        -- simpl. rewrite app_nil_r. reflexivity.
        -- rewrite run_bind.
           destruct (run srv (Bot.setupCustomAction b denyExtID schemaID
                              pdDenyAction pdDenyActionLabel) w3)
             as [[[err|] w4] tr2]; simpl; rewrite app_nil_r; reflexivity.
      * simpl. rewrite app_nil_r. reflexivity.
  - simpl. rewrite app_nil_r. reflexivity.
Qed.

(** X13.  The calls of the provisioning, whatever the service answers and
    however far the run gets.  First come pages of the schema listing,
    then pages of the extension listing of the bot's service under one
    schema, each of 60 entries and at the offsets 0, 60, 120, ... (in
    64-bit arithmetic); then at most two upserts, that of the approve
    action before that of the deny action, both under that schema.  The
    schema is not the empty one once a call names it, and a run that
    succeeds has made both upserts.  No other call is made. *)
Theorem Setup_calls_shape srv b fuel (w : world srv) :
  let r := run srv (Bot.Setup b fuel) w in
  ∃ (n m : nat) schemaID approveExtID denyExtID rest,
    calls (trace r)
      = (schemaPage <$> (pageOffset <$> seq 0 n))
        ++ (extensionPage b schemaID <$> (pageOffset <$> seq 0 m))
        ++ rest ∧
    rest `prefix_of`
      [upsertCall approveExtID
         (customAction b schemaID pdApproveAction pdApproveActionLabel);
       upsertCall denyExtID
         (customAction b schemaID pdDenyAction pdDenyActionLabel)] ∧
    (n ≤ fuel)%nat ∧ (m ≤ fuel)%nat ∧
    (m ≠ 0%nat ∨ rest ≠ [] → schemaID ≠ EmptyString) ∧
    (outcome r = Some None → length rest = 2%nat).
Proof.
  intros r. subst r. rewrite Setup_run.
  pose proof (findWebhookSchema_trace srv fuel 0 true EmptyString w) as HS.
  change (pageOffset 0) with 0 in HS. cbv zeta in HS.
  destruct (run srv (Bot.findWebhookSchema fuel 0 true EmptyString) w)
    as [[found w1] trS].
  destruct HS as (n & Hn & HcS & _). cbn [trace snd] in HcS.
  assert (Hstop : ∀ (o : option (option error)) (w' : world srv),
            o ≠ Some None →
            ∃ (n m : nat) schemaID approveExtID denyExtID rest,
              calls (trace (o, w', trS))
                = (schemaPage <$> (pageOffset <$> seq 0 n))
                  ++ (extensionPage b schemaID <$> (pageOffset <$> seq 0 m))
                  ++ rest ∧
              rest `prefix_of`
                [upsertCall approveExtID
                   (customAction b schemaID pdApproveAction
                      pdApproveActionLabel);
                 upsertCall denyExtID
                   (customAction b schemaID pdDenyAction pdDenyActionLabel)] ∧
              (n ≤ fuel)%nat ∧ (m ≤ fuel)%nat ∧
              (m ≠ 0%nat ∨ rest ≠ [] → schemaID ≠ EmptyString) ∧
              (outcome (o, w', trS) = Some None → length rest = 2%nat)).
  { intros o w' Ho. exists n, 0%nat, EmptyString, EmptyString, EmptyString, [].
    cbn [trace outcome fst snd]. rewrite HcS. simpl. rewrite app_nil_r.
    split; [reflexivity|]. split; [apply prefix_nil|].
    split; [exact Hn|]. split; [lia|].
    split; [intros [?|?]; congruence | intros; congruence]. }
  destruct found as [[err|schemaID]|]; try (apply Hstop; discriminate).
  case_bool_decide as Hschema; [apply Hstop; discriminate|]. clear Hstop.
  pose proof (findExtensions_trace srv b schemaID fuel 0 true
                (EmptyString, EmptyString) w1) as HE.
  change (pageOffset 0) with 0 in HE. cbv zeta in HE.
  destruct (run srv (Bot.findExtensions b schemaID fuel 0 true
                       (EmptyString, EmptyString)) w1)
    as [[found w2] trE].
  destruct HE as (m & Hm & HcE & _). cbn [trace snd] in HcE.
  destruct found as [[err|[approveExtID denyExtID]]|].
  - exists n, m, schemaID, EmptyString, EmptyString, [].
    cbn [trace outcome fst snd]. rewrite calls_app, HcS, HcE, app_nil_r.
    split; [reflexivity|]. split; [apply prefix_nil|].
    split; [exact Hn|]. split; [exact Hm|].
    split; [intros _; exact Hschema | discriminate].
  - pose proof (setupCustomAction_trace srv b approveExtID schemaID
                  pdApproveAction pdApproveActionLabel w2) as H1.
    cbv zeta in H1.
    destruct (run srv (Bot.setupCustomAction b approveExtID schemaID
                         pdApproveAction pdApproveActionLabel) w2)
      as [[e1 w3] tr1].
    destruct H1 as [Hc1 _]. cbn [trace snd] in Hc1.
    destruct e1 as [err|].
    + exists n, m, schemaID, approveExtID, denyExtID,
        [upsertCall approveExtID
           (customAction b schemaID pdApproveAction pdApproveActionLabel)].
      cbn [trace outcome fst snd]. rewrite !calls_app, HcS, HcE, Hc1.
      split; [reflexivity|].
      split; [apply prefix_cons, prefix_nil|].
      split; [exact Hn|]. split; [exact Hm|].
      split; [intros _; exact Hschema | discriminate].
    + pose proof (setupCustomAction_trace srv b denyExtID schemaID
                    pdDenyAction pdDenyActionLabel w3) as H2.
      cbv zeta in H2.
      destruct (run srv (Bot.setupCustomAction b denyExtID schemaID
                           pdDenyAction pdDenyActionLabel) w3)
        as [[e2 w4] tr2].
      destruct H2 as [Hc2 _]. cbn [trace snd] in Hc2.
      exists n, m, schemaID, approveExtID, denyExtID,
        [upsertCall approveExtID
           (customAction b schemaID pdApproveAction pdApproveActionLabel);
         upsertCall denyExtID
           (customAction b schemaID pdDenyAction pdDenyActionLabel)].
      cbn [trace outcome fst snd]. rewrite !calls_app, HcS, HcE, Hc1, Hc2.
      split; [reflexivity|]. split; [reflexivity|].
      split; [exact Hn|]. split; [exact Hm|].
      split; [intros _; exact Hschema | reflexivity].
  - exists n, m, schemaID, EmptyString, EmptyString, [].
    cbn [trace outcome fst snd]. rewrite calls_app, HcS, HcE, app_nil_r.
    split; [reflexivity|]. split; [apply prefix_nil|].
    split; [exact Hn|]. split; [exact Hm|].
    split; [intros _; exact Hschema | discriminate].
Qed.

(** X14.  The provisioning stops at the first call that is answered with
    an error and returns that error as it is.  The one error of its own
    is that of the missing schema, returned after schema pages that
    were all answered and before any other call.  A run that succeeds,
    and a run that is cut short, have had every call answered. *)
Theorem Setup_stops_at_failure srv b fuel (w : world srv) :
  let r := run srv (Bot.Setup b fuel) w in
  match outcome r with
  | Some (Some err) =>
      stopped_at err (trace r) ∨
      err = schemaMissing ∧ unfailed (trace r) ∧
      ∃ n : nat, calls (trace r) = schemaPage <$> (pageOffset <$> seq 0 n)
  | _ => unfailed (trace r)
  end.
Proof.
  intros r. subst r. rewrite Setup_run.
  pose proof (findWebhookSchema_trace srv fuel 0 true EmptyString w) as HS.
  change (pageOffset 0) with 0 in HS. cbv zeta in HS.
  destruct (run srv (Bot.findWebhookSchema fuel 0 true EmptyString) w)
    as [[found w1] trS].
  destruct HS as (n & _ & HcS & HvS). cbn [trace outcome fst snd] in HcS, HvS.
  destruct found as [[err|schemaID]|]; cbn [loop_verdict] in HvS.
  - left. exact HvS.
  - case_bool_decide as Hschema.
    { right. split; [reflexivity|]. split; [exact HvS|]. exists n. exact HcS. }
    pose proof (findExtensions_trace srv b schemaID fuel 0 true
                  (EmptyString, EmptyString) w1) as HE.
    change (pageOffset 0) with 0 in HE. cbv zeta in HE.
    destruct (run srv (Bot.findExtensions b schemaID fuel 0 true
                         (EmptyString, EmptyString)) w1)
      as [[found w2] trE].
    destruct HE as (m & _ & _ & HvE). cbn [trace outcome fst snd] in HvE.
    destruct found as [[err|[approveExtID denyExtID]]|];
      cbn [loop_verdict] in HvE.
    + left. apply stopped_at_app; assumption.
    + pose proof (setupCustomAction_trace srv b approveExtID schemaID
                    pdApproveAction pdApproveActionLabel w2) as H1.
      cbv zeta in H1.
      destruct (run srv (Bot.setupCustomAction b approveExtID schemaID
                           pdApproveAction pdApproveActionLabel) w2)
        as [[e1 w3] tr1].
      destruct H1 as [_ Hv1]. cbn [trace outcome fst snd] in Hv1.
      destruct e1 as [err|].
      * left. cbn [trace snd]. apply stopped_at_app; [assumption|].
        apply stopped_at_app; [assumption|]. by exists 0%nat.
      * pose proof (setupCustomAction_trace srv b denyExtID schemaID
                      pdDenyAction pdDenyActionLabel w3) as H2.
        cbv zeta in H2.
        destruct (run srv (Bot.setupCustomAction b denyExtID schemaID
                             pdDenyAction pdDenyActionLabel) w3)
          as [[e2 w4] tr2].
        destruct H2 as [_ Hv2]. cbn [trace outcome fst snd] in Hv2 |- *.
        assert (Hu1 : unfailed tr1) by by exists 1%nat.
        destruct e2 as [err|].
        -- left. do 3 (apply stopped_at_app; [assumption|]). by exists 0%nat.
        -- do 3 (apply unfailed_app; [assumption|]). by exists 1%nat.
    + cbn [outcome trace fst snd]. apply unfailed_app; assumption.
  - exact HvS.
Qed.

Lemma scanSchemas_none l id :
  (∀ s, s ∈ l → ExtensionSchema.Key s ≠ "custom_webhook") →
  Bot.scanSchemas l id = id.
Proof.
  intros Hnone.
  destruct (scanSchemas_found l id) as [H|(s & Hs & Hkey & _)];
    [exact H|].
  destruct (Hnone s Hs Hkey).
Qed.

(** X15.  The first loop of the provisioning has no bound of its own.
    Against a service whose schema listing always announces more pages
    and never shows the schema of custom incident actions, the run
    spends whatever number of pages it is given on schema pages, at the
    offsets 0, 60, 120, ..., and still wants one more: it does not
    return. *)
Theorem Setup_never_ends srv b fuel (w : world srv) :
  (∀ o (w0 : world srv), ∃ resp w1,
     reply srv (ListExtensionSchemas o) w0 = (inr resp, w1) ∧
     ListExtensionSchemaResponse.More resp = true ∧
     ∀ s, s ∈ ListExtensionSchemaResponse.ExtensionSchemas resp →
          ExtensionSchema.Key s ≠ "custom_webhook") →
  let r := run srv (Bot.Setup b fuel) w in
  outcome r = None ∧
  calls (trace r) = schemaPage <$> (pageOffset <$> seq 0 fuel).
Proof.
  intros Hsrv r. subst r. rewrite Setup_run.
  assert (Hloop : ∀ fuel (k : nat) (w0 : world srv),
            let r := run srv (Bot.findWebhookSchema fuel (pageOffset k) true
                                EmptyString) w0 in
            outcome r = None ∧
            calls (trace r) = schemaPage <$> (pageOffset <$> seq k fuel)).
  { clear w fuel. induction fuel as [|fuel IH]; intros k w0.
    - split; reflexivity.
    - cbn [Bot.findWebhookSchema]. cbn [bool_decide andb].
      rewrite bool_decide_eq_true_2 by reflexivity. cbn [andb].
      run_step.
      destruct (Hsrv {| APIListObject.Offset := pageOffset k;
                        APIListObject.Limit := pdListLimit;
                        APIListObject.More := false |} w0)
        as (resp & w1 & Hreply & Hmore & Hnone).
      rewrite Hreply. cbv beta iota. rewrite Hmore.
      rewrite scanSchemas_none by exact Hnone. rewrite pageOffset_next.
      specialize (IH (S k) w1). cbv zeta in IH.
      destruct (run srv (Bot.findWebhookSchema fuel (pageOffset (S k)) true
                           EmptyString) w1) as [[found w2] tr].
      destruct IH as [Hout Hcalls]. cbn [outcome trace fst snd] in *.
      split; [exact Hout|]. simpl. f_equal. exact Hcalls. }
  specialize (Hloop fuel 0%nat w). change (pageOffset 0) with 0 in Hloop.
  cbv zeta in Hloop.
  destruct (run srv (Bot.findWebhookSchema fuel 0 true EmptyString) w)
    as [[found w1] trS].
  destruct Hloop as [Hout Hcalls]. cbn [outcome trace fst snd] in Hout, Hcalls.
  subst found. split; [reflexivity | exact Hcalls].
Qed.

Lemma Setup_never_ends_witness :
  outcome (run Faults.endless (Bot.Setup Sample.bot 3) tt) = None ∧
  calls (trace (run Faults.endless (Bot.Setup Sample.bot 3) tt))
    = schemaPage <$> (pageOffset <$> seq 0 3).
Proof.
  apply (Setup_never_ends Faults.endless Sample.bot 3 tt).
  intros o w0. eexists _, _. split; [reflexivity|].
  split; [reflexivity|]. intros s Hs. apply elem_of_nil in Hs. destruct Hs.
Defined.

(** X16.  A service whose first page of schemas is the last one and holds
    no schema of custom incident actions fails the provisioning with
    the not-found error of the missing schema, after that one call: no
    extension is listed, created or updated. *)
Theorem Setup_schema_missing srv b fuel (w w1 : world srv) resp :
  (0 < fuel)%nat →
  reply srv (schemaPage 0) w = (inr resp, w1) →
  ListExtensionSchemaResponse.More resp = false →
  (∀ s, s ∈ ListExtensionSchemaResponse.ExtensionSchemas resp →
        ExtensionSchema.Key s ≠ "custom_webhook") →
  run srv (Bot.Setup b fuel) w
    = (Some (Some schemaMissing), w1, [Called (schemaPage 0) (inr resp)]) ∧
  trace_IsNotFound schemaMissing = true.
Proof.
  intros Hfuel Hreply Hmore Hnone. split; [|reflexivity].
  rewrite Setup_run. destruct fuel as [|fuel]; [lia|].
  cbn [Bot.findWebhookSchema].
  rewrite bool_decide_eq_true_2 by reflexivity. cbn [andb].
  run_step. unfold schemaPage in Hreply. rewrite Hreply. cbv beta iota.
  rewrite Hmore. rewrite scanSchemas_none by exact Hnone.
  destruct fuel; reflexivity.
Qed.

Lemma Setup_schema_missing_witness :
  run Ref.services (Bot.Setup Sample.bot 1) (Sample.world1 StatePending)
    = (Some (Some schemaMissing), Sample.world1 StatePending,
       [Called (schemaPage 0)
          (inr {| ListExtensionSchemaResponse.List_ := {|
                    APIListObject.Limit := 60;
                    APIListObject.Offset := 0;
                    APIListObject.More := false |};
                  ListExtensionSchemaResponse.ExtensionSchemas := [] |})]) ∧
  trace_IsNotFound schemaMissing = true.
Proof.
  apply (Setup_schema_missing Ref.services Sample.bot 1
           (Sample.world1 StatePending)).
  - lia.
  - reflexivity.
  - reflexivity.
  - intros s Hs. apply elem_of_nil in Hs. destruct Hs.
Defined.

Lemma calls_called c (r : Resp c) tr : calls (Called c r :: tr) = c :: calls tr.
Proof. reflexivity. Qed.

Lemma findWebhookSchema_done srv fuel offset more id (w : world srv) :
  id ≠ EmptyString →
  run srv (Bot.findWebhookSchema fuel offset more id) w
    = (Some (inr id), w, []).
Proof.
  intros Hid. destruct fuel; cbn [Bot.findWebhookSchema];
    rewrite bool_decide_eq_false_2 by assumption; reflexivity.
Qed.

(** X17.  The schema loop of the provisioning stops at the first page
    that shows a schema of custom incident actions with an identifier,
    whether or not the page announces more: the page at offset 0 is
    then the only schema page of the run, and every call after it is
    made under the identifier that the scan of that page ends on. *)
Theorem Setup_schema_first_page srv b fuel (w w1 : world srv) resp :
  (0 < fuel)%nat →
  reply srv (schemaPage 0) w = (inr resp, w1) →
  let schemaID :=
    Bot.scanSchemas (ListExtensionSchemaResponse.ExtensionSchemas resp)
      EmptyString in
  schemaID ≠ EmptyString →
  ∃ (m : nat) approveExtID denyExtID rest,
    calls (trace (run srv (Bot.Setup b fuel) w))
      = schemaPage 0
        :: (extensionPage b schemaID <$> (pageOffset <$> seq 0 m))
        ++ rest ∧
    rest `prefix_of`
      [upsertCall approveExtID
         (customAction b schemaID pdApproveAction pdApproveActionLabel);
       upsertCall denyExtID
         (customAction b schemaID pdDenyAction pdDenyActionLabel)].
Proof.
  intros Hfuel Hreply schemaID Hschema.
  rewrite Setup_run. destruct fuel as [|fuel]; [lia|].
  cbn [Bot.findWebhookSchema].
  rewrite bool_decide_eq_true_2 by reflexivity. cbn [andb].
  run_step. unfold schemaPage in Hreply. rewrite Hreply. cbv beta iota.
  fold schemaID. rewrite findWebhookSchema_done by assumption.
  rewrite bool_decide_eq_false_2 by assumption.
  pose proof (findExtensions_trace srv b schemaID (S fuel) 0 true
                (EmptyString, EmptyString) w1) as HE.
  change (pageOffset 0) with 0 in HE. cbv zeta in HE.
  destruct (run srv (Bot.findExtensions b schemaID (S fuel) 0 true
                       (EmptyString, EmptyString)) w1)
    as [[found w2] trE].
  destruct HE as (m & _ & HcE & _). cbn [trace snd] in HcE.
  fold (schemaPage 0).
  destruct found as [[err|[approveExtID denyExtID]]|].
  - exists m, EmptyString, EmptyString, [].
    cbn [trace snd app]. rewrite calls_called.
    rewrite HcE, app_nil_r. split; [reflexivity | apply prefix_nil].
  - pose proof (setupCustomAction_trace srv b approveExtID schemaID
                  pdApproveAction pdApproveActionLabel w2) as H1.
    cbv zeta in H1.
    destruct (run srv (Bot.setupCustomAction b approveExtID schemaID
                         pdApproveAction pdApproveActionLabel) w2)
      as [[e1 w3] tr1].
    destruct H1 as [Hc1 _]. cbn [trace snd] in Hc1.
    destruct e1 as [err|].
    + exists m, approveExtID, denyExtID,
        [upsertCall approveExtID
           (customAction b schemaID pdApproveAction pdApproveActionLabel)].
      cbn [trace snd app]. rewrite calls_called.
      rewrite calls_app, HcE, Hc1.
      split; [reflexivity | apply prefix_cons, prefix_nil].
    + pose proof (setupCustomAction_trace srv b denyExtID schemaID
                    pdDenyAction pdDenyActionLabel w3) as H2.
      cbv zeta in H2.
      destruct (run srv (Bot.setupCustomAction b denyExtID schemaID
                           pdDenyAction pdDenyActionLabel) w3)
        as [[e2 w4] tr2].
      destruct H2 as [Hc2 _]. cbn [trace snd] in Hc2.
      exists m, approveExtID, denyExtID,
        [upsertCall approveExtID
           (customAction b schemaID pdApproveAction pdApproveActionLabel);
         upsertCall denyExtID
           (customAction b schemaID pdDenyAction pdDenyActionLabel)].
      cbn [trace snd app]. rewrite calls_called.
      rewrite !calls_app, HcE, Hc1, Hc2.
      split; reflexivity.
  - exists m, EmptyString, EmptyString, [].
    cbn [trace snd app]. rewrite calls_called.
    rewrite HcE, app_nil_r. split; [reflexivity | apply prefix_nil].
Qed.

Lemma Setup_schema_first_page_witness :
  ∃ (m : nat) approveExtID denyExtID rest,
    calls (trace (run Ref.services (Bot.Setup Sample.bot 4) Sample.worldP))
      = schemaPage 0
        :: (extensionPage Sample.bot "SCH1" <$> (pageOffset <$> seq 0 m))
        ++ rest ∧
    rest `prefix_of`
      [upsertCall approveExtID
         (customAction Sample.bot "SCH1" pdApproveAction
            pdApproveActionLabel);
       upsertCall denyExtID
         (customAction Sample.bot "SCH1" pdDenyAction pdDenyActionLabel)].
Proof.
  apply (Setup_schema_first_page Ref.services Sample.bot 4 Sample.worldP
           Sample.worldP
           {| ListExtensionSchemaResponse.List_ := {|
                APIListObject.Limit := 60;
                APIListObject.Offset := 0;
                APIListObject.More := false |};
              ListExtensionSchemaResponse.ExtensionSchemas :=
                Ref.schemas Sample.worldP |}).
  - lia.
  - reflexivity.
  - discriminate.
Defined.

(** X18.  The two scans of a page keep the last match, not the first.
    The schema scan ends on the identifier of the last schema of the
    page with the key "custom_webhook", and on what it started from
    when the page has none; the extension scan does the same for either
    label, each on its own. *)
Theorem scan_last_wins schemas exts id ids :
  Bot.scanSchemas schemas id
    = default id
        (last (ExtensionSchema.ID <$>
               filter (λ s, ExtensionSchema.Key s = "custom_webhook")
                 schemas)) ∧
  Bot.scanExtensions exts ids
    = (default ids.1
         (last (Extension.ID <$>
                filter (λ x, Extension.Name x = pdApproveActionLabel) exts)),
       default ids.2
         (last (Extension.ID <$>
                filter (λ x, Extension.Name x = pdDenyActionLabel) exts))).
Proof.
  split.
  - induction schemas as [|x l IH] using rev_ind; [reflexivity|].
    unfold Bot.scanSchemas in *. rewrite foldl_app, filter_app, fmap_app.
    simpl. rewrite filter_cons, filter_nil.
    case_bool_decide as Hkey.
    + rewrite decide_True by assumption. simpl. rewrite last_snoc.
      reflexivity.
    + rewrite decide_False by assumption. simpl. rewrite app_nil_r.
      exact IH.
  - induction exts as [|x l IH] using rev_ind.
    { destruct ids. reflexivity. }
    rewrite scanExtensions_snoc, IH. rewrite !filter_app, !fmap_app.
    rewrite !filter_cons, !filter_nil. cbn [fst snd].
    repeat case_bool_decide.
    all: repeat first [rewrite decide_True by assumption
                      | rewrite decide_False by assumption].
    all: simpl; rewrite ?last_snoc, ?app_nil_r; reflexivity.
Qed.

Lemma Setup_returns_witness :
  is_Some (outcome (run Ref.services (Bot.Setup Sample.bot 4) Sample.worldP)).
Proof.
  apply (Setup_returns Sample.bot 4 Sample.worldP).
  - reflexivity.
  - simpl. lia.
  - simpl. lia.
  - lia.
Defined.

(** * Properties of the start of the application *)

Lemma exec_bind H {A B} (p : Startup.Boot A) (f : A → Startup.Boot B) s :
  Startup.exec H (p ≫= f) s =
    let '(a, s1, tr1) := Startup.exec H p s in
    let '(b, s2, tr2) := Startup.exec H (f a) s1 in
    (b, s2, tr1 ++ tr2).
Proof.
  revert s. induction p as [a | o k IH | l k IH]; intros s; simpl.
  - destruct (Startup.exec H (f a) s) as [[b s2] tr2]. reflexivity.
  - destruct (Startup.answer H o s) as [r s1]. specialize (IH r s1).
    unfold mbind in IH. rewrite IH.
    destruct (Startup.exec H (k r) s1) as [[a s2] tr1].
    destruct (Startup.exec H (f a) s2) as [[b s3] tr2]. reflexivity.
  - specialize (IH s). unfold mbind in IH. rewrite IH.
    destruct (Startup.exec H k s) as [[a s1] tr1].
    destruct (Startup.exec H (f a) s1) as [[b s2] tr2]. reflexivity.
Qed.

Lemma exec_lift H {A} (p : Prog A) s :
  Startup.exec H (Startup.lift p) s =
    let '(a, s1, tr) := run (Startup.services H) p s in
    (a, s1, Startup.lifted <$> tr).
Proof.
  revert s. induction p as [a | c k IH | l k IH]; intros s; simpl.
  - reflexivity.
  - destruct (Startup.answer H (Startup.Remote c) s) as [r s1].
    rewrite IH. destruct (run (Startup.services H) (k r) s1) as [[a s2] tr].
    reflexivity.
  - rewrite IH. destruct (run (Startup.services H) k s) as [[a s1] tr].
    reflexivity.
Qed.

Lemma ops_app tr1 tr2 :
  Startup.ops (tr1 ++ tr2) = Startup.ops tr1 ++ Startup.ops tr2.
Proof. unfold Startup.ops. apply omap_app. Qed.

Lemma ops_lifted tr :
  Startup.ops (Startup.lifted <$> tr) = Startup.Remote <$> calls tr.
Proof.
  induction tr as [|[c r|l] tr IH]; simpl; [reflexivity| |exact IH].
  f_equal. exact IH.
Qed.

Lemma ops_performed o (r : Startup.Ans o) tr :
  Startup.ops (Startup.Performed o r :: tr) = o :: Startup.ops tr.
Proof. reflexivity. Qed.

Lemma ops_said l tr : Startup.ops (Startup.Said l :: tr) = Startup.ops tr.
Proof. reflexivity. Qed.

Ltac boot_step :=
  cbn [mbind mret Startup.Boot_mbind Startup.Boot_mret Startup.Boot_bind
       Startup.perform Startup.say Startup.exec].

(** Follows a run of the start down every branch, up to the
    provisioning. *)
Ltac boot_explore H :=
  repeat first
    [ progress boot_step
    | progress cbn [negb andb orb fmap option_fmap option_map]
    | match goal with
      | |- context [Startup.answer H ?o ?s] =>
          let r := fresh "r" in
          let s' := fresh "s" in
          let E := fresh "Hanswer" in
          destruct (Startup.answer H o s) as [r s'] eqn:E;
          cbn [Startup.Ans] in r; destruct r
      | |- context [match ?x with Some _ => _ | None => _ end] =>
          is_var x; destruct x
      | |- context [if ?b then _ else _] =>
          lazymatch b with
          | Startup.IsInvalidCertificate _ => idtac
          | Startup.trace_IsNotImplemented _ => idtac
          end;
          let E := fresh "Htest" in destruct b eqn:E
      | |- context [Startup.AssertServerVersion ?p] =>
          let E := fresh "Hversion" in
          destruct (Startup.AssertServerVersion p) eqn:E
      end ].

Lemma serve_ops `{!Startup.Environment} host conf fuel srv tlsConf
    (s : Startup.state host) :
  let bot := Startup.NewBot (Config.Pagerduty conf) srv in
  let r := Startup.exec host (Startup.serve conf fuel bot tlsConf) s in
  ∃ name s' ready,
    Startup.ops (Startup.events r)
      `prefix_of`
      serveOps conf tlsConf
        (calls (trace (run (Startup.services host)
                         (Bot.Setup (Startup.setClusterName bot name) fuel)
                         s')))
        ready.
Proof.
  intros bot r. subst r. unfold Startup.serve, Startup.checkTeleportVersion,
    Startup.HealthCheck, serveOps.
  boot_explore host.
  all: try (exists EmptyString, s, true; cbn [Startup.events snd];
            rewrite ?ops_performed, ?ops_said; simpl;
            repeat first [apply prefix_nil | apply prefix_cons]; fail).
  rewrite exec_bind, exec_lift.
  match goal with |- context [run (Startup.services host) ?p ?s1] =>
    match p with
    | Bot.Setup (Startup.setClusterName _ ?name) _ =>
        exists name, s1;
        destruct (run (Startup.services host) p s1) as [[[[err|]|] sP] trP]
    end
  end.
  all: boot_explore host.
  all: eexists; cbn [Startup.events snd trace];
    rewrite ?ops_performed, ?ops_said, ?ops_app, ?ops_lifted; simpl;
    repeat apply prefix_cons;
    rewrite ?ops_performed, ?ops_said, ?ops_app, ?ops_lifted; simpl;
    apply prefix_app;
    repeat first [apply prefix_nil | apply prefix_cons].
  Unshelve. all: exact true.
Qed.

(** A run of the start ends before the client is made, or goes on from
    the client. *)
Lemma run_serve `{!Startup.Environment} host conf fuel
    (s : Startup.state host) :
  let r := Startup.exec host (Startup.run conf fuel) s in
  (∃ b err, Startup.returned r = Some (b, Some err) ∧
     Startup.ops (Startup.events r)
       `prefix_of` [Startup.NewWebhookServer;
                    Startup.LoadTLSConfig
                      (TeleportConfig.ClientCrt (Config.Teleport conf))
                      (TeleportConfig.ClientKey (Config.Teleport conf))
                      (TeleportConfig.RootCAs (Config.Teleport conf))] ∧
     Forall (λ e, pingAnswer e = None ∧ serviceAnswer e = None)
       (Startup.events r)) ∨
  (∃ srv tlsConf loadErr s2,
     (∀ err, loadErr = Some err → Startup.IsInvalidCertificate err = true) ∧
     r = let '(a, s3, tr) :=
           Startup.exec host
             (Startup.serve conf fuel
                (Startup.NewBot (Config.Pagerduty conf) srv) tlsConf) s2 in
         (a, s3, runHead conf srv tlsConf loadErr ++ tr)).
Proof.
  intros r. subst r. unfold Startup.run, runHead. boot_step.
  destruct (Startup.answer host Startup.NewWebhookServer s)
    as [[err|srv] s1].
  { left. exists None, err. split; [reflexivity|].
    split; [apply prefix_cons, prefix_nil | repeat constructor]. }
  boot_step.
  destruct (Startup.answer host _ s1) as [[tlsConf [err|]] s2].
  - destruct (Startup.IsInvalidCertificate err) eqn:Hinvalid.
    + right. exists srv, tlsConf, (Some err), s2.
      split; [intros ? [= <-]; exact Hinvalid|].
      boot_step. destruct (Startup.exec host _ s2) as [[a s3] tr].
      reflexivity.
    + left. eexists _, err. split; [reflexivity|].
      split; [do 2 apply prefix_cons; apply prefix_nil | repeat constructor].
  - right. exists srv, tlsConf, None, s2. split; [discriminate|].
    destruct (Startup.exec host _ s2) as [[a s3] tr]. reflexivity.
Qed.

(** X19.  The operations of the start of the application come in one
    order, whatever they are answered and however far the start gets:
    the webhook server, the TLS configuration, the client of the
    backend, the ping, the health check of the configured service, the
    certificate, the HTTP job and the wait for it, the calls of the
    provisioning, the watcher job for pending requests and the wait for
    it, the readiness of the main job, the waits for the end of the two
    jobs, and their errors.  A run that goes beyond the load of the TLS
    configuration makes the client with the configuration that the
    load answered, and provisions with the bot of the webhook server
    that the first operation answered. *)
Theorem run_ops_order `{!Startup.Environment} host conf fuel
    (s : Startup.state host) :
  let r := Startup.exec host (Startup.run conf fuel) s in
  ∃ srv tlsConf name s' ready,
    Startup.ops (Startup.events r)
      `prefix_of`
      runOps conf tlsConf
        (calls (trace (run (Startup.services host)
                         (Bot.Setup
                            (Startup.setClusterName
                               (Startup.NewBot (Config.Pagerduty conf) srv)
                               name) fuel) s')))
        ready ∧
    (Startup.ops (Startup.events r)
       `prefix_of` [Startup.NewWebhookServer;
                    Startup.LoadTLSConfig
                      (TeleportConfig.ClientCrt (Config.Teleport conf))
                      (TeleportConfig.ClientKey (Config.Teleport conf))
                      (TeleportConfig.RootCAs (Config.Teleport conf))] ∨
     ∃ loadErr,
       runHead conf srv tlsConf loadErr `prefix_of` Startup.events r).
Proof.
  intros r.
  destruct (run_serve host conf fuel s)
    as [(b & err & _ & Hops & _)|(srv & tlsConf & loadErr & s2 & _ & Hrun)].
  - fold r in Hops.
    exists {| WebhookServer.ActionURL := λ name, name |}, EmptyString,
      EmptyString, s, true.
    split; [|left; exact Hops].
    etransitivity; [exact Hops|]. unfold runOps.
    do 2 apply prefix_cons. apply prefix_nil.
  - fold r in Hrun. clearbody r.
    destruct (serve_ops host conf fuel srv tlsConf s2)
      as (name & s' & ready & Hops). cbv zeta in Hops.
    destruct (Startup.exec host _ s2) as [[x s3] tr]. subst r.
    cbn [Startup.events snd] in Hops |- *.
    exists srv, tlsConf, name, s', ready. split.
    + rewrite ops_app.
      assert (Hhead : Startup.ops (runHead conf srv tlsConf loadErr)
                      = take 2 (runOps conf tlsConf [] true))
        by (destruct loadErr; reflexivity).
      rewrite Hhead. unfold runOps. simpl. do 2 apply prefix_cons.
      exact Hops.
    + right. exists loadErr. apply prefix_app_r. reflexivity.
Qed.

(** Takes apart the membership of an operation or a step in a run. *)
Ltac split_in H :=
  repeat first
    [ apply elem_of_nil in H; destruct H
    | apply elem_of_cons in H as [H|H]; [try discriminate H|]
    | apply elem_of_app in H as [H|H]
    | apply list_elem_of_fmap in H as (? & H & _); try discriminate H ].

Ltac in_events :=
  repeat first
    [ apply elem_of_cons; left; reflexivity
    | apply elem_of_cons; right
    | apply elem_of_app; right ].

Lemma serve_ready `{!Startup.Environment} host conf fuel bot tlsConf
    (s : Startup.state host) ready :
  let r := Startup.exec host (Startup.serve conf fuel bot tlsConf) s in
  Startup.SetReady ready ∈ Startup.ops (Startup.events r) →
  ∃ b httpOk watcherOk httpErr watcherErr,
    [Startup.Performed (Startup.SetReady ready) tt;
     Startup.Performed (Startup.Done Startup.HTTPJob) tt;
     Startup.Performed (Startup.Done (Startup.WatcherJob StatePending)) tt;
     Startup.Performed (Startup.Err Startup.HTTPJob) httpErr;
     Startup.Performed (Startup.Err (Startup.WatcherJob StatePending))
       watcherErr]
      `suffix_of` Startup.events r ∧
    Startup.Performed (Startup.WaitReady Startup.HTTPJob) (inr httpOk)
      ∈ Startup.events r ∧
    Startup.Performed (Startup.WaitReady (Startup.WatcherJob StatePending))
      (inr watcherOk)
      ∈ Startup.events r ∧
    ready = httpOk && watcherOk ∧
    Startup.returned r
      = Some (Some b, Startup.trace_NewAggregate [httpErr; watcherErr]).
Proof.
  intros r. subst r. unfold Startup.serve, Startup.checkTeleportVersion,
    Startup.HealthCheck.
  boot_explore host.
  all: try (cbn [Startup.events snd]; rewrite ?ops_performed, ?ops_said;
            simpl; intros Hin; split_in Hin; fail).
  rewrite exec_bind, exec_lift.
  destruct (run (Startup.services host) _ _) as [[[[err|]|] sP] trP].
  all: boot_explore host.
  all: cbn [Startup.events Startup.returned fst snd];
    rewrite ?ops_performed, ?ops_said, ?ops_app, ?ops_lifted;
    simpl; rewrite ?ops_performed, ?ops_said, ?ops_app, ?ops_lifted;
    intros Hin; split_in Hin.
  all: injection Hin as ->.
  all: do 5 eexists.
  all: split;
    [repeat first [reflexivity | apply suffix_cons_r | apply suffix_app_r]|].
  all: split; [in_events|].
  all: split; [in_events|].
  all: split; reflexivity.
Qed.

(** X20.  The main job is set ready on one path only: the two waits for
    the jobs were both answered, and the readiness that is set is the
    conjunction of the two answers.  What follows it is the end of the
    run: the waits for the end of the HTTP job and then of the watcher
    job, and the two errors of the jobs; the run returns their
    aggregate, which is no error when neither job has one. *)
Theorem run_ready `{!Startup.Environment} host conf fuel
    (s : Startup.state host) ready :
  let r := Startup.exec host (Startup.run conf fuel) s in
  Startup.SetReady ready ∈ Startup.ops (Startup.events r) →
  ∃ b httpOk watcherOk httpErr watcherErr,
    [Startup.Performed (Startup.SetReady ready) tt;
     Startup.Performed (Startup.Done Startup.HTTPJob) tt;
     Startup.Performed (Startup.Done (Startup.WatcherJob StatePending)) tt;
     Startup.Performed (Startup.Err Startup.HTTPJob) httpErr;
     Startup.Performed (Startup.Err (Startup.WatcherJob StatePending))
       watcherErr]
      `suffix_of` Startup.events r ∧
    Startup.Performed (Startup.WaitReady Startup.HTTPJob) (inr httpOk)
      ∈ Startup.events r ∧
    Startup.Performed (Startup.WaitReady (Startup.WatcherJob StatePending))
      (inr watcherOk)
      ∈ Startup.events r ∧
    ready = httpOk && watcherOk ∧
    Startup.returned r
      = Some (Some b, Startup.trace_NewAggregate [httpErr; watcherErr]) ∧
    (Startup.returned r = Some (Some b, None)
     ↔ httpErr = None ∧ watcherErr = None).
Proof.
  intros r Hin.
  destruct (run_serve host conf fuel s)
    as [(b & err & _ & Hops & _)|(srv & tlsConf & loadErr & s2 & _ & Hrun)].
  { fold r in Hops. apply (elem_of_prefix _ _ _ Hin) in Hops.
    split_in Hops. }
  fold r in Hrun. clearbody r.
  pose proof (serve_ready host conf fuel
                (Startup.NewBot (Config.Pagerduty conf) srv) tlsConf s2
                ready) as Hserve.
  cbv zeta in Hserve.
  destruct (Startup.exec host _ s2) as [[a s3] tr]. subst r.
  cbn [Startup.events Startup.returned fst snd] in *.
  rewrite ops_app in Hin. apply elem_of_app in Hin as [Hin|Hin].
  { unfold runHead in Hin. destruct loadErr; simpl in Hin; split_in Hin. }
  destruct (Hserve Hin)
    as (b & httpOk & watcherOk & httpErr & watcherErr
        & Hsuffix & Hhttp & Hwatcher & -> & ->).
  exists b, httpOk, watcherOk, httpErr, watcherErr.
  split; [apply suffix_app_r, Hsuffix|].
  split; [apply elem_of_app; right; exact Hhttp|].
  split; [apply elem_of_app; right; exact Hwatcher|].
  split; [reflexivity|]. split; [reflexivity|].
  unfold Startup.trace_NewAggregate.
  destruct httpErr, watcherErr; simpl; split;
    first [intros [= ?]; discriminate | intros [? ?]; discriminate
          | intros _; split; reflexivity | intros _; reflexivity
          | discriminate | idtac].
Qed.

Lemma run_ready_witness :
  let r := Startup.exec (Machine.host Machine.fine)
             (@Startup.run Machine.environment Machine.conf 4)
             Sample.worldP in
  ∃ b httpOk watcherOk httpErr watcherErr,
    [Startup.Performed (Startup.SetReady true) tt;
     Startup.Performed (Startup.Done Startup.HTTPJob) tt;
     Startup.Performed (Startup.Done (Startup.WatcherJob StatePending)) tt;
     Startup.Performed (Startup.Err Startup.HTTPJob) httpErr;
     Startup.Performed (Startup.Err (Startup.WatcherJob StatePending))
       watcherErr]
      `suffix_of` Startup.events r ∧
    Startup.Performed (Startup.WaitReady Startup.HTTPJob) (inr httpOk)
      ∈ Startup.events r ∧
    Startup.Performed (Startup.WaitReady (Startup.WatcherJob StatePending))
      (inr watcherOk)
      ∈ Startup.events r ∧
    true = httpOk && watcherOk ∧
    Startup.returned r
      = Some (Some b,
              @Startup.trace_NewAggregate Machine.environment
                [httpErr; watcherErr]) ∧
    (Startup.returned r = Some (Some b, None)
     ↔ httpErr = None ∧ watcherErr = None).
Proof.
  intros r.
  apply (@run_ready Machine.environment (Machine.host Machine.fine)
           Machine.conf 4 Sample.worldP true).
  vm_compute. in_list.
Defined.

Lemma serve_first `{!Startup.Environment} host conf fuel bot tlsConf
    (s : Startup.state host) :
  ∃ rest,
    Startup.ops
      (Startup.events
         (Startup.exec host (Startup.serve conf fuel bot tlsConf) s))
    = Startup.NewClient "pagerduty"
        (TeleportConfig.AuthServer (Config.Teleport conf)) tlsConf
      :: rest.
Proof.
  unfold Startup.serve. rewrite exec_bind. boot_step.
  destruct (Startup.answer host _ s) as [r s1].
  destruct (Startup.exec host _ s1) as [[a s2] tr].
  eexists. reflexivity.
Qed.

(** X21.  An error of the load of the TLS configuration is fatal unless
    it is the error of a certificate that is not valid.  That one is
    logged as a warning, and the start goes on: the next operation
    makes the client of the backend, with the configuration that came
    with the error.  Any other error ends the run after the load, and
    is what the run returns. *)
Theorem run_invalid_certificate `{!Startup.Environment} host conf fuel
    (s s1 s2 : Startup.state host) srv tlsConf err :
  let load :=
    Startup.LoadTLSConfig
      (TeleportConfig.ClientCrt (Config.Teleport conf))
      (TeleportConfig.ClientKey (Config.Teleport conf))
      (TeleportConfig.RootCAs (Config.Teleport conf)) in
  Startup.answer host Startup.NewWebhookServer s = (inr srv, s1) →
  Startup.answer host load s1 = ((tlsConf, Some err), s2) →
  let r := Startup.exec host (Startup.run conf fuel) s in
  if Startup.IsInvalidCertificate err then
    Startup.withError err WarnLevel "Auth client TLS configuration error"
      ∈ Startup.lines (Startup.events r) ∧
    ∃ rest,
      Startup.ops (Startup.events r)
        = Startup.NewWebhookServer :: load
          :: Startup.NewClient "pagerduty"
               (TeleportConfig.AuthServer (Config.Teleport conf)) tlsConf
          :: rest
  else
    Startup.returned r
      = Some (Some (Startup.NewBot (Config.Pagerduty conf) srv), Some err) ∧
    Startup.left r = s2 ∧
    Startup.ops (Startup.events r) = [Startup.NewWebhookServer; load].
Proof.
  intros load Hsrv Hload r. subst r load.
  unfold Startup.run. boot_step. rewrite Hsrv. boot_step. rewrite Hload.
  destruct (Startup.IsInvalidCertificate err).
  - boot_step.
    destruct (serve_first host conf fuel
                (Startup.NewBot (Config.Pagerduty conf) srv) tlsConf s2)
      as [rest Hrest].
    destruct (Startup.exec host _ s2) as [[a s3] tr].
    cbn [Startup.events snd] in Hrest |- *. split.
    + simpl. do 1 right. left.
    + exists rest. rewrite !ops_said, !ops_performed, ops_said, Hrest.
      reflexivity.
  - repeat split.
Qed.

Lemma run_invalid_certificate_witness :
  let k := {| Machine.loaded := Some Machine.invalidCertificate;
              Machine.pong := inr Machine.pong1;
              Machine.service := None;
              Machine.httpReady := inr true;
              Machine.watcherReady := inr true;
              Machine.httpErr := None;
              Machine.watcherErr := None |} in
  let r := Startup.exec (Machine.host k)
             (@Startup.run Machine.environment Machine.conf 4)
             Sample.worldP in
  Startup.withError Machine.invalidCertificate WarnLevel
    "Auth client TLS configuration error"
    ∈ Startup.lines (Startup.events r) ∧
  ∃ rest,
    Startup.ops (Startup.events r)
      = Startup.NewWebhookServer
        :: Startup.LoadTLSConfig "auth.crt" "auth.key" "auth.cas"
        :: Startup.NewClient "pagerduty" "auth.example.com:3025" "tls-1"
        :: rest.
Proof.
  intros k r.
  apply (@run_invalid_certificate Machine.environment (Machine.host k)
           Machine.conf 4 Sample.worldP Sample.worldP Sample.worldP
           Sample.server "tls-1" Machine.invalidCertificate).
  - reflexivity.
  - reflexivity.
Defined.

Lemma pingAnswer_lifted x : pingAnswer (Startup.lifted x) = None.
Proof. destruct x; reflexivity. Qed.

Lemma serviceAnswer_lifted x : serviceAnswer (Startup.lifted x) = None.
Proof. destruct x; reflexivity. Qed.

Lemma lines_app tr1 tr2 :
  Startup.lines (tr1 ++ tr2) = Startup.lines tr1 ++ Startup.lines tr2.
Proof. unfold Startup.lines. apply omap_app. Qed.

Lemma serve_version `{!Startup.Environment} host conf fuel bot tlsConf
    (s : Startup.state host) e pongAns :
  let r := Startup.exec host (Startup.serve conf fuel bot tlsConf) s in
  e ∈ Startup.events r →
  pingAnswer e = Some pongAns →
  let ops2 :=
    [Startup.NewClient "pagerduty"
       (TeleportConfig.AuthServer (Config.Teleport conf)) tlsConf;
     Startup.Ping] in
  match pongAns with
  | inl err =>
      Startup.returned r
        = Some (Some bot,
                Some (if Startup.trace_IsNotImplemented err
                      then Startup.trace_WrapMessage err
                             "server version must be at least %s"
                             [FString Startup.MinServerVersion]
                      else err)) ∧
      Startup.ops (Startup.events r) = ops2 ∧
      Startup.lines (Startup.events r)
        = Startup.plain DebugLevel "Checking Teleport server version"
          :: (if Startup.trace_IsNotImplemented err then []
              else [Startup.plain ErrorLevel
                      "Unable to get Teleport server version"])
  | inr pong =>
      match Startup.AssertServerVersion pong with
      | Some err =>
          Startup.returned r
            = Some (Some (Startup.setClusterName bot (Pong.ClusterName pong)),
                    Some err) ∧
          Startup.ops (Startup.events r) = ops2
      | None =>
          ∃ rest,
            Startup.ops (Startup.events r)
              = ops2 ++ Startup.GetService (Bot.serviceID bot) :: rest
      end
  end.
Proof.
  intros r. subst r. unfold Startup.serve, Startup.checkTeleportVersion,
    Startup.HealthCheck.
  boot_explore host.
  all: try (cbn [Startup.events Startup.returned fst snd];
            intros Hin Hping; split_in Hin; subst e;
            simpl in Hping; try discriminate Hping;
            injection Hping as <-; unfold trace_Wrap;
            rewrite ?Htest, ?Hversion;
            first [ by repeat split
                  | eexists; rewrite ?ops_performed, ?ops_said; simpl;
                    reflexivity ]; fail).
  rewrite exec_bind, exec_lift.
  destruct (run (Startup.services host) _ _) as [[[[err|]|] sP] trP].
  all: boot_explore host.
  all: cbn [Startup.events Startup.returned fst snd];
    intros Hin Hping; split_in Hin; subst e;
    rewrite ?pingAnswer_lifted in Hping;
    simpl in Hping; try discriminate Hping;
    injection Hping as <-; rewrite ?Hversion;
    eexists; rewrite ?ops_performed, ?ops_said; simpl; reflexivity.
Qed.

(** X22.  The version check stands before every call to the incident
    service.  When the ping fails, the run ends on it: a server that
    does not implement the ping gives the error with the least version
    required attached, and no error line; any other failure is logged
    as an error and returned as it is.  When the ping is answered, the
    bot takes the cluster name of the answer before the version is
    asserted, so an old server ends the run with the assertion's error
    and a bot that carries the name; only a server that passes is
    followed by the health check of the configured service. *)
Theorem run_version_gate `{!Startup.Environment} host conf fuel
    (s : Startup.state host) e pongAns :
  let r := Startup.exec host (Startup.run conf fuel) s in
  e ∈ Startup.events r →
  pingAnswer e = Some pongAns →
  ∃ srv tlsConf,
    let bot := Startup.NewBot (Config.Pagerduty conf) srv in
    match pongAns with
    | inl err =>
        Startup.returned r
          = Some (Some bot,
                  Some (if Startup.trace_IsNotImplemented err
                        then Startup.trace_WrapMessage err
                               "server version must be at least %s"
                               [FString Startup.MinServerVersion]
                        else err)) ∧
        Startup.ops (Startup.events r) = pingOps conf tlsConf ∧
        (Startup.plain DebugLevel "Checking Teleport server version"
         :: (if Startup.trace_IsNotImplemented err then []
             else [Startup.plain ErrorLevel
                     "Unable to get Teleport server version"]))
          `suffix_of` Startup.lines (Startup.events r)
    | inr pong =>
        match Startup.AssertServerVersion pong with
        | Some err =>
            Startup.returned r
              = Some (Some (Startup.setClusterName bot
                              (Pong.ClusterName pong)),
                      Some err) ∧
            Startup.ops (Startup.events r) = pingOps conf tlsConf
        | None =>
            ∃ rest,
              Startup.ops (Startup.events r)
                = pingOps conf tlsConf
                  ++ Startup.GetService
                       (PagerdutyConfig.ServiceID (Config.Pagerduty conf))
                  :: rest
        end
    end.
Proof.
  intros r Hin Hping.
  destruct (run_serve host conf fuel s)
    as [(b & err & _ & _ & Hnone)|(srv & tlsConf & loadErr & s2 & _ & Hrun)].
  { fold r in Hnone. rewrite Forall_forall in Hnone.
    destruct (Hnone e Hin) as [Hnot _]. congruence. }
  fold r in Hrun. clearbody r.
  pose proof (serve_version host conf fuel
                (Startup.NewBot (Config.Pagerduty conf) srv) tlsConf s2
                e pongAns) as Hserve.
  cbv zeta in Hserve.
  destruct (Startup.exec host _ s2) as [[a s3] tr]. subst r.
  cbn [Startup.events Startup.returned fst snd] in *.
  apply elem_of_app in Hin as [Hin|Hin].
  { unfold runHead in Hin. destruct loadErr; simpl in Hin; split_in Hin;
      subst e; discriminate Hping. }
  specialize (Hserve Hin Hping).
  exists srv, tlsConf. cbv zeta.
  assert (Hhead : Startup.ops (runHead conf srv tlsConf loadErr)
                  = take 2 (pingOps conf tlsConf))
    by (destruct loadErr; reflexivity).
  rewrite ops_app, lines_app, Hhead.
  destruct pongAns as [err|pong].
  - destruct Hserve as (-> & -> & ->).
    split; [reflexivity|]. split; [reflexivity|].
    apply suffix_app_r. reflexivity.
  - destruct (Startup.AssertServerVersion pong) as [err|].
    + destruct Hserve as (-> & ->). split; reflexivity.
    + destruct Hserve as [rest ->]. exists rest. reflexivity.
Qed.

Lemma run_version_gate_witness :
  let k := {| Machine.loaded := None;
              Machine.pong := inl Machine.notImplemented;
              Machine.service := None;
              Machine.httpReady := inr true;
              Machine.watcherReady := inr true;
              Machine.httpErr := None;
              Machine.watcherErr := None |} in
  let r := Startup.exec (Machine.host k)
             (@Startup.run Machine.environment Machine.conf 4)
             Sample.worldP in
  ∃ srv tlsConf,
    Startup.returned r
      = Some (Some (Startup.NewBot (Config.Pagerduty Machine.conf) srv),
              Some (Error KindNotImplemented
                      "server version must be at least %s"
                      [AString "not implemented"])) ∧
    Startup.ops (Startup.events r) = pingOps Machine.conf tlsConf ∧
    [Startup.plain DebugLevel "Checking Teleport server version"]
      `suffix_of` Startup.lines (Startup.events r).
Proof.
  intros k r.
  apply (@run_version_gate Machine.environment (Machine.host k)
           Machine.conf 4 Sample.worldP
           (Startup.Performed Startup.Ping (inl Machine.notImplemented))
           (inl Machine.notImplemented)).
  - vm_compute. in_list.
  - reflexivity.
Defined.

Lemma serve_health `{!Startup.Environment} host conf fuel bot tlsConf
    (s : Startup.state host) e err :
  let r := Startup.exec host (Startup.serve conf fuel bot tlsConf) s in
  e ∈ Startup.events r →
  serviceAnswer e = Some (Some err) →
  let failure :=
    Startup.trace_WrapMessage err
      "failed to fetch pagerduty service info: %v" [FError err] in
  (∃ name,
     Startup.returned r
       = Some (Some (Startup.setClusterName bot name), Some failure)) ∧
  Startup.ops (Startup.events r)
    = [Startup.NewClient "pagerduty"
         (TeleportConfig.AuthServer (Config.Teleport conf)) tlsConf;
       Startup.Ping;
       Startup.GetService (Bot.serviceID bot)] ∧
  [Startup.withError failure ErrorLevel "PagerDuty API health check failed"]
    `suffix_of` Startup.lines (Startup.events r).
Proof.
  intros r. subst r. unfold Startup.serve, Startup.checkTeleportVersion,
    Startup.HealthCheck.
  boot_explore host.
  all: try (cbn [Startup.events Startup.returned fst snd];
            intros Hin Hservice; split_in Hin; subst e;
            simpl in Hservice;
            first [ discriminate Hservice
                  | injection Hservice as <-; simpl;
                    (split; [eexists; reflexivity|]);
                    (split; [reflexivity|]);
                    repeat first [reflexivity | apply suffix_cons_r] ];
            fail).
  rewrite exec_bind, exec_lift.
  destruct (run (Startup.services host) _ _) as [[[[err0|]|] sP] trP].
  all: boot_explore host.
  all: cbn [Startup.events Startup.returned fst snd];
    intros Hin Hservice; split_in Hin; subst e;
    rewrite ?serviceAnswer_lifted in Hservice;
    simpl in Hservice; discriminate Hservice.
Qed.

(** X23.  The health check stands before the listener.  A health check
    that fails ends the run on it: the run returns the error of the
    check with the message of the failed fetch attached, logs it as an
    error, and has asked for nothing after the service: no certificate,
    no HTTP job, no provisioning, no watcher. *)
Theorem run_health_gate `{!Startup.Environment} host conf fuel
    (s : Startup.state host) e err :
  let r := Startup.exec host (Startup.run conf fuel) s in
  e ∈ Startup.events r →
  serviceAnswer e = Some (Some err) →
  let failure :=
    Startup.trace_WrapMessage err
      "failed to fetch pagerduty service info: %v" [FError err] in
  ∃ srv tlsConf name,
    Startup.returned r
      = Some (Some (Startup.setClusterName
                      (Startup.NewBot (Config.Pagerduty conf) srv) name),
              Some failure) ∧
    Startup.ops (Startup.events r)
      = pingOps conf tlsConf
        ++ [Startup.GetService
              (PagerdutyConfig.ServiceID (Config.Pagerduty conf))] ∧
    [Startup.withError failure ErrorLevel
       "PagerDuty API health check failed"]
      `suffix_of` Startup.lines (Startup.events r).
Proof.
  intros r Hin Hservice failure.
  destruct (run_serve host conf fuel s)
    as [(b & err0 & _ & _ & Hnone)|(srv & tlsConf & loadErr & s2 & _ & Hrun)].
  { fold r in Hnone. rewrite Forall_forall in Hnone.
    destruct (Hnone e Hin) as [_ Hnot]. congruence. }
  fold r in Hrun. clearbody r.
  pose proof (serve_health host conf fuel
                (Startup.NewBot (Config.Pagerduty conf) srv) tlsConf s2
                e err) as Hserve.
  cbv zeta in Hserve.
  destruct (Startup.exec host _ s2) as [[a s3] tr]. subst r.
  cbn [Startup.events Startup.returned fst snd] in *.
  apply elem_of_app in Hin as [Hin|Hin].
  { unfold runHead in Hin. destruct loadErr; simpl in Hin; split_in Hin;
      subst e; discriminate Hservice. }
  destruct (Hserve Hin Hservice) as ([name ->] & Hops & Hlines).
  exists srv, tlsConf, name.
  assert (Hhead : Startup.ops (runHead conf srv tlsConf loadErr)
                  = take 2 (pingOps conf tlsConf))
    by (destruct loadErr; reflexivity).
  rewrite ops_app, lines_app, Hhead, Hops.
  split; [reflexivity|]. split; [reflexivity|].
  apply suffix_app_r. exact Hlines.
Qed.

Lemma run_health_gate_witness :
  let k := {| Machine.loaded := None;
              Machine.pong := inr Machine.pong1;
              Machine.service := Some Sample.unavailable;
              Machine.httpReady := inr true;
              Machine.watcherReady := inr true;
              Machine.httpErr := None;
              Machine.watcherErr := None |} in
  let r := Startup.exec (Machine.host k)
             (@Startup.run Machine.environment Machine.conf 4)
             Sample.worldP in
  let failure :=
    Error KindOther "failed to fetch pagerduty service info: %v"
      [AString "service unavailable"] in
  ∃ srv tlsConf name,
    Startup.returned r
      = Some (Some (Startup.setClusterName
                      (Startup.NewBot (Config.Pagerduty Machine.conf) srv)
                      name),
              Some failure) ∧
    Startup.ops (Startup.events r)
      = pingOps Machine.conf tlsConf ++ [Startup.GetService "SVC1"] ∧
    [Startup.withError failure ErrorLevel
       "PagerDuty API health check failed"]
      `suffix_of` Startup.lines (Startup.events r).
Proof.
  intros k r failure.
  apply (@run_health_gate Machine.environment (Machine.host k)
           Machine.conf 4 Sample.worldP
           (Startup.Performed (Startup.GetService "SVC1")
              (Some Sample.unavailable))
           Sample.unavailable).
  - vm_compute. in_list.
  - reflexivity.
Defined.

(** * Properties of the client profiles *)

Lemma land_make_current o :
  Z.land o Profile.ProfileMakeCurrent
  = if Z.testbit o 1 then Profile.ProfileMakeCurrent else 0.
Proof.
  change Profile.ProfileMakeCurrent with (2 ^ 1).
  apply Z.bits_inj'. intros n Hn. rewrite Z.land_spec.
  rewrite Z.pow2_bits_eqb by lia.
  destruct (Z.eqb_spec 1 n) as [<-|Hne].
  - destruct (Z.testbit o 1); [reflexivity|].
    rewrite Z.bits_0. reflexivity.
  - rewrite andb_false_r.
    destruct (Z.testbit o 1); [|rewrite Z.bits_0; reflexivity].
    rewrite Z.pow2_bits_eqb by lia. symmetry. apply Z.eqb_neq. exact Hne.
Qed.

Lemma make_current_test o :
  bool_decide (Z.land o Profile.ProfileMakeCurrent ≠ 0) = Z.testbit o 1.
Proof.
  rewrite land_make_current. destruct (Z.testbit o 1).
  - apply bool_decide_eq_true_2. discriminate.
  - apply bool_decide_eq_false_2. tauto.
Qed.

Lemma exec_bind_disk F {A B} (p : Profile.Script A)
    (f : A → Profile.Script B) s :
  Profile.exec F (p ≫= f) s =
    let '(a, s1, tr1) := Profile.exec F p s in
    let '(b, s2, tr2) := Profile.exec F (f a) s1 in
    (b, s2, tr1 ++ tr2).
Proof.
  revert s. induction p as [a | o k IH | l k IH]; intros s; simpl.
  - destruct (Profile.exec F (f a) s) as [[b s2] tr2]. reflexivity.
  - destruct (Profile.answer F o s) as [r s1]. specialize (IH r s1).
    unfold mbind in IH. rewrite IH.
    destruct (Profile.exec F (k r) s1) as [[a s2] tr1].
    destruct (Profile.exec F (f a) s2) as [[b s3] tr2]. reflexivity.
  - specialize (IH s). unfold mbind in IH. rewrite IH.
    destruct (Profile.exec F k s) as [[a s1] tr1].
    destruct (Profile.exec F (f a) s1) as [[b s2] tr2]. reflexivity.
Qed.

Ltac disk_step :=
  cbn [mbind mret Profile.Script_mbind Profile.Script_mret
       Profile.Script_bind Profile.perform Profile.say Profile.exec].

(** Follows a run of a profile function down every answer of the file
    system. *)
Ltac disk_explore F :=
  repeat first
    [ progress disk_step
    | progress cbn [fmap option_fmap option_map]
    | match goal with
      | |- context [Profile.answer F ?o ?s] =>
          let r := fresh "r" in
          let s' := fresh "s" in
          let E := fresh "Hanswer" in
          destruct (Profile.answer F o s) as [r s'] eqn:E;
          cbn [Profile.Ans] in r; destruct r
      end ].

(** X24.  Without the bit of [ProfileMakeCurrent] in the options, which
    is the bit of value 2, a profile that was written is saved: the
    run returns no error whatever the removal and the link of the alias
    were answered, and its operations are the write, with permission
    0660, and those of the alias.  The options 1 are such options. *)
Theorem SaveTo_alias_failures_dropped `{!Profile.Library} F cp loc
    (s s1 : Profile.state F) data :
  Profile.yaml_Marshal cp = inr data →
  Profile.answer F (Profile.WriteFile (ProfileLocation.Path loc) data 432) s
    = (None, s1) →
  Z.testbit (ProfileLocation.Options loc) 1 = false →
  let r := Profile.exec F (Profile.SaveTo cp loc) s in
  Profile.returned r = None ∧
  Profile.ops (Profile.events r)
    = Profile.WriteFile (ProfileLocation.Path loc) data 432 :: aliasOps loc.
Proof.
  intros Hdata Hwrite Hbit r. subst r.
  unfold Profile.SaveTo, aliasOps. rewrite Hdata, make_current_test, Hbit.
  disk_step. change (6 * 64 + 6 * 8) with 432. rewrite Hwrite.
  destruct (bool_decide (ProfileLocation.AliasPath loc ≠ EmptyString)
            && bool_decide
                 (Profile.filepath_Base (ProfileLocation.AliasPath loc)
                  ≠ Profile.filepath_Base (ProfileLocation.Path loc))).
  all: disk_explore F.
  all: split; reflexivity.
Qed.

Lemma SaveTo_alias_failures_dropped_witness :
  let r := Profile.exec Disk.files
             (@Profile.SaveTo Disk.library Disk.staging (Disk.here 1))
             Disk.busy in
  Profile.returned r = None ∧
  Profile.ops (Profile.events r)
    = [Profile.WriteFile "tsh/staging.yaml"
         (Disk.encode "staging.example.com:3080") 432;
       Profile.Remove "tsh/alias.yaml";
       Profile.Symlink "staging.yaml" "tsh/alias.yaml"].
Proof.
  intros r.
  apply (@SaveTo_alias_failures_dropped Disk.library Disk.files
           Disk.staging (Disk.here 1) Disk.busy
           (<["tsh/staging.yaml" :=
                Disk.File (Disk.encode "staging.example.com:3080")]>
              Disk.busy)).
  - reflexivity.
  - reflexivity.
  - reflexivity.
Defined.

(** X25.  With the bit of [ProfileMakeCurrent] in the options, a profile
    that was written is made the current one last: after the write and
    the operations of the alias come the removal of the link
    "profile" in the directory of the profile and the link from there
    to the base name of the profile.  The run returns what that last
    link was answered; the removal before it, and the alias, can only
    fail with a warning. *)
Theorem SaveTo_make_current `{!Profile.Library} F cp loc
    (s s1 : Profile.state F) data :
  Profile.yaml_Marshal cp = inr data →
  Profile.answer F (Profile.WriteFile (ProfileLocation.Path loc) data 432) s
    = (None, s1) →
  Z.testbit (ProfileLocation.Options loc) 1 = true →
  let r := Profile.exec F (Profile.SaveTo cp loc) s in
  let link :=
    Profile.Symlink (Profile.filepath_Base (ProfileLocation.Path loc))
      (currentLink loc) in
  Profile.ops (Profile.events r)
    = Profile.WriteFile (ProfileLocation.Path loc) data 432
      :: aliasOps loc ++ [Profile.Remove (currentLink loc); link] ∧
  last (Profile.events r) = Some (Profile.Performed link (Profile.returned r)) ∧
  Forall (λ l, log_level l = WarnLevel) (Profile.lines (Profile.events r)).
Proof.
  intros Hdata Hwrite Hbit r link. subst r link.
  unfold Profile.SaveTo, aliasOps, currentLink.
  rewrite Hdata, make_current_test, Hbit.
  disk_step. change (6 * 64 + 6 * 8) with 432. rewrite Hwrite.
  destruct (bool_decide (ProfileLocation.AliasPath loc ≠ EmptyString)
            && bool_decide
                 (Profile.filepath_Base (ProfileLocation.AliasPath loc)
                  ≠ Profile.filepath_Base (ProfileLocation.Path loc))).
  all: disk_explore F.
  all: split; [reflexivity|]; split; [reflexivity|].
  all: simpl; repeat constructor.
Qed.

Lemma SaveTo_make_current_witness :
  let r := Profile.exec Disk.files
             (@Profile.SaveTo Disk.library Disk.staging (Disk.here 2))
             Disk.busy in
  let link := Profile.Symlink "staging.yaml" "tsh/profile" in
  Profile.ops (Profile.events r)
    = [Profile.WriteFile "tsh/staging.yaml"
         (Disk.encode "staging.example.com:3080") 432;
       Profile.Remove "tsh/alias.yaml";
       Profile.Symlink "staging.yaml" "tsh/alias.yaml";
       Profile.Remove "tsh/profile"; link] ∧
  last (Profile.events r) = Some (Profile.Performed link (Profile.returned r)) ∧
  Forall (λ l, log_level l = WarnLevel) (Profile.lines (Profile.events r)).
Proof.
  intros r link.
  apply (@SaveTo_make_current Disk.library Disk.files
           Disk.staging (Disk.here 2) Disk.busy
           (<["tsh/staging.yaml" :=
                Disk.File (Disk.encode "staging.example.com:3080")]>
              Disk.busy)).
  - reflexivity.
  - reflexivity.
  - reflexivity.
Defined.

(** X26.  A profile that [SaveTo] saved without error is the profile that
    [ProfileFromFile] then loads from the path of the location, and
    that [ProfileFromDir] loads for a proxy name whose file is at that
    path.  The
    assumptions are on what the two functions stand on: the decoder
    reads back what the encoder made of the profile; a file that was
    written is read with its contents; and the removal of a path, or a
    link at a path, leaves the other paths as they are.  On the
    location, the link to the current profile must not be the path of
    the profile itself. *)
Theorem SaveTo_ProfileFromFile `{!Profile.Library} F cp loc
    (s : Profile.state F) :
  (∀ data, Profile.yaml_Marshal cp = inr data →
           Profile.yaml_Unmarshal data = inr (Some cp)) →
  (∀ p data perm s0 s1,
     Profile.answer F (Profile.WriteFile p data perm) s0 = (None, s1) →
     contents F p s1 = inr data) →
  (∀ p q s0, q ≠ p →
     contents F p (Profile.answer F (Profile.Remove q) s0).2
     = contents F p s0) →
  (∀ p t q s0, q ≠ p →
     contents F p (Profile.answer F (Profile.Symlink t q) s0).2
     = contents F p s0) →
  currentLink loc ≠ ProfileLocation.Path loc →
  let r := Profile.exec F (Profile.SaveTo cp loc) s in
  Profile.returned r = None →
  Profile.returned
    (Profile.exec F (Profile.ProfileFromFile (ProfileLocation.Path loc))
       (Profile.left r))
  = inr (Some cp) ∧
  ∀ dirPath proxyName,
    proxyName ≠ EmptyString →
    Profile.filepath_Join dirPath (proxyName +:+ ".yaml")
      = ProfileLocation.Path loc →
    Profile.returned
      (Profile.exec F (Profile.ProfileFromDir dirPath proxyName)
         (Profile.left r))
    = inr (Some cp).
Proof.
  intros Hyaml Hwrite Hremove Hlink Hcurrent r. subst r.
  enough (Hfile :
    Profile.returned (Profile.exec F (Profile.SaveTo cp loc) s) = None →
    Profile.returned
      (Profile.exec F (Profile.ProfileFromFile (ProfileLocation.Path loc))
         (Profile.left (Profile.exec F (Profile.SaveTo cp loc) s)))
    = inr (Some cp)).
  { intros Hret. split; [exact (Hfile Hret)|].
    intros dirPath proxyName Hname Hpath. unfold Profile.ProfileFromDir.
    rewrite bool_decide_eq_true_2 by assumption. rewrite Hpath.
    exact (Hfile Hret). }
  assert (Hload : ∀ data s',
            Profile.yaml_Marshal cp = inr data →
            contents F (ProfileLocation.Path loc) s' = inr data →
            Profile.returned
              (Profile.exec F
                 (Profile.ProfileFromFile (ProfileLocation.Path loc)) s')
            = inr (Some cp)).
  { intros data s' Hdata Hread. unfold Profile.ProfileFromFile, contents in *.
    disk_step.
    destruct (Profile.answer F (Profile.ReadFile _) s') as [read s''].
    simpl in Hread. subst read. rewrite (Hyaml data Hdata). reflexivity. }
  unfold Profile.SaveTo, currentLink in *.
  destruct (Profile.yaml_Marshal cp) as [err|data] eqn:Hdata;
    [discriminate|].
  specialize (Hload data). rewrite make_current_test. disk_step.
  destruct (Profile.answer F (Profile.WriteFile _ data _) s)
    as [[err|] s1] eqn:Hw; [discriminate|].
  apply Hwrite in Hw.
  assert (Halias : ∀ s2,
    contents F (ProfileLocation.Path loc) s2 = inr data →
    contents F (ProfileLocation.Path loc)
      (Profile.left
         (Profile.exec F
            (if bool_decide (ProfileLocation.AliasPath loc ≠ EmptyString)
                && bool_decide
                     (Profile.filepath_Base (ProfileLocation.AliasPath loc)
                      ≠ Profile.filepath_Base (ProfileLocation.Path loc))
             then
               removed ← Profile.perform
                           (Profile.Remove (ProfileLocation.AliasPath loc));
               match removed with
               | Some err =>
                   Profile.say
                     (Profile.warningf "Failed to remove symlink alias: %v"
                        err)
               | None => mret tt
               end;;
               linked ← Profile.perform
                          (Profile.Symlink
                             (Profile.filepath_Base
                                (ProfileLocation.Path loc))
                             (ProfileLocation.AliasPath loc));
               match linked with
               | Some err =>
                   Profile.say
                     (Profile.warningf "Failed to create profile alias: %v"
                        err)
               | None => mret tt
               end
             else mret tt) s2))
    = inr data).
  { intros s2 Hs2.
    destruct (bool_decide (ProfileLocation.AliasPath loc ≠ EmptyString))
      eqn:Hnamed; [|exact Hs2].
    destruct (bool_decide
                (Profile.filepath_Base (ProfileLocation.AliasPath loc)
                 ≠ Profile.filepath_Base (ProfileLocation.Path loc)))
      eqn:Hbase; [|exact Hs2].
    apply bool_decide_eq_true in Hbase.
    assert (Hne : ProfileLocation.AliasPath loc ≠ ProfileLocation.Path loc)
      by (intros Heq; apply Hbase; rewrite Heq; reflexivity).
    cbn [andb]. disk_step.
    pose proof (Hremove _ _ s2 Hne) as H2.
    destruct (Profile.answer F (Profile.Remove _) s2) as [removed s3].
    cbn [snd] in H2.
    assert (H3 : contents F (ProfileLocation.Path loc) s3 = inr data)
      by (rewrite H2; exact Hs2).
    pose proof (Hlink _ (Profile.filepath_Base (ProfileLocation.Path loc))
                  _ s3 Hne) as H4.
    destruct removed as [e|]; disk_step;
      destruct (Profile.answer F (Profile.Symlink _ _) s3) as [linked s4];
      cbn [snd] in H4; destruct linked as [e'|]; disk_step;
      cbn [Profile.left fst snd]; rewrite H4; exact H3. }
  specialize (Halias s1 Hw).
  change (Profile.Script_bind ?f ?p) with (p ≫= f).
  rewrite exec_bind_disk.
  destruct (Profile.exec F _ s1) as [[u s2] tr1].
  cbn [Profile.left fst snd] in Halias.
  destruct (Z.testbit (ProfileLocation.Options loc) 1).
  - disk_step.
    pose proof (Hremove (ProfileLocation.Path loc) _ s2 Hcurrent) as H2.
    destruct (Profile.answer F (Profile.Remove _) s2) as [removed s3].
    cbn [snd] in H2.
    assert (H3 : contents F (ProfileLocation.Path loc) s3 = inr data)
      by (rewrite H2; exact Halias).
    pose proof (Hlink (ProfileLocation.Path loc)
                  (Profile.filepath_Base (ProfileLocation.Path loc))
                  _ s3 Hcurrent) as H4.
    destruct removed as [e|]; disk_step;
      destruct (Profile.answer F (Profile.Symlink _ _) s3) as [linked s4];
      cbn [snd] in H4; destruct linked as [e'|];
      cbn [Profile.returned Profile.left fst snd fmap option_fmap option_map];
      intros Hret; try discriminate Hret;
      (apply Hload; [reflexivity | rewrite H4; exact H3]).
  - cbn [Profile.exec Profile.returned Profile.left fst snd mret
         Profile.Script_mret].
    intros _. apply Hload; [reflexivity | exact Halias].
Qed.

Lemma Disk_write p data perm (s0 s1 : gmap string Disk.Node) :
  Profile.answer Disk.files (Profile.WriteFile p data perm) s0 = (None, s1) →
  contents Disk.files p s1 = inr data.
Proof.
  simpl. intros [= <-]. unfold contents. simpl.
  rewrite lookup_insert_eq. reflexivity.
Qed.

Lemma Disk_remove p q (s0 : gmap string Disk.Node) :
  q ≠ p →
  contents Disk.files p (Profile.answer Disk.files (Profile.Remove q) s0).2
  = contents Disk.files p s0.
Proof.
  intros Hne. unfold contents. simpl.
  destruct (s0 !! q) as [[]|]; simpl; rewrite ?lookup_delete_ne by exact Hne;
    reflexivity.
Qed.

Lemma Disk_symlink p t q (s0 : gmap string Disk.Node) :
  q ≠ p →
  contents Disk.files p
    (Profile.answer Disk.files (Profile.Symlink t q) s0).2
  = contents Disk.files p s0.
Proof.
  intros Hne. unfold contents. simpl.
  destruct (s0 !! q); simpl; rewrite ?lookup_insert_ne by exact Hne;
    reflexivity.
Qed.

Lemma SaveTo_ProfileFromFile_witness :
  let r := Profile.exec Disk.files
             (@Profile.SaveTo Disk.library Disk.staging (Disk.here 2))
             Disk.busy in
  Profile.returned
    (Profile.exec Disk.files
       (@Profile.ProfileFromFile Disk.library "tsh/staging.yaml")
       (Profile.left r))
  = inr (Some Disk.staging) ∧
  ∀ dirPath proxyName,
    proxyName ≠ EmptyString →
    dirPath +:+ "/" +:+ (proxyName +:+ ".yaml") = "tsh/staging.yaml" →
    Profile.returned
      (Profile.exec Disk.files
         (@Profile.ProfileFromDir Disk.library dirPath proxyName)
         (Profile.left r))
    = inr (Some Disk.staging).
Proof.
  intros r.
  apply (@SaveTo_ProfileFromFile Disk.library Disk.files Disk.staging
           (Disk.here 2) Disk.busy).
  - intros data [= <-]. reflexivity.
  - apply Disk_write.
  - apply Disk_remove.
  - apply Disk_symlink.
  - discriminate.
  - reflexivity.
Defined.
